(** * Copilot Scheduler: the schedule manager

    A shallow embedding of [src/scheduleManager.ts] (class [ScheduleManager])
    together with the types of [types.ts] it uses, and the properties of the
    task store, the scope gate and the polling loop.

    Conventions of the embedding.
    - A [Date] is its epoch value in milliseconds ([getTime()]).  Only valid
      dates are represented: every date the manager creates comes from the
      clock or from the cron library.
    - The host (VS Code configuration, workspace folders, the clock,
      [Math.random], [globalState], the console, the timer queue) is part of
      the [World] the methods run in; [new Date()] and [Math.random()] read
      oracles of the world, so that two reads may differ.
    - A method is a computation [M A]: it takes a world and returns either a
      value or a thrown error, with the world it leaves behind.  A thrown
      error keeps the mutations made before it, as in JavaScript.
    - [await] is sequencing: a method runs to completion before the next one
      starts (the extension host is single threaded and the interleaving of
      two asynchronous methods is outside this model).
    - [globalState.update] succeeds: a failure of the durable store is
      not modelled.
    - The cron library ([cron-parser]) and the JSON encoding of dates are
      external: they are the interfaces [CronParser] and [DateCodec].
      Nothing is assumed of the dates the cron library returns.
    - The local time zone belongs to the host: the calendar getters of a
      [Date] and [new Date(y, m, d, h, min)] are the interface
      [LocalDate]. *)

From Stdlib Require Import ZArith List String Ascii Bool Lia.
From Stdlib Require Import DecimalString DecimalZ.
Import ListNotations.

Open Scope string_scope.
Open Scope Z_scope.

(* ================================================================== *)
(** * Data model ([types.ts]) *)

Inductive TaskScope := ScopeGlobal | ScopeWorkspace.
Inductive PromptSource := SourceInline | SourceLocal | SourceGlobal.

Definition Date := Z.

Definition TaskScope_eqb (a b : TaskScope) : bool :=
  match a, b with
  | ScopeGlobal, ScopeGlobal | ScopeWorkspace, ScopeWorkspace => true
  | _, _ => false
  end.

Record ScheduledTask := mkTask {
  id : string;
  name : string;
  cronExpression : string;
  prompt : string;
  enabled : bool;
  agent : option string;
  model : option string;
  scope : TaskScope;
  workspacePath : option string;
  promptSource : PromptSource;
  promptPath : option string;
  lastRun : option Date;
  nextRun : option Date;
  createdAt : Date;
  updatedAt : Date
}.

(** [CreateTaskInput]; an optional field that is absent is [None]. *)
Record CreateTaskInput := mkInput {
  in_name : string;
  in_cronExpression : string;
  in_prompt : string;
  in_enabled : option bool;
  in_agent : option string;
  in_model : option string;
  in_scope : option TaskScope;
  in_runFirstInOneMinute : option bool;
  in_promptSource : option PromptSource;
  in_promptPath : option string
}.

(** [Partial<CreateTaskInput>]: every field may be [undefined]. *)
Record PartialInput := mkPartial {
  up_name : option string;
  up_cronExpression : option string;
  up_prompt : option string;
  up_enabled : option bool;
  up_agent : option string;
  up_model : option string;
  up_scope : option TaskScope;
  up_runFirstInOneMinute : option bool;
  up_promptSource : option PromptSource;
  up_promptPath : option string
}.

(** A record of the durable store: the JSON shape of a task.  Dates are
    strings; a field that is missing (or [null], or empty) is [None]. *)
Record RawTask := mkRaw {
  raw_id : string;
  raw_name : string;
  raw_cronExpression : string;
  raw_prompt : string;
  raw_enabled : bool;
  raw_agent : option string;
  raw_model : option string;
  raw_scope : option TaskScope;
  raw_workspacePath : option string;
  raw_promptSource : option PromptSource;
  raw_promptPath : option string;
  raw_lastRun : option string;
  raw_nextRun : option string;
  raw_createdAt : string;
  raw_updatedAt : string
}.

(** Field assignments [task.f = v]. *)
Definition set_enabled (v : bool) (t : ScheduledTask) : ScheduledTask :=
  mkTask (id t) (name t) (cronExpression t) (prompt t) v (agent t) (model t)
    (scope t) (workspacePath t) (promptSource t) (promptPath t) (lastRun t)
    (nextRun t) (createdAt t) (updatedAt t).
Definition set_name (v : string) (t : ScheduledTask) : ScheduledTask :=
  mkTask (id t) v (cronExpression t) (prompt t) (enabled t) (agent t) (model t)
    (scope t) (workspacePath t) (promptSource t) (promptPath t) (lastRun t)
    (nextRun t) (createdAt t) (updatedAt t).
Definition set_cronExpression (v : string) (t : ScheduledTask) : ScheduledTask :=
  mkTask (id t) (name t) v (prompt t) (enabled t) (agent t) (model t)
    (scope t) (workspacePath t) (promptSource t) (promptPath t) (lastRun t)
    (nextRun t) (createdAt t) (updatedAt t).
Definition set_prompt (v : string) (t : ScheduledTask) : ScheduledTask :=
  mkTask (id t) (name t) (cronExpression t) v (enabled t) (agent t) (model t)
    (scope t) (workspacePath t) (promptSource t) (promptPath t) (lastRun t)
    (nextRun t) (createdAt t) (updatedAt t).
Definition set_agent (v : option string) (t : ScheduledTask) : ScheduledTask :=
  mkTask (id t) (name t) (cronExpression t) (prompt t) (enabled t) v (model t)
    (scope t) (workspacePath t) (promptSource t) (promptPath t) (lastRun t)
    (nextRun t) (createdAt t) (updatedAt t).
Definition set_model (v : option string) (t : ScheduledTask) : ScheduledTask :=
  mkTask (id t) (name t) (cronExpression t) (prompt t) (enabled t) (agent t) v
    (scope t) (workspacePath t) (promptSource t) (promptPath t) (lastRun t)
    (nextRun t) (createdAt t) (updatedAt t).
Definition set_scope (v : TaskScope) (t : ScheduledTask) : ScheduledTask :=
  mkTask (id t) (name t) (cronExpression t) (prompt t) (enabled t) (agent t)
    (model t) v (workspacePath t) (promptSource t) (promptPath t) (lastRun t)
    (nextRun t) (createdAt t) (updatedAt t).
Definition set_workspacePath (v : option string) (t : ScheduledTask)
  : ScheduledTask :=
  mkTask (id t) (name t) (cronExpression t) (prompt t) (enabled t) (agent t)
    (model t) (scope t) v (promptSource t) (promptPath t) (lastRun t)
    (nextRun t) (createdAt t) (updatedAt t).
Definition set_promptSource (v : PromptSource) (t : ScheduledTask)
  : ScheduledTask :=
  mkTask (id t) (name t) (cronExpression t) (prompt t) (enabled t) (agent t)
    (model t) (scope t) (workspacePath t) v (promptPath t) (lastRun t)
    (nextRun t) (createdAt t) (updatedAt t).
Definition set_promptPath (v : option string) (t : ScheduledTask)
  : ScheduledTask :=
  mkTask (id t) (name t) (cronExpression t) (prompt t) (enabled t) (agent t)
    (model t) (scope t) (workspacePath t) (promptSource t) v (lastRun t)
    (nextRun t) (createdAt t) (updatedAt t).
Definition set_lastRun (v : option Date) (t : ScheduledTask) : ScheduledTask :=
  mkTask (id t) (name t) (cronExpression t) (prompt t) (enabled t) (agent t)
    (model t) (scope t) (workspacePath t) (promptSource t) (promptPath t) v
    (nextRun t) (createdAt t) (updatedAt t).
Definition set_nextRun (v : option Date) (t : ScheduledTask) : ScheduledTask :=
  mkTask (id t) (name t) (cronExpression t) (prompt t) (enabled t) (agent t)
    (model t) (scope t) (workspacePath t) (promptSource t) (promptPath t)
    (lastRun t) v (createdAt t) (updatedAt t).
Definition set_updatedAt (v : Date) (t : ScheduledTask) : ScheduledTask :=
  mkTask (id t) (name t) (cronExpression t) (prompt t) (enabled t) (agent t)
    (model t) (scope t) (workspacePath t) (promptSource t) (promptPath t)
    (lastRun t) (nextRun t) (createdAt t) v.

(* ================================================================== *)
(** * The task map ([Map<string, ScheduledTask>])

    A JavaScript [Map] keeps insertion order; [set] on a key that is present
    replaces the value where it stands. *)

Module TaskMap.

Definition t (V : Type) := list (string * V).

Fixpoint get {V} (k : string) (m : t V) : option V :=
  match m with
  | [] => None
  | (k', v) :: r => if String.eqb k k' then Some v else get k r
  end.

Fixpoint set {V} (k : string) (v : V) (m : t V) : t V :=
  match m with
  | [] => [(k, v)]
  | (k', v') :: r =>
      if String.eqb k k' then (k, v) :: r else (k', v') :: set k v r
  end.

Fixpoint delete {V} (k : string) (m : t V) : t V :=
  match m with
  | [] => []
  | (k', v') :: r =>
      if String.eqb k k' then r else (k', v') :: delete k r
  end.

Definition has {V} (k : string) (m : t V) : bool :=
  match get k m with Some _ => true | None => false end.

Definition keys {V} (m : t V) : list string := map fst m.
Definition values {V} (m : t V) : list V := map snd m.

End TaskMap.

(* ================================================================== *)
(** * External libraries *)

(** [cron-parser]: [parseExpression(expression, {currentDate, tz})] returns an
    interval object or throws ([None]); [interval.next().toDate()] returns a
    date or throws ([None]). *)
Class CronParser := {
  CronInterval : Type;
  parseExpression : string -> Date -> option string -> option CronInterval;
  interval_next : CronInterval -> option Date
}.

(** The JSON form of a [Date] ([toJSON]) and [new Date(string)]. *)
Class DateCodec := {
  dateToJSON : Date -> string;
  dateParse : string -> Date
}.

(** The [Date] of the host in its local time zone: the getters of the
    calendar fields, and [new Date(year, month, date, hours, minutes)], which
    reads its arguments as local time. *)
Class LocalDate := {
  getFullYear : Date -> Z;
  getMonth : Date -> Z;
  getDate : Date -> Z;
  getHours : Date -> Z;
  getMinutes : Date -> Z;
  dateOfFields : Z -> Z -> Z -> Z -> Z -> Date
}.

Definition codec_roundtrip `{DateCodec} : Prop :=
  forall d, dateParse (dateToJSON d) = d /\ dateToJSON d <> "".

(* ================================================================== *)
(** * The world a method runs in *)

(** A thrown JavaScript error, with its message. *)
Inductive JsError := MkError (message : string).

(** The outcome of the Executor callback [(task) => Promise<void>]: the
    promise resolves or rejects. *)
Inductive ExecOutcome := Resolved | Rejected (e : JsError).

Definition Executor := ScheduledTask -> ExecOutcome.

(** The [promptPilot] configuration section, with the defaults of
    [config.get] already applied. *)
Record Config := mkConfig {
  cfg_enabled : bool;
  cfg_timezone : string;
  cfg_defaultScope : TaskScope
}.

(** A timer of the event loop and the closure it runs: the one-shot
    alignment delay of [startScheduler], or the recurring poll. *)
Inductive Timer := AlignmentTimeout (ms : Z) | PollInterval (ms : Z).

Record World := mkWorld {
  (* fields of the ScheduleManager object *)
  tasks : TaskMap.t ScheduledTask;
  schedulerInterval : option nat;
  onTasksChangedCallback : bool;       (* a callback is registered *)
  onExecuteCallback : option Executor;
  (* the host *)
  config : Config;
  workspaceFolder : option string;     (* workspaceFolders?.[0]?.uri.fsPath *)
  clock : nat -> Date;                 (* successive readings of the clock *)
  clockReads : nat;
  random : nat -> string;              (* successive random suffixes *)
  randomReads : nat;
  globalState : list RawTask;          (* value stored under STORAGE_KEY *)
  stateUpdates : nat;                  (* calls of globalState.update *)
  notifications : nat;                 (* calls of the tasks-changed callback *)
  console : list string;               (* console.error lines, latest first *)
  timers : list (nat * Timer);         (* live timers by handle *)
  nextHandle : nat;
  executions : list ScheduledTask      (* tasks handed to the Executor, latest first *)
}.

(** Assignments to one part of the world.  [with_globalState] is
    [globalState.update(STORAGE_KEY, v)] and counts the call;
    [with_notification] is a call of the tasks-changed callback; [with_timers]
    sets the live timers and the next free handle. *)
Definition with_tasks (v : TaskMap.t ScheduledTask) (w : World) : World :=
  mkWorld v (schedulerInterval w) (onTasksChangedCallback w)
    (onExecuteCallback w) (config w) (workspaceFolder w) (clock w)
    (clockReads w) (random w) (randomReads w) (globalState w) (stateUpdates w)
    (notifications w) (console w) (timers w) (nextHandle w) (executions w).
Definition with_schedulerInterval (v : option nat) (w : World) : World :=
  mkWorld (tasks w) v (onTasksChangedCallback w)
    (onExecuteCallback w) (config w) (workspaceFolder w) (clock w)
    (clockReads w) (random w) (randomReads w) (globalState w) (stateUpdates w)
    (notifications w) (console w) (timers w) (nextHandle w) (executions w).
Definition with_onTasksChangedCallback (v : bool) (w : World) : World :=
  mkWorld (tasks w) (schedulerInterval w) v
    (onExecuteCallback w) (config w) (workspaceFolder w) (clock w)
    (clockReads w) (random w) (randomReads w) (globalState w) (stateUpdates w)
    (notifications w) (console w) (timers w) (nextHandle w) (executions w).
Definition with_onExecuteCallback (v : option Executor) (w : World) : World :=
  mkWorld (tasks w) (schedulerInterval w) (onTasksChangedCallback w)
    v (config w) (workspaceFolder w) (clock w)
    (clockReads w) (random w) (randomReads w) (globalState w) (stateUpdates w)
    (notifications w) (console w) (timers w) (nextHandle w) (executions w).
Definition with_host (c : Config) (folder : option string) (w : World) : World :=
  mkWorld (tasks w) (schedulerInterval w) (onTasksChangedCallback w)
    (onExecuteCallback w) c folder (clock w)
    (clockReads w) (random w) (randomReads w) (globalState w) (stateUpdates w)
    (notifications w) (console w) (timers w) (nextHandle w) (executions w).
Definition with_clockReads (v : nat) (w : World) : World :=
  mkWorld (tasks w) (schedulerInterval w) (onTasksChangedCallback w)
    (onExecuteCallback w) (config w) (workspaceFolder w) (clock w)
    v (random w) (randomReads w) (globalState w) (stateUpdates w)
    (notifications w) (console w) (timers w) (nextHandle w) (executions w).
Definition with_randomReads (v : nat) (w : World) : World :=
  mkWorld (tasks w) (schedulerInterval w) (onTasksChangedCallback w)
    (onExecuteCallback w) (config w) (workspaceFolder w) (clock w)
    (clockReads w) (random w) v (globalState w) (stateUpdates w)
    (notifications w) (console w) (timers w) (nextHandle w) (executions w).
Definition with_globalState (v : list RawTask) (w : World) : World :=
  mkWorld (tasks w) (schedulerInterval w) (onTasksChangedCallback w)
    (onExecuteCallback w) (config w) (workspaceFolder w) (clock w)
    (clockReads w) (random w) (randomReads w) v (S (stateUpdates w))
    (notifications w) (console w) (timers w) (nextHandle w) (executions w).
Definition with_notification (w : World) : World :=
  mkWorld (tasks w) (schedulerInterval w) (onTasksChangedCallback w)
    (onExecuteCallback w) (config w) (workspaceFolder w) (clock w)
    (clockReads w) (random w) (randomReads w) (globalState w) (stateUpdates w)
    (S (notifications w)) (console w) (timers w) (nextHandle w) (executions w).
Definition with_console (v : list string) (w : World) : World :=
  mkWorld (tasks w) (schedulerInterval w) (onTasksChangedCallback w)
    (onExecuteCallback w) (config w) (workspaceFolder w) (clock w)
    (clockReads w) (random w) (randomReads w) (globalState w) (stateUpdates w)
    (notifications w) v (timers w) (nextHandle w) (executions w).
Definition with_timers (v : list (nat * Timer)) (n : nat) (w : World) : World :=
  mkWorld (tasks w) (schedulerInterval w) (onTasksChangedCallback w)
    (onExecuteCallback w) (config w) (workspaceFolder w) (clock w)
    (clockReads w) (random w) (randomReads w) (globalState w) (stateUpdates w)
    (notifications w) (console w) v n (executions w).
Definition with_executions (v : list ScheduledTask) (w : World) : World :=
  mkWorld (tasks w) (schedulerInterval w) (onTasksChangedCallback w)
    (onExecuteCallback w) (config w) (workspaceFolder w) (clock w)
    (clockReads w) (random w) (randomReads w) (globalState w) (stateUpdates w)
    (notifications w) (console w) (timers w) (nextHandle w) v.

(* ================================================================== *)
(** * Computations: state and exceptions *)

Inductive Result (A : Type) := Ok (a : A) | Throw (e : JsError).
Arguments Ok {A} a.
Arguments Throw {A} e.

Definition M (A : Type) := World -> Result A * World.

Definition ret {A} (a : A) : M A := fun w => (Ok a, w).

Definition bind {A B} (c : M A) (k : A -> M B) : M B :=
  fun w =>
    match c w with
    | (Ok a, w') => k a w'
    | (Throw e, w') => (Throw e, w')
    end.

Definition throw {A} (e : JsError) : M A := fun w => (Throw e, w).

(** [try { body } catch (e) { handler e }] *)
Definition tryCatch {A} (body : M A) (handler : JsError -> M A) : M A :=
  fun w =>
    match body w with
    | (Ok a, w') => (Ok a, w')
    | (Throw e, w') => handler e w'
    end.

Definition gets {A} (f : World -> A) : M A := fun w => (Ok (f w), w).
Definition modify (f : World -> World) : M unit := fun w => (Ok tt, f w).

Notation "x <- c ;; k" := (bind c (fun x => k))
  (at level 61, c at next level, right associativity).
Notation "c ;;; k" := (bind c (fun _ => k))
  (at level 61, right associativity).

(** [for (const x of xs) body] *)
Fixpoint forEach {A} (xs : list A) (body : A -> M unit) : M unit :=
  match xs with
  | [] => ret tt
  | x :: r => body x ;;; forEach r body
  end.

(** A call into an external library that may throw. *)
Definition external {A} (r : option A) : M A :=
  match r with
  | Some a => ret a
  | None => throw (MkError "library error")
  end.

(* ================================================================== *)
(** * Host primitives *)

(** [new Date()] and [Date.now()] *)
Definition newDate : M Date :=
  fun w => (Ok (clock w (clockReads w)), with_clockReads (S (clockReads w)) w).

(** [Math.random().toString(36).substring(2, 8)] *)
Definition randomSuffix : M string :=
  fun w => (Ok (random w (randomReads w)), with_randomReads (S (randomReads w)) w).

Definition consoleError (line : string) : M unit :=
  modify (fun w => with_console (line :: console w) w).

Definition setTimeout (ms : Z) : M nat :=
  fun w => (Ok (nextHandle w),
            with_timers ((nextHandle w, AlignmentTimeout ms) :: timers w)
                        (S (nextHandle w)) w).

Definition setInterval (ms : Z) : M nat :=
  fun w => (Ok (nextHandle w),
            with_timers ((nextHandle w, PollInterval ms) :: timers w)
                        (S (nextHandle w)) w).

Definition removeTimer (h : nat) (l : list (nat * Timer)) : list (nat * Timer) :=
  filter (fun e => negb (Nat.eqb (fst e) h)) l.

Definition clearInterval (h : nat) : M unit :=
  modify (fun w => with_timers (removeTimer h (timers w)) (nextHandle w) w).

Definition findTimer (h : nat) (l : list (nat * Timer)) : option Timer :=
  match find (fun e => Nat.eqb (fst e) h) l with
  | Some e => Some (snd e)
  | None => None
  end.

(** [getSeconds] and [getMilliseconds]: time zone offsets are whole
    minutes, so these are the seconds and milliseconds of the epoch value. *)
Definition getSeconds (t : Date) : Z := (t / 1000) mod 60.
Definition getMilliseconds (t : Date) : Z := t mod 1000.

(** A date cut to the minute as [checkAndExecuteTasks] does it:
    [new Date(t.getFullYear(), t.getMonth(), t.getDate(), t.getHours(),
    t.getMinutes())], the date rebuilt from the local calendar fields of
    [t]. *)
Definition truncMinute `{LocalDate} (t : Date) : Date :=
  dateOfFields (getFullYear t) (getMonth t) (getDate t) (getHours t)
    (getMinutes t).

(** JavaScript white space within ASCII, and [String.prototype.trim]. *)
Definition isWhiteSpace (c : ascii) : bool :=
  let n := nat_of_ascii c in
  (Nat.eqb n 32 || Nat.eqb n 9 || Nat.eqb n 10 || Nat.eqb n 11
   || Nat.eqb n 12 || Nat.eqb n 13)%bool.

Fixpoint trimStart (s : string) : string :=
  match s with
  | String c r => if isWhiteSpace c then trimStart r else s
  | EmptyString => EmptyString
  end.

Fixpoint trimEnd (s : string) : string :=
  match s with
  | String c r =>
      match trimEnd r with
      | EmptyString => if isWhiteSpace c then EmptyString else String c EmptyString
      | r' => String c r'
      end
  | EmptyString => EmptyString
  end.

Definition trim (s : string) : string := trimEnd (trimStart s).

(** Truthiness of a string: [!s] holds for the empty string. *)
Definition truthy (s : string) : bool := negb (String.eqb s "").

Definition string_of_Z (z : Z) : string := NilEmpty.string_of_int (Z.to_int z).

Definition optionString_eqb (a b : option string) : bool :=
  match a, b with
  | Some x, Some y => String.eqb x y
  | None, None => true
  | _, _ => false
  end.

Definition isTrue (b : option bool) : bool :=
  match b with Some true => true | _ => false end.

(* ================================================================== *)
(** * The schedule manager ([scheduleManager.ts])

    A task object is mutated in place in the source.  A task lives in the
    map under one key and nothing reads the map between the assignments of a
    method and its [saveTasks], so a method assigns to its local [task] and
    writes it back at its key ([storeAt]) before the map is read again. *)

Section ScheduleManager.

Context {cron : CronParser} {codec : DateCodec} {localDate : LocalDate}.

Definition invalidCronExpression : JsError :=
  MkError "Invalid cron expression".

Definition setOnTasksChangedCallback : M unit :=
  modify (with_onTasksChangedCallback true).

Definition notifyTasksChanged : M unit :=
  registered <- gets onTasksChangedCallback ;;
  if registered then modify with_notification else ret tt.

Definition storeAt (key : string) (task : ScheduledTask) : M unit :=
  modify (fun w => with_tasks (TaskMap.set key task (tasks w)) w).

(** [JSON.stringify] of a task, as [globalState.update] stores it. *)
Definition toJSON (t : ScheduledTask) : RawTask :=
  mkRaw (id t) (name t) (cronExpression t) (prompt t) (enabled t) (agent t)
    (model t) (Some (scope t)) (workspacePath t) (Some (promptSource t))
    (promptPath t) (option_map dateToJSON (lastRun t))
    (option_map dateToJSON (nextRun t)) (dateToJSON (createdAt t))
    (dateToJSON (updatedAt t)).

Definition saveTasks : M unit :=
  tasksArray <- gets (fun w => TaskMap.values (tasks w)) ;;
  modify (with_globalState (map toJSON tasksArray)) ;;;
  notifyTasksChanged.

Definition generateId : M string :=
  timestamp <- newDate ;;
  rnd <- randomSuffix ;;
  ret ("task_" ++ string_of_Z timestamp ++ "_" ++ rnd).

Definition getTimeZone : M (option string) :=
  tz <- gets (fun w => cfg_timezone (config w)) ;;
  ret (if truthy tz then Some tz else None).

Definition getNextRun (cronExpression : string) (baseTime : option Date)
  : M (option Date) :=
  tryCatch
    (currentDate <- match baseTime with
                    | Some d => ret d
                    | None => newDate
                    end ;;
     tz <- getTimeZone ;;
     interval <- external (parseExpression cronExpression currentDate tz) ;;
     d <- external (interval_next interval) ;;
     ret (Some d))
    (fun _ => ret None).

Definition validateCronExpression (expression : string) : M bool :=
  if (negb (truthy expression) || negb (truthy (trim expression)))%bool
  then throw invalidCronExpression
  else
    tryCatch
      (currentDate <- newDate ;;
       tz <- getTimeZone ;;
       _ <- external (parseExpression expression currentDate tz) ;;
       ret true)
      (fun _ => throw invalidCronExpression).

Definition createTask (input : CreateTaskInput) : M ScheduledTask :=
  _ <- validateCronExpression (in_cronExpression input) ;;
  now <- newDate ;;
  tid <- generateId ;;
  nextRun <- (if isTrue (in_runFirstInOneMinute input)
              then ret (Some (now + 60 * 1000))
              else getNextRun (in_cronExpression input) (Some now)) ;;
  defaultScope <- gets (fun w => cfg_defaultScope (config w)) ;;
  folder <- gets workspaceFolder ;;
  let task :=
    mkTask tid (in_name input) (in_cronExpression input) (in_prompt input)
      (match in_enabled input with Some false => false | _ => true end)
      (in_agent input) (in_model input)
      (match in_scope input with Some s => s | None => defaultScope end)
      (match in_scope input with
       | Some ScopeWorkspace => folder
       | _ => None
       end)
      (match in_promptSource input with Some s => s | None => SourceInline end)
      (in_promptPath input)
      None nextRun now now in
  storeAt tid task ;;;
  saveTasks ;;;
  ret task.

Definition getTask (tid : string) : M (option ScheduledTask) :=
  gets (fun w => TaskMap.get tid (tasks w)).

Definition getAllTasks : M (list ScheduledTask) :=
  gets (fun w => TaskMap.values (tasks w)).

Definition getTasksByScope (s : TaskScope) : M (list ScheduledTask) :=
  all <- getAllTasks ;;
  ret (filter (fun task => TaskScope_eqb (scope task) s) all).

Definition updateTask (tid : string) (updates : PartialInput)
  : M (option ScheduledTask) :=
  found <- getTask tid ;;
  match found with
  | None => ret None
  | Some task =>
      (* if (updates.cronExpression) validate *)
      (match up_cronExpression updates with
       | Some c =>
           if truthy c then _ <- validateCronExpression c ;; ret tt
           else ret tt
       | None => ret tt
       end) ;;;
      now <- newDate ;;
      let task := match up_name updates with
                  | Some v => set_name v task | None => task end in
      task <- match up_cronExpression updates with
              | Some v =>
                  let task := set_cronExpression v task in
                  nr <- getNextRun v (Some now) ;;
                  ret (set_nextRun nr task)
              | None => ret task
              end ;;
      let task := match up_prompt updates with
                  | Some v => set_prompt v task | None => task end in
      let task := match up_enabled updates with
                  | Some v => set_enabled v task | None => task end in
      let task := match up_agent updates with
                  | Some v => set_agent (Some v) task | None => task end in
      let task := match up_model updates with
                  | Some v => set_model (Some v) task | None => task end in
      task <- match up_scope updates with
              | Some v =>
                  let task := set_scope v task in
                  if TaskScope_eqb v ScopeWorkspace
                  then folder <- gets workspaceFolder ;;
                       ret (set_workspacePath folder task)
                  else ret (set_workspacePath None task)
              | None => ret task
              end ;;
      let task := match up_promptSource updates with
                  | Some v => set_promptSource v task | None => task end in
      let task := match up_promptPath updates with
                  | Some v => set_promptPath (Some v) task | None => task end in
      let task := set_updatedAt now task in
      storeAt tid task ;;;
      saveTasks ;;;
      ret (Some task)
  end.

Definition deleteTask (tid : string) : M bool :=
  deleted <- gets (fun w => TaskMap.has tid (tasks w)) ;;
  modify (fun w => with_tasks (TaskMap.delete tid (tasks w)) w) ;;;
  (if deleted then saveTasks else ret tt) ;;;
  ret deleted.

Definition toggleTask (tid : string) : M (option ScheduledTask) :=
  found <- getTask tid ;;
  match found with
  | None => ret None
  | Some task =>
      let task := set_enabled (negb (enabled task)) task in
      d <- newDate ;;
      let task := set_updatedAt d task in
      task <- (if enabled task
               then nr <- getNextRun (cronExpression task) None ;;
                    ret (set_nextRun nr task)
               else ret task) ;;
      storeAt tid task ;;;
      saveTasks ;;;
      ret (Some task)
  end.

Definition duplicateInput (original : ScheduledTask) : CreateTaskInput :=
  mkInput (name original ++ " (Copy)") (cronExpression original)
    (prompt original) (Some false) (agent original) (model original)
    (Some (scope original)) None (Some (promptSource original))
    (promptPath original).

Definition duplicateTask (tid : string) : M (option ScheduledTask) :=
  found <- getTask tid ;;
  match found with
  | None => ret None
  | Some original =>
      task <- createTask (duplicateInput original) ;;
      ret (Some task)
  end.

Definition shouldTaskRunInCurrentWorkspace (task : ScheduledTask) : M bool :=
  if TaskScope_eqb (scope task) ScopeGlobal then ret true
  else
    currentWorkspace <- gets workspaceFolder ;;
    match currentWorkspace with
    | None => ret false
    | Some cw =>
        if negb (truthy cw) then ret false
        else ret (optionString_eqb (workspacePath task) (Some cw))
    end.

(** [await this.onExecuteCallback(task)] *)
Definition callExecutor (f : Executor) (task : ScheduledTask) : M unit :=
  modify (fun w => with_executions (task :: executions w) w) ;;;
  match f task with
  | Resolved => ret tt
  | Rejected e => throw e
  end.

Definition errorText (e : JsError) : string :=
  match e with MkError m => "Error: " ++ m end.

(** The body of the loop of [checkAndExecuteTasks] for one entry. *)
Definition checkTask (now nowMinute : Date) (entry : string * ScheduledTask)
  : M unit :=
  let (key, task) := entry in
  match enabled task, nextRun task with
  | true, Some nextRun =>
      eligible <- shouldTaskRunInCurrentWorkspace task ;;
      if negb eligible then ret tt
      else
        let nextRunMinute := truncMinute nextRun in
        if nextRunMinute <=? nowMinute then
          callback <- gets onExecuteCallback ;;
          (match callback with
           | Some f =>
               tryCatch (callExecutor f task)
                 (fun error =>
                    consoleError ("Task execution error: " ++ errorText error))
           | None => ret tt
           end) ;;;
          let task := set_lastRun (Some now) task in
          nr <- getNextRun (cronExpression task) (Some now) ;;
          let task := set_nextRun nr task in
          storeAt key task ;;;
          saveTasks
        else ret tt
  | _, _ => ret tt
  end.

Definition checkAndExecuteTasks : M unit :=
  schedulingEnabled <- gets (fun w => cfg_enabled (config w)) ;;
  if negb schedulingEnabled then ret tt
  else
    now <- newDate ;;
    let nowMinute := truncMinute now in
    entries <- gets tasks ;;
    forEach entries (checkTask now nowMinute).

Definition runTaskNow (tid : string) : M bool :=
  found <- getTask tid ;;
  callback <- gets onExecuteCallback ;;
  match found, callback with
  | Some task, Some f =>
      tryCatch
        (callExecutor f task ;;;
         d <- newDate ;;
         let task := set_lastRun (Some d) task in
         storeAt tid task ;;;
         saveTasks ;;;
         ret true)
        (fun _ => ret false)
  | _, _ => ret false
  end.

Definition stopScheduler : M unit :=
  h <- gets schedulerInterval ;;
  match h with
  | Some handle =>
      clearInterval handle ;;;
      modify (with_schedulerInterval None)
  | None => ret tt
  end.

Definition msToNextMinute (now : Date) : Z :=
  (60 - getSeconds now) * 1000 - getMilliseconds now.

Definition startScheduler (onExecute : Executor) : M unit :=
  modify (with_onExecuteCallback (Some onExecute)) ;;;
  stopScheduler ;;;
  now <- newDate ;;
  _ <- setTimeout (msToNextMinute now) ;;
  ret tt.

(** A promise that is not awaited: its rejection does not reach the caller. *)
Definition notAwaited (c : M unit) : M unit := tryCatch c (fun _ => ret tt).

(** The closure given to [setTimeout] in [startScheduler]. *)
Definition alignmentCallback : M unit :=
  notAwaited checkAndExecuteTasks ;;;
  h <- setInterval (60 * 1000) ;;
  modify (with_schedulerInterval (Some h)).

(** The closure given to [setInterval]. *)
Definition pollCallback : M unit := notAwaited checkAndExecuteTasks.

(** The event loop fires the timer with handle [h], if it is still live. *)
Definition fireTimer (h : nat) : M unit :=
  t <- gets (fun w => findTimer h (timers w)) ;;
  match t with
  | Some (AlignmentTimeout _) =>
      modify (fun w => with_timers (removeTimer h (timers w)) (nextHandle w) w) ;;;
      alignmentCallback
  | Some (PollInterval _) => pollCallback
  | None => ret tt
  end.

(** One record of [loadTasks]. *)
Definition loadTask (raw : RawTask) : M unit :=
  let createdAt := dateParse (raw_createdAt raw) in
  let updatedAt := dateParse (raw_updatedAt raw) in
  let restore (field : option string) :=
    match field with
    | Some s => if truthy s then Some (dateParse s) else None
    | None => None
    end in
  let lastRun := restore (raw_lastRun raw) in
  let nextRun := restore (raw_nextRun raw) in
  let scope := match raw_scope raw with Some s => s | None => ScopeGlobal end in
  let promptSource :=
    match raw_promptSource raw with Some s => s | None => SourceInline end in
  let task :=
    mkTask (raw_id raw) (raw_name raw) (raw_cronExpression raw)
      (raw_prompt raw) (raw_enabled raw) (raw_agent raw) (raw_model raw)
      scope (raw_workspacePath raw) promptSource (raw_promptPath raw)
      lastRun nextRun createdAt updatedAt in
  nr <- getNextRun (cronExpression task) None ;;
  let task := set_nextRun nr task in
  storeAt (id task) task.

Definition loadTasks : M unit :=
  savedTasks <- gets globalState ;;
  forEach savedTasks loadTask.

(** [new ScheduleManager(context)] *)
Definition construct : M unit :=
  modify (fun w => with_tasks [] w) ;;;
  modify (with_schedulerInterval None) ;;;
  modify (with_onTasksChangedCallback false) ;;;
  modify (with_onExecuteCallback None) ;;;
  loadTasks.

End ScheduleManager.

(* ================================================================== *)
(** * Vocabulary of the properties *)

Section Vocabulary.

Context {cron : CronParser} {codec : DateCodec} {localDate : LocalDate}.

(** The time zone option the manager passes to the cron library. *)
Definition timeZoneOf (w : World) : option string :=
  if truthy (cfg_timezone (config w)) then Some (cfg_timezone (config w))
  else None.

(** [parseExpression(e, {currentDate: from, tz}).next().toDate()], with
    [None] when the library throws. *)
Definition nextOccurrence (e : string) (from : Date) (tz : option string)
  : option Date :=
  match parseExpression e from tz with
  | Some i => interval_next i
  | None => None
  end.

(** The library parses [e] in the world [w], at its next clock reading. *)
Definition parses (e : string) (w : World) : bool :=
  match parseExpression e (clock w (clockReads w)) (timeZoneOf w) with
  | Some _ => true
  | None => false
  end.

(** The next reading of the clock, and the one [n] readings later. *)
Definition timeAt (w : World) (n : nat) : Date := clock w (n + clockReads w)%nat.

(** The world after [saveTasks]: the whole collection is written to
    [globalState], then the change callback runs if one is registered. *)
Definition persist (w : World) : World :=
  let w1 := with_globalState (map toJSON (TaskMap.values (tasks w))) w in
  if onTasksChangedCallback w then with_notification w1 else w1.

(** The world after one more reading of the clock. *)
Definition clockRead (w : World) : World :=
  with_clockReads (S (clockReads w)) w.

(** A malformed cron string: empty, white space only, or refused by the
    grammar of the library. *)
Definition malformed (s : string) : Prop :=
  truthy s = false \/ truthy (trim s) = false \/
  forall from tz, parseExpression s from tz = None.

(** The store is untouched between [w] and [w']: no task changed, nothing
    was written to [globalState], no change notification ran. *)
Definition storeUntouched (w w' : World) : Prop :=
  tasks w' = tasks w /\ globalState w' = globalState w /\
  stateUpdates w' = stateUpdates w /\ notifications w' = notifications w.

(** The partial input [{ cronExpression: s }]. *)
Definition onlyCron (s : string) : PartialInput :=
  mkPartial None (Some s) None None None None None None None None.

(** The task [createTask] builds in the world [w]: [validate] takes the
    next clock reading, [now] is the one after, the id takes the third. *)
Definition createdTask (input : CreateTaskInput) (w : World) : ScheduledTask :=
  mkTask
    ("task_" ++ string_of_Z (timeAt w 2) ++ "_" ++ random w (randomReads w))
    (in_name input) (in_cronExpression input) (in_prompt input)
    (match in_enabled input with Some false => false | _ => true end)
    (in_agent input) (in_model input)
    (match in_scope input with
     | Some s => s
     | None => cfg_defaultScope (config w)
     end)
    (match in_scope input with
     | Some ScopeWorkspace => workspaceFolder w
     | _ => None
     end)
    (match in_promptSource input with Some s => s | None => SourceInline end)
    (in_promptPath input)
    None
    (if isTrue (in_runFirstInOneMinute input)
     then Some (timeAt w 1 + 60 * 1000)
     else nextOccurrence (in_cronExpression input) (timeAt w 1) (timeZoneOf w))
    (timeAt w 1) (timeAt w 1).

(** [validateCronExpression] accepts [e] in the world [w]. *)
Definition validates (e : string) (w : World) : bool :=
  (truthy e && truthy (trim e) && parses e w)%bool.

(** The assignments of [updateTask] to the task [t], made at [now]. *)
Definition updatedTask (updates : PartialInput) (w : World) (now : Date)
    (t : ScheduledTask) : ScheduledTask :=
  let t := match up_name updates with
           | Some v => set_name v t | None => t end in
  let t := match up_cronExpression updates with
           | Some v =>
               set_nextRun (nextOccurrence v now (timeZoneOf w))
                 (set_cronExpression v t)
           | None => t
           end in
  let t := match up_prompt updates with
           | Some v => set_prompt v t | None => t end in
  let t := match up_enabled updates with
           | Some v => set_enabled v t | None => t end in
  let t := match up_agent updates with
           | Some v => set_agent (Some v) t | None => t end in
  let t := match up_model updates with
           | Some v => set_model (Some v) t | None => t end in
  let t := match up_scope updates with
           | Some v =>
               set_workspacePath
                 (if TaskScope_eqb v ScopeWorkspace then workspaceFolder w
                  else None)
                 (set_scope v t)
           | None => t
           end in
  let t := match up_promptSource updates with
           | Some v => set_promptSource v t | None => t end in
  let t := match up_promptPath updates with
           | Some v => set_promptPath (Some v) t | None => t end in
  set_updatedAt now t.

(** [updateTask] validates the expression of [updates]: it is present and
    not the empty string. *)
Definition checksCron (updates : PartialInput) : bool :=
  match up_cronExpression updates with
  | Some c => truthy c
  | None => false
  end.

Definition cronOf (updates : PartialInput) : string :=
  match up_cronExpression updates with Some c => c | None => "" end.

(** The host as the loop reads it. *)
Definition sameHost (w w' : World) : Prop :=
  config w' = config w /\ workspaceFolder w' = workspaceFolder w /\
  onExecuteCallback w' = onExecuteCallback w /\
  onTasksChangedCallback w' = onTasksChangedCallback w /\
  clock w' = clock w /\ clockReads w' = clockReads w.

(** Two worlds with the same bookkeeping: the same tasks, the same
    persisted collection, the same notifications and the same calls of the
    Executor, in the same host. *)
Definition sameBookkeeping (w1 w2 : World) : Prop :=
  tasks w1 = tasks w2 /\ globalState w1 = globalState w2 /\
  stateUpdates w1 = stateUpdates w2 /\ notifications w1 = notifications w2 /\
  executions w1 = executions w2 /\ config w1 = config w2 /\
  workspaceFolder w1 = workspaceFolder w2 /\
  onTasksChangedCallback w1 = onTasksChangedCallback w2.

(** The persisted collection is the collection in memory. *)
Definition inSync (w : World) : Prop :=
  globalState w = map toJSON (TaskMap.values (tasks w)).

(** The task [loadTasks] makes of a record, with [nextRun] computed at
    the clock reading [now]. *)
Definition loadedTask (raw : RawTask) (now : Date) (tz : option string)
  : ScheduledTask :=
  let restore (field : option string) :=
    match field with
    | Some s => if truthy s then Some (dateParse s) else None
    | None => None
    end in
  mkTask (raw_id raw) (raw_name raw) (raw_cronExpression raw)
    (raw_prompt raw) (raw_enabled raw) (raw_agent raw) (raw_model raw)
    (match raw_scope raw with Some s => s | None => ScopeGlobal end)
    (raw_workspacePath raw)
    (match raw_promptSource raw with Some s => s | None => SourceInline end)
    (raw_promptPath raw)
    (restore (raw_lastRun raw))
    (nextOccurrence (raw_cronExpression raw) now tz)
    (dateParse (raw_createdAt raw)) (dateParse (raw_updatedAt raw)).

(** The map invariant of the manager: a key occurs once and is the [id] of
    the task stored under it. *)
Definition wellKeyed (m : TaskMap.t ScheduledTask) : Prop :=
  NoDup (TaskMap.keys m) /\ Forall (fun e => fst e = id (snd e)) m.

(** The tasks the Executor received between the worlds [w] and [w'], and how
    many of them carry the id [k]. *)
Definition dispatched (w w' : World) : list ScheduledTask :=
  firstn (List.length (executions w') - List.length (executions w))
    (executions w').

Definition dispatchCount (k : string) (w w' : World) : nat :=
  List.length (filter (fun t => String.eqb (id t) k) (dispatched w w')).

(** A due task (glossary): enabled, with a [nextRun], eligible in the
    current workspace, and its [nextRun] at or before [now], both cut to
    the minute. *)
Definition dueAt (w : World) (now : Date) (t : ScheduledTask) : Prop :=
  enabled t = true /\
  fst (shouldTaskRunInCurrentWorkspace t w) = Ok true /\
  exists nr, nextRun t = Some nr /\ truncMinute nr <= truncMinute now.

(** What a firing at [now] writes into the task. *)
Definition fired (tz : option string) (now : Date) (t : ScheduledTask)
  : ScheduledTask :=
  set_nextRun (nextOccurrence (cronExpression t) now tz)
    (set_lastRun (Some now) t).

(** The decisions of the poll step as functions of what they read. *)
Definition eligible (folder : option string) (t : ScheduledTask) : bool :=
  match scope t with
  | ScopeGlobal => true
  | ScopeWorkspace =>
      match folder with
      | Some cw => (truthy cw && optionString_eqb (workspacePath t) (Some cw))%bool
      | None => false
      end
  end.

Definition isDue (folder : option string) (now : Date) (t : ScheduledTask)
  : bool :=
  (enabled t &&
   match nextRun t with
   | Some nr => eligible folder t && (truncMinute nr <=? truncMinute now)
   | None => false
   end)%bool.

(** The world after the guarded call of the Executor on [t]. *)
Definition executed (t : ScheduledTask) (w : World) : World :=
  match onExecuteCallback w with
  | Some f =>
      let w1 := with_executions (t :: executions w) w in
      match f t with
      | Resolved => w1
      | Rejected e =>
          with_console (("Task execution error: " ++ errorText e) :: console w1) w1
      end
  | None => w
  end.

(** The world after the loop body of the poll step on one entry. *)
Definition tickStep (now : Date) (w : World) (entry : string * ScheduledTask)
  : World :=
  if isDue (workspaceFolder w) now (snd entry) then
    let w1 := executed (snd entry) w in
    persist
      (with_tasks
         (TaskMap.set (fst entry) (fired (timeZoneOf w) now (snd entry)) (tasks w1))
         w1)
  else w.

(** The workspace invariant of the data model, in its two directions. *)
Definition pathOnlyInWorkspace (t : ScheduledTask) : Prop :=
  workspacePath t <> None -> scope t = ScopeWorkspace.
Definition workspaceHasPath (t : ScheduledTask) : Prop :=
  scope t = ScopeWorkspace -> workspacePath t <> None.

(** A record written by an older version: [scope] and [promptSource] may be
    missing. *)
Definition legacy (dropScope dropSource : bool) (r : RawTask) : RawTask :=
  mkRaw (raw_id r) (raw_name r) (raw_cronExpression r) (raw_prompt r)
    (raw_enabled r) (raw_agent r) (raw_model r)
    (if dropScope then None else raw_scope r) (raw_workspacePath r)
    (if dropSource then None else raw_promptSource r) (raw_promptPath r)
    (raw_lastRun r) (raw_nextRun r) (raw_createdAt r) (raw_updatedAt r).

(** The task a record of [t] is loaded as, when [nextRun] is computed at
    the clock reading [now]. *)
Definition reloaded (dropScope dropSource : bool) (now : Date)
    (tz : option string) (t : ScheduledTask) : ScheduledTask :=
  mkTask (id t) (name t) (cronExpression t) (prompt t) (enabled t) (agent t)
    (model t) (if dropScope then ScopeGlobal else scope t) (workspacePath t)
    (if dropSource then SourceInline else promptSource t) (promptPath t)
    (lastRun t) (nextOccurrence (cronExpression t) now tz)
    (createdAt t) (updatedAt t).

(** A stored collection with, for each task, what its record lacks. *)
Definition Stored := list (bool * bool * ScheduledTask).

Definition recordsOf (c : Stored) : list RawTask :=
  map (fun e => match e with (ds, dp, t) => legacy ds dp (toJSON t) end) c.

Fixpoint reloadedMap (clk : nat -> Date) (n : nat) (tz : option string)
    (c : Stored) : TaskMap.t ScheduledTask :=
  match c with
  | [] => []
  | (ds, dp, t) :: r =>
      (id t, reloaded ds dp (clk n) tz t) :: reloadedMap clk (S n) tz r
  end.

(** The operations of the store, and what the host may do between two of
    them (settings edited, a folder opened or closed). *)
Inductive Op :=
| OpCreate (input : CreateTaskInput)
| OpUpdate (tid : string) (updates : PartialInput)
| OpToggle (tid : string)
| OpDuplicate (tid : string)
| OpHost (c : Config) (folder : option string).

Definition runOp (op : Op) : M unit :=
  match op with
  | OpCreate input => _ <- createTask input ;; ret tt
  | OpUpdate tid updates => _ <- updateTask tid updates ;; ret tt
  | OpToggle tid => _ <- toggleTask tid ;; ret tt
  | OpDuplicate tid => _ <- duplicateTask tid ;; ret tt
  | OpHost c folder => modify (with_host c folder)
  end.

(** A caller catches what an operation throws and goes on. *)
Fixpoint runOps (ops : list Op) (w : World) : World :=
  match ops with
  | [] => w
  | op :: r => runOps r (snd (runOp op w))
  end.

(** The operation gives the scope explicitly and does not close the folder. *)
Definition anchored (op : Op) : Prop :=
  match op with
  | OpCreate input => in_scope input <> None
  | OpHost _ folder => folder <> None
  | _ => True
  end.

End Vocabulary.

(* ================================================================== *)
(** * A concrete host, to run the methods on *)

(** A cron library that knows the expression ["* * * * *"] only: its next
    occurrence is the next minute boundary. *)
Definition nextMinute (from : Date) : Date := 60000 * (from / 60000 + 1).
Arguments nextMinute : simpl never.

Definition everyMinute : CronParser := {|
  CronInterval := Date;
  parseExpression e from tz :=
    if String.eqb e "* * * * *" then Some from else None;
  interval_next from := Some (nextMinute from)
|}.

(** Dates written as ["@"] and their epoch value in decimal. *)
Definition decimalDates : DateCodec := {|
  dateToJSON d := String "@" (string_of_Z d);
  dateParse s :=
    match s with
    | String _ r =>
        match NilEmpty.int_of_string r with
        | Some i => Z.of_int i
        | None => 0
        end
    | EmptyString => 0
    end
|}.

(** A cron library that knows the six field expression
    ["*/10 * * * * *"] only: its next occurrence is the next multiple of
    ten seconds. *)
Definition nextTenSeconds (from : Date) : Date := 10000 * (from / 10000 + 1).

Definition everyTenSeconds : CronParser := {|
  CronInterval := Date;
  parseExpression e from tz :=
    if String.eqb e "*/10 * * * * *" then Some from else None;
  interval_next from := Some (nextTenSeconds from)
|}.

(** The [Date] of a host whose time zone is UTC.  The calendar fields are
    those of the proleptic Gregorian calendar; [new Date(y, m, d, h, min)]
    reads a year from 0 to 99 as 1900 + y and carries months over. *)
Definition daysFromCivil (y m d : Z) : Z :=
  let y := if m <=? 2 then y - 1 else y in
  let era := y / 400 in
  let yoe := y - era * 400 in
  let doy := (153 * (m + (if 2 <? m then -3 else 9)) + 2) / 5 + d - 1 in
  let doe := yoe * 365 + yoe / 4 - yoe / 100 + doy in
  era * 146097 + doe - 719468.

(** Year, month (1 to 12) and day of the month of a day number. *)
Definition civilFromDays (z : Z) : Z * Z * Z :=
  let z := z + 719468 in
  let era := z / 146097 in
  let doe := z - era * 146097 in
  let yoe := (doe - doe / 1460 + doe / 36524 - doe / 146096) / 365 in
  let y := yoe + era * 400 in
  let doy := doe - (365 * yoe + yoe / 4 - yoe / 100) in
  let mp := (5 * doy + 2) / 153 in
  let d := doy - (153 * mp + 2) / 5 + 1 in
  let m := if mp <? 10 then mp + 3 else mp - 9 in
  (if m <=? 2 then y + 1 else y, m, d).

Definition msPerDay : Z := 86400000.

Definition utcDates : LocalDate := {|
  getFullYear t := fst (fst (civilFromDays (t / msPerDay)));
  getMonth t := snd (fst (civilFromDays (t / msPerDay))) - 1;
  getDate t := snd (civilFromDays (t / msPerDay));
  getHours t := (t / 3600000) mod 24;
  getMinutes t := (t / 60000) mod 60;
  dateOfFields y m d h min :=
    let y := if ((0 <=? y) && (y <=? 99))%bool then 1900 + y else y in
    (daysFromCivil (y + m / 12) (m mod 12 + 1) 1 + d - 1) * msPerDay
    + h * 3600000 + min * 60000
|}.

(** The [Date] of a host that leaves daylight time at the instant
    [7200000]: before it the local clock is one hour ahead of UTC, from it
    on it shows UTC, so the local hour from 02:00 to 03:00 of that day comes
    twice.  [new Date(y, m, d, h, min)] reads a local time that comes twice
    as its first occurrence. *)
Definition fallBack : Date := 7200000.

Definition localOffset (t : Date) : Z := if t <? fallBack then 3600000 else 0.

Definition fallBackDates : LocalDate := {|
  getFullYear t := @getFullYear utcDates (t + localOffset t);
  getMonth t := @getMonth utcDates (t + localOffset t);
  getDate t := @getDate utcDates (t + localOffset t);
  getHours t := @getHours utcDates (t + localOffset t);
  getMinutes t := @getMinutes utcDates (t + localOffset t);
  dateOfFields y m d h min :=
    let local := @dateOfFields utcDates y m d h min in
    if local - 3600000 <? fallBack then local - 3600000 else local
|}.

Definition alwaysResolves : Executor := fun _ => Resolved.
Definition alwaysRejects : Executor := fun _ => Rejected (MkError "no chat").

Definition defaultConfig : Config := mkConfig true "" ScopeWorkspace.

(** An empty manager in a host whose clock reads [now], [now + 1], ... *)
Definition emptyWorld (now : Date) (folder : option string) : World :=
  mkWorld [] None false None defaultConfig folder
    (fun n => now + Z.of_nat n) 0 (fun _ => "abc123") 0 [] 0 0 [] [] 0 [].

Definition sampleTask (tid : string) (on : bool) (s : TaskScope)
    (path : option string) (next : option Date) : ScheduledTask :=
  mkTask tid "daily" "* * * * *" "hello" on None None s path SourceInline None
    None next 0 0.

Definition worldWith (now : Date) (folder : option string)
    (ts : list ScheduledTask) : World :=
  with_tasks (map (fun t => (id t, t)) ts) (emptyWorld now folder).

(** ** Sample worlds *)

(** A global task due in the minute of the clock, with an Executor bound. *)
Definition dueWorld : World :=
  with_onExecuteCallback (Some alwaysResolves)
    (worldWith 300007 None
       [sampleTask "t1" true ScopeGlobal None (Some 300000)]).

(** A task with a six field expression, due in the minute of the clock. *)
Definition tenSecondWorld : World :=
  with_onExecuteCallback (Some alwaysResolves)
    (worldWith 300007 None
       [mkTask "t1" "often" "*/10 * * * * *" "hello" true None None ScopeGlobal
          None SourceInline None None (Some 300000) 0 0]).

(** A task whose [nextRun] is twenty minutes after the clock. *)
Definition repeatedHourWorld : World :=
  with_onExecuteCallback (Some alwaysResolves)
    (worldWith 6600007 None
       [sampleTask "t1" true ScopeGlobal None (Some 7800000)]).

(** The same task when scheduling is switched off in the settings. *)
Definition pausedWorld : World :=
  with_host (mkConfig false "" ScopeWorkspace) None dueWorld.

Definition taskA : ScheduledTask :=
  sampleTask "a" true ScopeGlobal None (Some 300000).

Definition taskB : ScheduledTask :=
  sampleTask "b" true ScopeGlobal None (Some 240000).

(** Two due tasks and an Executor that throws. *)
Definition failingWorld : World :=
  with_onExecuteCallback (Some alwaysRejects)
    (worldWith 300007 None [taskA; taskB]).

Definition repoATask : ScheduledTask :=
  sampleTask "t1" true ScopeWorkspace (Some "/repoA") (Some 300000).

(** The task of [/repoA], otherwise due, in the workspace [/repoB]. *)
Definition repoBWorld : World :=
  with_onExecuteCallback (Some alwaysResolves)
    (worldWith 300007 (Some "/repoB") [repoATask]).

(** A workspace whose path is the empty string, and a task bound to it. *)
Definition emptyPathTask : ScheduledTask :=
  sampleTask "t1" true ScopeWorkspace (Some "") (Some 300000).

Definition emptyPathWorld : World :=
  worldWith 300007 (Some "") [emptyPathTask].

(** A disabled task of another workspace, without [nextRun]. *)
Definition idleTask : ScheduledTask :=
  sampleTask "t1" false ScopeWorkspace (Some "/repoA") None.

Definition idleWorld (f : Executor) : World :=
  with_onExecuteCallback (Some f) (worldWith 300007 (Some "/repoB") [idleTask]).

(** A disabled task that was never armed. *)
Definition restingTask : ScheduledTask :=
  sampleTask "t1" false ScopeGlobal None None.

Definition restingWorld : World := worldWith 300007 None [restingTask].

Definition workspaceInput : CreateTaskInput :=
  mkInput "daily" "* * * * *" "hello" None None None (Some ScopeWorkspace)
    None None None.

Definition sampleOps : list Op :=
  [ OpCreate workspaceInput;
    OpDuplicate "task_300009_abc123";
    OpUpdate "task_300009_abc123"
      (mkPartial (Some "weekly") None None None None None None None None None);
    OpToggle "task_300009_abc123" ].

(** A stored task whose id is the one [generateId] makes next. *)
Definition collisionWorld : World :=
  worldWith 300007 None
    [sampleTask "task_300009_abc123" true ScopeGlobal None None].

(** Two stored tasks; the record of the first comes from an older version
    and carries a stale [nextRun]. *)
Definition storedTasks : Stored :=
  [ (true, true, sampleTask "t1" true ScopeGlobal None (Some 60000));
    (false, false, sampleTask "t2" false ScopeWorkspace (Some "/repoA") None) ].

Definition restartWorld : World :=
  with_globalState (@recordsOf decimalDates storedTasks) (emptyWorld 300007 None).

(* ================================================================== *)
(** * Sequences of calls on a manager *)

(** Everything that can happen to a manager after its construction: an
    operation of the store or a change of the host ([Op]), a deletion, a
    poll step, a manual run, a subscription to the changes, a start or a
    stop of the scheduler, and the firing of a timer by the event loop. *)
Inductive Action :=
| ActStore (op : Op)
| ActDelete (tid : string)
| ActPoll
| ActRunNow (tid : string)
| ActSubscribe
| ActStart (onExecute : Executor)
| ActStop
| ActTimer (h : nat).

Section Actions.

Context {cron : CronParser} {codec : DateCodec} {localDate : LocalDate}.

Definition runAction (a : Action) : M unit :=
  match a with
  | ActStore op => runOp op
  | ActDelete tid => _ <- deleteTask tid ;; ret tt
  | ActPoll => checkAndExecuteTasks
  | ActRunNow tid => _ <- runTaskNow tid ;; ret tt
  | ActSubscribe => setOnTasksChangedCallback
  | ActStart onExecute => startScheduler onExecute
  | ActStop => stopScheduler
  | ActTimer h => fireTimer h
  end.

(** A caller catches what a call throws and goes on. *)
Fixpoint runActions (acts : list Action) (w : World) : World :=
  match acts with
  | [] => w
  | a :: r => runActions r (snd (runAction a w))
  end.

(** The tasks of the map that are due at [now], in map order. *)
Definition dueTasks (w : World) (now : Date) : list ScheduledTask :=
  filter (isDue (workspaceFolder w) now) (TaskMap.values (tasks w)).

(** The fields of a task that only its creation sets. *)
Definition sameIdentity (t t' : ScheduledTask) : Prop :=
  id t' = id t /\ createdAt t' = createdAt t.

(** The fields of a task that a poll step never writes. *)
Definition sameDefinition (t t' : ScheduledTask) : Prop :=
  id t' = id t /\ name t' = name t /\ cronExpression t' = cronExpression t /\
  prompt t' = prompt t /\ enabled t' = enabled t /\ agent t' = agent t /\
  model t' = model t /\ scope t' = scope t /\
  workspacePath t' = workspacePath t /\ promptSource t' = promptSource t /\
  promptPath t' = promptPath t /\ createdAt t' = createdAt t /\
  updatedAt t' = updatedAt t.

End Actions.

(** An input that asks for a first run in one minute, whatever its
    expression says. *)
Definition soonInput : CreateTaskInput :=
  mkInput "soon" "* * * * *" "hello" None None None (Some ScopeGlobal)
    (Some true) None None.

(** The partial input [{ enabled: true }]. *)
Definition onlyEnabled (b : bool) : PartialInput :=
  mkPartial None None None (Some b) None None None None None None.

(* ================================================================== *)
(** * The Executor of the extension ([extension.ts])

    [activate] starts the scheduler with the callback
    [async (task) => { await executeTask(task); }].  [executeTask] shows
    messages, resolves the prompt text and hands it to the Copilot executor.
    The messages shown are the state these functions run in; the
    configuration, the environment, the file system and the Copilot
    executor are the [ExtensionHost]; [path] of Node is the interface
    [NodePath]. *)

Record ExtensionHost := mkExtensionHost {
  isJapanese : bool;
  showNotifications : bool;          (* config.get("showNotifications", true) *)
  globalPromptsPath : string;        (* config.get("globalPromptsPath", "") *)
  envHOME : option string;
  envUSERPROFILE : option string;
  envAPPDATA : option string;
  existsSync : string -> bool;
  readFileSync : string -> option string;   (* [None]: throws *)
  workspaceRoot : option string;     (* workspaceFolders?.[0]?.uri.fsPath *)
  (* copilotExecutor.executePrompt(promptText, { agent, model }) *)
  executePrompt : string -> option string -> option string -> ExecOutcome
}.

Class NodePath := {
  path_join : list string -> string;
  path_resolve : string -> string -> string;
  path_normalize : string -> string;
  path_sep : string
}.

(** The messages shown to the user, latest first. *)
Record Ui := mkUi {
  infoMessages : list string;
  errorMessages : list string
}.

Definition U (A : Type) := Ui -> Result A * Ui.

Definition uret {A} (a : A) : U A := fun ui => (Ok a, ui).

Definition ubind {A B} (c : U A) (k : A -> U B) : U B :=
  fun ui =>
    match c ui with
    | (Ok a, ui') => k a ui'
    | (Throw e, ui') => (Throw e, ui')
    end.

Definition utryCatch {A} (body : U A) (handler : JsError -> U A) : U A :=
  fun ui =>
    match body ui with
    | (Ok a, ui') => (Ok a, ui')
    | (Throw e, ui') => handler e ui'
    end.

Definition showInformationMessage (m : string) : U unit :=
  fun ui => (Ok tt, mkUi (m :: infoMessages ui) (errorMessages ui)).

Definition showErrorMessage (m : string) : U unit :=
  fun ui => (Ok tt, mkUi (infoMessages ui) (m :: errorMessages ui)).

Definition uwhen (b : bool) (c : U unit) : U unit := if b then c else uret tt.

(** The double quote and the corner brackets of the messages. *)
Definition dquote : string := String (ascii_of_nat 34) EmptyString.

(** [a || b] on values that are a string or [undefined]. *)
Definition orElse (a b : option string) : option string :=
  match a with
  | Some s => if truthy s then Some s else b
  | None => b
  end.

Definition truthyOption (a : option string) : bool :=
  match a with Some s => truthy s | None => false end.

Section Extension.

Context {nodePath : NodePath}.

Variable host : ExtensionHost.

(** [t(en, ja)] of [i18n.ts] *)
Definition t_ (en ja : string) : string := if isJapanese host then ja else en.

Definition taskExecuting (name : string) : string :=
  t_ ("Executing task " ++ dquote ++ name ++ dquote ++ "...")
     ("タスク「" ++ name ++ "」を実行中...").

Definition taskExecuted (name : string) : string :=
  t_ ("Task " ++ dquote ++ name ++ dquote ++ " executed successfully")
     ("タスク「" ++ name ++ "」を実行しました").

Definition taskExecutionFailed (name error : string) : string :=
  t_ ("Task " ++ dquote ++ name ++ dquote ++ " execution failed: " ++ error)
     ("タスク「" ++ name ++ "」の実行に失敗しました: " ++ error).

Definition resolveAllowedPromptPath (baseDir promptPath : string)
  : option string :=
  let resolvedTarget := path_resolve baseDir promptPath in
  let normalizedBase := path_normalize baseDir in
  if (String.prefix (normalizedBase ++ path_sep) resolvedTarget
      || String.eqb resolvedTarget normalizedBase)%bool
  then Some resolvedTarget
  else None.

Definition resolveLocalPromptPath (promptPath : string) : option string :=
  match workspaceRoot host with
  | Some root =>
      if truthy root then resolveAllowedPromptPath root promptPath else None
  | None => None
  end.

Definition resolveGlobalPromptPath (promptPath : string) : option string :=
  let customPath := globalPromptsPath host in
  let globalRoot :=
    if truthy customPath then Some customPath
    else
      let homeDir := orElse (envHOME host) (envUSERPROFILE host) in
      match homeDir with
      | Some home =>
          if truthy home then
            let fromAppData :=
              match envAPPDATA host with
              | Some appData =>
                  if truthy appData then
                    let vscodePromptsPath :=
                      path_join [appData; "Code"; "User"; "prompts"] in
                    if existsSync host vscodePromptsPath
                    then Some vscodePromptsPath else None
                  else None
              | None => None
              end in
            if truthyOption fromAppData then fromAppData
            else Some (path_join [home; ".github"; "prompts"])
          else None
      | None => None
      end in
  match globalRoot with
  | Some root =>
      if truthy root then resolveAllowedPromptPath root promptPath else None
  | None => None
  end.

Definition resolvePromptText (task : ScheduledTask) : string :=
  match promptSource task with
  | SourceInline => prompt task
  | source =>
      if negb (truthyOption (promptPath task)) then prompt task
      else
        let promptPath := match promptPath task with Some p => p | None => "" end in
        let filePath :=
          match source with
          | SourceGlobal => resolveGlobalPromptPath promptPath
          | SourceLocal => resolveLocalPromptPath promptPath
          | SourceInline => None
          end in
        match filePath with
        | Some fp =>
            if (truthy fp && existsSync host fp)%bool then
              match readFileSync host fp with
              | Some content => content
              | None => prompt task      (* fall back to inline prompt *)
              end
            else prompt task
        | None => prompt task
        end
  end.

Definition errorMessageOf (e : JsError) : string :=
  match e with MkError m => m end.

(** [await copilotExecutor.executePrompt(...)] *)
Definition awaitExecutePrompt (text : string) (agent model : option string)
  : U unit :=
  fun ui =>
    match executePrompt host text agent model with
    | Resolved => (Ok tt, ui)
    | Rejected e => (Throw e, ui)
    end.

Definition executeTask (task : ScheduledTask) : U unit :=
  ubind (uwhen (showNotifications host)
           (showInformationMessage (taskExecuting (name task)))) (fun _ =>
  utryCatch
    (let promptText := resolvePromptText task in
     ubind (awaitExecutePrompt promptText (agent task) (model task)) (fun _ =>
     uwhen (showNotifications host)
       (showInformationMessage (taskExecuted (name task)))))
    (fun error =>
       showErrorMessage (taskExecutionFailed (name task) (errorMessageOf error)))).

(** The callback [activate] gives to [startScheduler], as the manager sees
    it: whether its promise resolves. *)
Definition activationExecutor : Executor :=
  fun task =>
    match fst (executeTask task (mkUi [] [])) with
    | Ok _ => Resolved
    | Throw e => Rejected e
    end.

End Extension.

(** A path module that agrees with Node's on POSIX for a normal absolute
    base and a relative path without dot segments, and a host whose file
    system holds one prompt file. *)
Definition posixPath : NodePath := {|
  path_join parts := String.concat "/" parts;
  path_resolve base p := base ++ "/" ++ p;
  path_normalize p := p;
  path_sep := "/"
|}.

Definition sampleHost (outcome : ExecOutcome) : ExtensionHost :=
  mkExtensionHost false true "" (Some "/home/u") None None
    (fun p => String.eqb p "/repoA/.github/prompts/daily.md")
    (fun p => if String.eqb p "/repoA/.github/prompts/daily.md"
              then Some "from file" else None)
    (Some "/repoA") (fun _ _ _ => outcome).

(** A task whose prompt is a file of the workspace [/repoA]. *)
Definition localPromptTask : ScheduledTask :=
  mkTask "t1" "daily" "* * * * *" "hello" true None None ScopeWorkspace
    (Some "/repoA") SourceLocal (Some ".github/prompts/daily.md") None
    (Some 300000) 0 0.

(** A manager started by [activate] in a host whose Copilot executor
    rejects every prompt. *)
Definition activatedWorld : World :=
  with_onExecuteCallback
    (Some (@activationExecutor posixPath
             (sampleHost (Rejected (MkError "no chat")))))
    (worldWith 300007 None
       [sampleTask "t1" true ScopeGlobal None (Some 300000)]).

(** Map invariants of concrete maps. *)
Ltac wellKeyed_by_computation :=
  split;
  [ repeat (constructor; [simpl; intuition discriminate|]); constructor
  | repeat constructor ].

(** Unfolding the combinators of [M]. *)
Ltac run :=
  unfold bind, ret, gets, modify, throw, tryCatch, external; simpl.

(* ================================================================== *)
(** * Properties *)

(** ** The task map *)

Module TaskMapFacts.
Import TaskMap.

Lemma get_set_same {V} k (v : V) m : get k (set k v m) = Some v.
Proof.
  induction m as [|[k' v'] r IH]; simpl.
  - now rewrite String.eqb_refl.
  - destruct (String.eqb k k') eqn:E; simpl.
    + now rewrite String.eqb_refl.
    + now rewrite E.
Qed.

Lemma get_set_other {V} k k' (v : V) m :
  k <> k' -> get k (set k' v m) = get k m.
Proof.
  intros Hne. induction m as [|[k0 v0] r IH]; simpl.
  - apply String.eqb_neq in Hne. now rewrite Hne.
  - destruct (String.eqb k' k0) eqn:E; simpl.
    + apply String.eqb_eq in E. subst k0.
      apply String.eqb_neq in Hne. now rewrite Hne.
    + destruct (String.eqb k k0); auto.
Qed.

Lemma get_In {V} k (v : V) m : get k m = Some v -> In (k, v) m.
Proof.
  induction m as [|[k' v'] r IH]; simpl; [discriminate|].
  destruct (String.eqb k k') eqn:E.
  - apply String.eqb_eq in E. intros [= ->]. subst. now left.
  - intros H. right. auto.
Qed.

Lemma get_None_keys {V} k (m : t V) : ~ In k (keys m) -> get k m = None.
Proof.
  induction m as [|[k' v'] r IH]; simpl; auto.
  intros H. destruct (String.eqb k k') eqn:E.
  - apply String.eqb_eq in E. subst. exfalso. apply H. now left.
  - apply IH. intros Hin. apply H. now right.
Qed.

Lemma get_Some_keys {V} k (v : V) m : get k m = Some v -> In k (keys m).
Proof.
  intros H. apply get_In in H. unfold keys.
  change k with (fst (k, v)). now apply in_map.
Qed.

Lemma In_get {V} k (v : V) m : NoDup (keys m) -> In (k, v) m -> get k m = Some v.
Proof.
  induction m as [|[k' v'] r IH]; simpl; [tauto|].
  intros Hnd [Heq | Hin].
  - inversion Heq; subst. now rewrite String.eqb_refl.
  - inversion Hnd as [|? ? Hnot Hnd']; subst.
    destruct (String.eqb k k') eqn:E.
    + apply String.eqb_eq in E. subst. exfalso. apply Hnot.
      change k' with (fst (k', v)). now apply in_map.
    + auto.
Qed.

Lemma set_present {V} k (v v0 : V) m :
  get k m = Some v0 -> keys (set k v m) = keys m.
Proof.
  induction m as [|[k' v'] r IH]; simpl; [discriminate|].
  destruct (String.eqb k k') eqn:E; simpl.
  - apply String.eqb_eq in E. now subst.
  - intros H. now rewrite IH.
Qed.

Lemma set_absent {V} k (v : V) m :
  get k m = None -> set k v m = (m ++ [(k, v)])%list.
Proof.
  induction m as [|[k' v'] r IH]; simpl; auto.
  destruct (String.eqb k k') eqn:E; [discriminate|].
  intros H. now rewrite IH.
Qed.

Lemma set_values_In {V} k (v x : V) m :
  In x (values (set k v m)) -> x = v \/ In x (values m).
Proof.
  induction m as [|[k' v'] r IH]; simpl.
  - intros [H | []]. now left.
  - destruct (String.eqb k k'); simpl.
    + intros [H | H]; [now left | right; now right].
    + intros [H | H]; [right; now left |].
      destruct (IH H); [now left | right; now right].
Qed.

Lemma set_keys_NoDup {V} k (v : V) m : NoDup (keys m) -> NoDup (keys (set k v m)).
Proof.
  intros Hnd. destruct (get k m) eqn:E.
  - now rewrite (set_present _ _ _ _ E).
  - rewrite (set_absent _ _ _ E). unfold keys. rewrite map_app. simpl.
    apply NoDup_app; auto.
    + constructor; [simpl; tauto | constructor].
    + intros a Ha [Hb | []]. simpl in Hb. subst a.
      destruct (in_map_iff fst m k) as [H _]. destruct (H Ha) as [[k0 v0] [Hk Hin]].
      simpl in Hk. subst k0. rewrite (In_get _ _ _ Hnd Hin) in E. discriminate.
Qed.

End TaskMapFacts.

(** ** What the helpers compute *)

Section Evaluation.

Context {cron : CronParser} {codec : DateCodec} {localDate : LocalDate}.

Lemma getTimeZone_eval w : getTimeZone w = (Ok (timeZoneOf w), w).
Proof. reflexivity. Qed.

Lemma getNextRun_at e now w :
  getNextRun e (Some now) w = (Ok (nextOccurrence e now (timeZoneOf w)), w).
Proof.
  unfold getNextRun, nextOccurrence, getTimeZone, timeZoneOf. run.
  destruct (parseExpression e now _) as [i|]; simpl; auto.
  destruct (interval_next i); reflexivity.
Qed.

Lemma getNextRun_now e w :
  getNextRun e None w =
  (Ok (nextOccurrence e (timeAt w 0) (timeZoneOf w)), clockRead w).
Proof.
  unfold getNextRun, nextOccurrence, getTimeZone, timeZoneOf, newDate, timeAt.
  run.
  destruct (parseExpression e _ _) as [i|]; simpl; auto.
  destruct (interval_next i); reflexivity.
Qed.

Lemma saveTasks_eval w : saveTasks w = (Ok tt, persist w).
Proof.
  unfold saveTasks, persist, notifyTasksChanged. run.
  destruct (onTasksChangedCallback w); reflexivity.
Qed.

Lemma validate_eval e w :
  validateCronExpression e w =
  if (truthy e && truthy (trim e))%bool
  then if parses e w then (Ok true, clockRead w)
       else (Throw invalidCronExpression, clockRead w)
  else (Throw invalidCronExpression, w).
Proof.
  unfold validateCronExpression, parses.
  destruct (truthy e); simpl; auto.
  destruct (truthy (trim e)); simpl; auto.
  unfold newDate, getTimeZone, timeZoneOf. run.
  destruct (parseExpression e _ _); reflexivity.
Qed.

Lemma eligible_eval t w :
  shouldTaskRunInCurrentWorkspace t w =
  (Ok (match scope t with
       | ScopeGlobal => true
       | ScopeWorkspace =>
           match workspaceFolder w with
           | Some cw => (truthy cw && optionString_eqb (workspacePath t) (Some cw))%bool
           | None => false
           end
       end), w).
Proof.
  unfold shouldTaskRunInCurrentWorkspace.
  destruct (scope t); simpl; auto. run.
  destruct (workspaceFolder w) as [cw|]; auto.
  destruct (truthy cw); reflexivity.
Qed.

End Evaluation.

(** ** Malformed cron expressions *)

Section Validation.

Context {cron : CronParser} {codec : DateCodec} {localDate : LocalDate}.

Lemma malformed_not_valid s w :
  malformed s -> (truthy s && truthy (trim s) && parses s w)%bool = false.
Proof.
  intros [H | [H | H]].
  - now rewrite H.
  - rewrite H. now rewrite andb_false_r.
  - unfold parses. rewrite H. now rewrite andb_false_r.
Qed.

Lemma validate_throws s w :
  (truthy s && truthy (trim s) && parses s w)%bool = false ->
  exists w', validateCronExpression s w = (Throw invalidCronExpression, w') /\
             storeUntouched w w'.
Proof.
  intros H. rewrite validate_eval.
  destruct (truthy s && truthy (trim s))%bool; simpl in H.
  - rewrite H. exists (clockRead w). repeat split.
  - exists w. repeat split.
Qed.

(** [validate(s)] fails with the invalid-expression error for every
    malformed [s]. *)
Lemma validate_malformed s w :
  malformed s ->
  fst (validateCronExpression s w) = Throw invalidCronExpression.
Proof.
  intros H. destruct (validate_throws s w (malformed_not_valid s w H))
    as [w' [E _]]. now rewrite E.
Qed.

(** [createTask] with a malformed expression throws and leaves the store
    untouched. *)
Lemma createTask_malformed input w :
  malformed (in_cronExpression input) ->
  fst (createTask input w) = Throw invalidCronExpression /\
  storeUntouched w (snd (createTask input w)).
Proof.
  intros H.
  destruct (validate_throws _ w (malformed_not_valid _ w H)) as [w' [E U]].
  unfold createTask, bind. rewrite E. simpl. auto.
Qed.

(** [updateTask] with a malformed expression that is not the empty string
    throws and leaves the store untouched. *)
Lemma updateTask_malformed tid s t w :
  TaskMap.get tid (tasks w) = Some t ->
  malformed s -> s <> "" ->
  fst (updateTask tid (onlyCron s) w) = Throw invalidCronExpression /\
  storeUntouched w (snd (updateTask tid (onlyCron s) w)).
Proof.
  intros Hget H Hne.
  destruct (validate_throws _ w (malformed_not_valid _ w H)) as [w' [E U]].
  assert (Ht : truthy s = true).
  { unfold truthy. apply negb_true_iff. now apply String.eqb_neq. }
  assert (R : updateTask tid (onlyCron s) w = (Throw invalidCronExpression, w')).
  { unfold updateTask, getTask, bind, gets. rewrite Hget. simpl.
    rewrite Ht, E. reflexivity. }
  rewrite R. simpl. auto.
Qed.

End Validation.

(** ** What the methods of the store compute *)

Section StoreMethods.

Context {cron : CronParser} {codec : DateCodec} {localDate : LocalDate}.

Lemma persist_tasks w : tasks (persist w) = tasks w.
Proof. unfold persist. destruct (onTasksChangedCallback w); reflexivity. Qed.

Lemma persist_host w :
  config (persist w) = config w /\
  workspaceFolder (persist w) = workspaceFolder w /\
  onExecuteCallback (persist w) = onExecuteCallback w /\
  clock (persist w) = clock w /\ clockReads (persist w) = clockReads w.
Proof. unfold persist. destruct (onTasksChangedCallback w); repeat split. Qed.

Lemma persist_written w :
  globalState (persist w) = map toJSON (TaskMap.values (tasks w)) /\
  stateUpdates (persist w) = S (stateUpdates w).
Proof. unfold persist. destruct (onTasksChangedCallback w); split; reflexivity. Qed.

Lemma persist_executions w : executions (persist w) = executions w.
Proof. unfold persist. destruct (onTasksChangedCallback w); reflexivity. Qed.

Lemma validates_eval e w :
  validateCronExpression e w =
  if validates e w then (Ok true, clockRead w)
  else (Throw invalidCronExpression,
        if (truthy e && truthy (trim e))%bool then clockRead w else w).
Proof.
  rewrite validate_eval. unfold validates.
  destruct (truthy e && truthy (trim e))%bool; simpl; auto.
Qed.

Lemma createTask_eval input w :
  validates (in_cronExpression input) w = true ->
  createTask input w =
  (Ok (createdTask input w),
   persist
     (with_tasks
        (TaskMap.set (id (createdTask input w)) (createdTask input w) (tasks w))
        (with_randomReads (S (randomReads w))
           (with_clockReads (3 + clockReads w) w)))).
Proof.
  intros Hv. unfold createTask. unfold bind at 1.
  rewrite validates_eval, Hv.
  unfold generateId, newDate, randomSuffix, storeAt. run.
  destruct (isTrue (in_runFirstInOneMinute input)) eqn:Hr.
  - unfold bind, ret. rewrite saveTasks_eval.
    unfold createdTask, timeAt. simpl. rewrite Hr. reflexivity.
  - unfold bind. rewrite getNextRun_at. simpl.
    rewrite saveTasks_eval.
    unfold createdTask, timeAt, timeZoneOf. simpl. rewrite Hr. reflexivity.
Qed.

Lemma createTask_invalid input w :
  validates (in_cronExpression input) w = false ->
  fst (createTask input w) = Throw invalidCronExpression /\
  storeUntouched w (snd (createTask input w)) /\
  workspaceFolder (snd (createTask input w)) = workspaceFolder w.
Proof.
  intros Hv. unfold createTask, bind. rewrite validates_eval, Hv. simpl.
  destruct (truthy _ && truthy _)%bool; repeat split.
Qed.

Lemma toggleTask_eval tid t w :
  TaskMap.get tid (tasks w) = Some t ->
  toggleTask tid w =
  let t' :=
    if enabled t
    then set_updatedAt (timeAt w 0) (set_enabled false t)
    else set_nextRun (nextOccurrence (cronExpression t) (timeAt w 1) (timeZoneOf w))
           (set_updatedAt (timeAt w 0) (set_enabled true t)) in
  (Ok (Some t'),
   persist (with_tasks (TaskMap.set tid t' (tasks w))
              (with_clockReads
                 ((if enabled t then 1 else 2) + clockReads w) w))).
Proof.
  intros Hget. unfold toggleTask, getTask, bind at 1. unfold gets.
  rewrite Hget. unfold newDate, storeAt. run.
  destruct (enabled t) eqn:He; simpl.
  - unfold bind, ret. rewrite saveTasks_eval. reflexivity.
  - unfold bind. rewrite getNextRun_now. simpl. rewrite saveTasks_eval.
    reflexivity.
Qed.

Lemma toggleTask_missing tid w :
  TaskMap.get tid (tasks w) = None -> toggleTask tid w = (Ok None, w).
Proof.
  intros Hget. unfold toggleTask, getTask, bind, gets. now rewrite Hget.
Qed.

Lemma duplicateTask_eval tid original w :
  TaskMap.get tid (tasks w) = Some original ->
  duplicateTask tid w =
  (task <- createTask (duplicateInput original) ;; ret (Some task)) w.
Proof.
  intros Hget. unfold duplicateTask, getTask. unfold bind at 1. unfold gets.
  now rewrite Hget.
Qed.

Lemma duplicateTask_missing tid w :
  TaskMap.get tid (tasks w) = None -> duplicateTask tid w = (Ok None, w).
Proof.
  intros Hget. unfold duplicateTask, getTask, bind, gets. now rewrite Hget.
Qed.

Lemma updateTask_missing tid updates w :
  TaskMap.get tid (tasks w) = None -> updateTask tid updates w = (Ok None, w).
Proof.
  intros Hget. unfold updateTask, getTask, bind, gets. now rewrite Hget.
Qed.

Lemma updateTask_invalid tid updates t w :
  TaskMap.get tid (tasks w) = Some t ->
  checksCron updates = true -> validates (cronOf updates) w = false ->
  fst (updateTask tid updates w) = Throw invalidCronExpression /\
  storeUntouched w (snd (updateTask tid updates w)) /\
  workspaceFolder (snd (updateTask tid updates w)) = workspaceFolder w.
Proof.
  intros Hget Hc Hv. unfold checksCron, cronOf in *.
  destruct (up_cronExpression updates) as [c|] eqn:Ec; [|discriminate].
  assert (R : exists w', updateTask tid updates w = (Throw invalidCronExpression, w')
              /\ storeUntouched w w' /\ workspaceFolder w' = workspaceFolder w).
  { unfold updateTask, getTask, bind, gets. rewrite Hget, Ec, Hc.
    rewrite validates_eval, Hv.
    eexists. split; [reflexivity|].
    destruct (truthy c && truthy (trim c))%bool; repeat split. }
  destruct R as [w' [R [U F]]]. rewrite R. simpl. auto.
Qed.

Lemma updateTask_eval tid updates t w :
  TaskMap.get tid (tasks w) = Some t ->
  (checksCron updates = true -> validates (cronOf updates) w = true) ->
  let n := if checksCron updates then 1%nat else 0%nat in
  let t' := updatedTask updates w (timeAt w n) t in
  updateTask tid updates w =
  (Ok (Some t'),
   persist (with_tasks (TaskMap.set tid t' (tasks w))
              (with_clockReads (S n + clockReads w) w))).
Proof.
  intros Hget Hv. unfold checksCron, cronOf in *.
  unfold updateTask, getTask. unfold bind at 1. unfold gets. rewrite Hget.
  unfold updatedTask, timeAt, timeZoneOf.
  destruct (up_cronExpression updates) as [c|] eqn:Ec.
  - destruct (truthy c) eqn:Ht.
    + unfold bind at 1. unfold bind at 1.
      rewrite validates_eval, (Hv eq_refl). unfold ret at 1.
      unfold newDate, storeAt. run. unfold bind. rewrite getNextRun_at.
      simpl. destruct (up_scope updates) as [[|]|]; simpl;
        rewrite saveTasks_eval; reflexivity.
    + unfold newDate, storeAt. run. unfold bind. rewrite getNextRun_at.
      simpl. destruct (up_scope updates) as [[|]|]; simpl;
        rewrite saveTasks_eval; reflexivity.
  - unfold newDate, storeAt. run.
    destruct (up_scope updates) as [[|]|]; simpl; unfold bind, ret;
      rewrite saveTasks_eval; reflexivity.
Qed.

End StoreMethods.

(** ** The poll step *)

Section PollStep.

Context {cron : CronParser} {codec : DateCodec} {localDate : LocalDate}.

Lemma checkTask_eval now entry w :
  checkTask now (truncMinute now) entry w = (Ok tt, tickStep now w entry).
Proof.
  destruct entry as [key t]. unfold checkTask, tickStep, isDue. simpl.
  destruct (enabled t); simpl; auto.
  destruct (nextRun t) as [nr|]; simpl; auto.
  unfold bind at 1. rewrite eligible_eval. fold (eligible (workspaceFolder w) t).
  destruct (eligible (workspaceFolder w) t); simpl; auto.
  destruct (truncMinute nr <=? truncMinute now); simpl; auto.
  unfold executed, callExecutor, consoleError, storeAt, fired. run.
  destruct (onExecuteCallback w) as [f|]; simpl.
  - destruct (f t); simpl; unfold bind; rewrite getNextRun_at; simpl;
      rewrite saveTasks_eval; reflexivity.
  - unfold bind. rewrite getNextRun_at. simpl. rewrite saveTasks_eval.
    reflexivity.
Qed.

Lemma forEach_checkTask now entries w :
  forEach entries (checkTask now (truncMinute now)) w =
  (Ok tt, fold_left (tickStep now) entries w).
Proof.
  revert w. induction entries as [|e r IH]; intros w; simpl; auto.
  unfold bind. rewrite checkTask_eval. apply IH.
Qed.

Lemma tick_eval w :
  checkAndExecuteTasks w =
  (Ok tt,
   if cfg_enabled (config w)
   then fold_left (tickStep (timeAt w 0)) (tasks w) (clockRead w)
   else w).
Proof.
  unfold checkAndExecuteTasks. run.
  destruct (cfg_enabled (config w)); simpl; auto.
  unfold newDate. simpl. apply forEach_checkTask.
Qed.

(** The poll step never throws. *)
Lemma tick_returns w : fst (checkAndExecuteTasks w) = Ok tt.
Proof. now rewrite tick_eval. Qed.

End PollStep.

(** ** The loop of the poll step over the entries *)

Section PollLoop.

Context {cron : CronParser} {codec : DateCodec} {localDate : LocalDate}.

Lemma sameHost_refl w : sameHost w w.
Proof. repeat split. Qed.

Lemma sameHost_trans w1 w2 w3 : sameHost w1 w2 -> sameHost w2 w3 -> sameHost w1 w3.
Proof.
  unfold sameHost. intros (a1 & a2 & a3 & a4 & a5 & a6) (b1 & b2 & b3 & b4 & b5 & b6).
  repeat split; congruence.
Qed.

Lemma executed_frame t w :
  sameHost w (executed t w) /\ tasks (executed t w) = tasks w /\
  globalState (executed t w) = globalState w /\
  stateUpdates (executed t w) = stateUpdates w /\
  notifications (executed t w) = notifications w.
Proof.
  unfold executed, sameHost.
  destruct (onExecuteCallback w) as [f|] eqn:E; [destruct (f t)|]; simpl;
    repeat split; auto.
Qed.

Lemma executed_executions t w :
  executions (executed t w) =
  match onExecuteCallback w with
  | Some _ => t :: executions w
  | None => executions w
  end.
Proof.
  unfold executed. destruct (onExecuteCallback w) as [f|]; auto.
  destruct (f t); reflexivity.
Qed.

Lemma persist_sameHost w : sameHost w (persist w).
Proof.
  unfold sameHost, persist. destruct (onTasksChangedCallback w) eqn:E; simpl;
    repeat split; auto.
Qed.

Lemma tickStep_sameHost now w e : sameHost w (tickStep now w e).
Proof.
  unfold tickStep. destruct (isDue _ _ _); [|apply sameHost_refl].
  eapply sameHost_trans; [|apply persist_sameHost].
  destruct (executed_frame (snd e) w) as [(a1 & a2 & a3 & a4 & a5 & a6) _].
  repeat split; simpl; auto.
Qed.

Lemma fold_sameHost now es w : sameHost w (fold_left (tickStep now) es w).
Proof.
  revert w. induction es as [|e r IH]; intros w; simpl.
  - apply sameHost_refl.
  - eapply sameHost_trans; [apply tickStep_sameHost | apply IH].
Qed.

Lemma sameHost_timeZone w w' : sameHost w w' -> timeZoneOf w' = timeZoneOf w.
Proof. intros (a1 & _). unfold timeZoneOf. now rewrite a1. Qed.

Lemma tickStep_tasks now w e :
  tasks (tickStep now w e) =
  if isDue (workspaceFolder w) now (snd e)
  then TaskMap.set (fst e) (fired (timeZoneOf w) now (snd e)) (tasks w)
  else tasks w.
Proof.
  unfold tickStep. destruct (isDue _ _ _); auto.
  rewrite persist_tasks. simpl.
  destruct (executed_frame (snd e) w) as (_ & E & _). now rewrite E.
Qed.

Lemma tickStep_executions now w e :
  executions (tickStep now w e) =
  match onExecuteCallback w with
  | Some _ =>
      if isDue (workspaceFolder w) now (snd e)
      then snd e :: executions w else executions w
  | None => executions w
  end.
Proof.
  unfold tickStep. destruct (isDue _ _ _).
  - rewrite persist_executions. simpl. apply executed_executions.
  - now destruct (onExecuteCallback w).
Qed.

(** The tasks the loop hands to the Executor: the due ones, in map order. *)
Lemma fold_executions now f es w :
  onExecuteCallback w = Some f ->
  executions (fold_left (tickStep now) es w) =
  (rev (filter (isDue (workspaceFolder w) now) (map snd es)) ++ executions w)%list.
Proof.
  revert w. induction es as [|e r IH]; intros w Hf; simpl; auto.
  destruct (tickStep_sameHost now w e) as (_ & Hfolder & Hcb & _).
  rewrite IH by congruence. rewrite Hfolder, tickStep_executions, Hf.
  destruct (isDue (workspaceFolder w) now (snd e)); simpl; auto.
  now rewrite <- app_assoc.
Qed.

Lemma fold_executions_unbound now es w :
  onExecuteCallback w = None ->
  executions (fold_left (tickStep now) es w) = executions w.
Proof.
  revert w. induction es as [|e r IH]; intros w Hf; simpl; auto.
  destruct (tickStep_sameHost now w e) as (_ & _ & Hcb & _).
  rewrite IH by congruence. now rewrite tickStep_executions, Hf.
Qed.

(** What the loop leaves under the key [k]. *)
Lemma fold_get now k es w :
  NoDup (TaskMap.keys es) ->
  TaskMap.get k (tasks (fold_left (tickStep now) es w)) =
  match TaskMap.get k es with
  | Some t =>
      if isDue (workspaceFolder w) now t
      then Some (fired (timeZoneOf w) now t)
      else TaskMap.get k (tasks w)
  | None => TaskMap.get k (tasks w)
  end.
Proof.
  revert w. induction es as [|[k0 t0] r IH]; intros w Hnd; simpl; auto.
  inversion Hnd as [|? ? Hnot Hnd']; subst.
  pose proof (tickStep_sameHost now w (k0, t0)) as Hs.
  rewrite IH by assumption.
  rewrite (sameHost_timeZone _ _ Hs).
  destruct Hs as (_ & Hfolder & _). rewrite Hfolder.
  rewrite tickStep_tasks. simpl.
  destruct (String.eqb k k0) eqn:E.
  - apply String.eqb_eq in E. subst k0.
    rewrite (TaskMapFacts.get_None_keys k r Hnot).
    destruct (isDue (workspaceFolder w) now t0); auto.
    apply TaskMapFacts.get_set_same.
  - apply String.eqb_neq in E.
    assert (G : TaskMap.get k
                  (if isDue (workspaceFolder w) now t0
                   then TaskMap.set k0 (fired (timeZoneOf w) now t0) (tasks w)
                   else tasks w) = TaskMap.get k (tasks w)).
    { destruct (isDue _ _ _); auto. now apply TaskMapFacts.get_set_other. }
    rewrite G. reflexivity.
Qed.

End PollLoop.

(** ** Counting dispatches *)

Section Dispatches.

Context {cron : CronParser} {codec : DateCodec} {localDate : LocalDate}.

Lemma dispatched_app w w' l :
  executions w' = (l ++ executions w)%list -> dispatched w w' = l.
Proof.
  intros E. unfold dispatched. rewrite E, length_app.
  replace (List.length l + List.length (executions w)
           - List.length (executions w))%nat with (List.length l) by lia.
  rewrite firstn_app, firstn_all, Nat.sub_diag. simpl. apply app_nil_r.
Qed.

Lemma dispatched_same w w' :
  executions w' = executions w -> dispatched w w' = [].
Proof. intros E. now apply (dispatched_app w w' []). Qed.

Lemma count_filter_rev {A} (p : A -> bool) (l : list A) :
  List.length (filter p (rev l)) = List.length (filter p l).
Proof.
  induction l as [|a r IH]; simpl; auto.
  rewrite filter_app, length_app, IH. simpl.
  destruct (p a); simpl; lia.
Qed.

(** In a well keyed list of entries the tasks with id [k] that satisfy [p]
    are the task under [k], if it satisfies [p]. *)
Lemma count_id (p : ScheduledTask -> bool) k (es : TaskMap.t ScheduledTask) :
  wellKeyed es ->
  List.length (filter (fun t => String.eqb (id t) k) (filter p (map snd es))) =
  match TaskMap.get k es with
  | Some t => if p t then 1%nat else 0%nat
  | None => 0%nat
  end.
Proof.
  intros [Hnd Hid]. induction es as [|[k0 t0] r IH]; simpl; auto.
  inversion Hnd as [|? ? Hnot Hnd']; subst.
  inversion Hid as [|? ? Hk Hid']; subst. simpl in Hk. subst k0.
  specialize (IH Hnd' Hid').
  destruct (String.eqb k (id t0)) eqn:E.
  - apply String.eqb_eq in E. subst k.
    rewrite (TaskMapFacts.get_None_keys _ r Hnot) in IH.
    destruct (p t0); simpl; auto. rewrite String.eqb_refl. simpl. now rewrite IH.
  - destruct (p t0); simpl; auto.
    rewrite String.eqb_sym, E. exact IH.
Qed.

Lemma set_Forall {V} (P : string * V -> Prop) k v m :
  Forall P m -> P (k, v) -> Forall P (TaskMap.set k v m).
Proof.
  intros H Hp. induction H as [|[k0 v0] r Hx Hr IH]; simpl.
  - constructor; auto.
  - destruct (String.eqb k k0); constructor; auto.
Qed.

Lemma set_wellKeyed k t m :
  wellKeyed m -> k = id t -> wellKeyed (TaskMap.set k t m).
Proof.
  intros [Hnd Hid] Hk. split.
  - now apply TaskMapFacts.set_keys_NoDup.
  - now apply set_Forall.
Qed.

Lemma tickStep_wellKeyed now w e :
  wellKeyed (tasks w) -> fst e = id (snd e) ->
  wellKeyed (tasks (tickStep now w e)).
Proof.
  intros Hw He. rewrite tickStep_tasks. destruct (isDue _ _ _); auto.
  apply set_wellKeyed; auto.
Qed.

Lemma fold_wellKeyed now es w :
  wellKeyed (tasks w) -> Forall (fun e => fst e = id (snd e)) es ->
  wellKeyed (tasks (fold_left (tickStep now) es w)).
Proof.
  revert w. induction es as [|e r IH]; intros w Hw Hes; simpl; auto.
  inversion Hes; subst. apply IH; auto. now apply tickStep_wellKeyed.
Qed.

(** The number of dispatches of the task under [k] in one poll step. *)
Lemma tick_dispatchCount w k :
  wellKeyed (tasks w) ->
  dispatchCount k w (snd (checkAndExecuteTasks w)) =
  match TaskMap.get k (tasks w), onExecuteCallback w, cfg_enabled (config w) with
  | Some t, Some _, true =>
      if isDue (workspaceFolder w) (timeAt w 0) t then 1%nat else 0%nat
  | _, _, _ => 0%nat
  end.
Proof.
  intros Hw. rewrite tick_eval. simpl. unfold dispatchCount.
  destruct (cfg_enabled (config w)).
  - destruct (onExecuteCallback w) as [f|] eqn:Hf.
    + rewrite (dispatched_app w _ (rev (filter (isDue (workspaceFolder w) (timeAt w 0))
                                         (map snd (tasks w))))).
      * rewrite count_filter_rev, count_id by assumption.
        destruct (TaskMap.get k (tasks w)); reflexivity.
      * now rewrite (fold_executions _ f).
    + rewrite dispatched_same.
      * simpl. now destruct (TaskMap.get k (tasks w)).
      * now rewrite fold_executions_unbound.
  - rewrite dispatched_same by reflexivity. simpl.
    destruct (TaskMap.get k (tasks w)); [destruct (onExecuteCallback w)|]; reflexivity.
Qed.

(** What one poll step leaves under the key [k]. *)
Lemma tick_get w k t :
  wellKeyed (tasks w) -> cfg_enabled (config w) = true ->
  TaskMap.get k (tasks w) = Some t ->
  TaskMap.get k (tasks (snd (checkAndExecuteTasks w))) =
  Some (if isDue (workspaceFolder w) (timeAt w 0) t
        then fired (timeZoneOf w) (timeAt w 0) t else t).
Proof.
  intros [Hnd _] Hc Hget. rewrite tick_eval, Hc. simpl.
  rewrite fold_get by assumption. rewrite Hget. simpl.
  destruct (isDue _ _ _); auto.
Qed.

Lemma tick_wellKeyed w :
  wellKeyed (tasks w) -> wellKeyed (tasks (snd (checkAndExecuteTasks w))).
Proof.
  intros Hw. rewrite tick_eval. simpl.
  destruct (cfg_enabled (config w)); auto.
  apply fold_wellKeyed; [exact Hw | apply Hw].
Qed.

Lemma tick_sameHost w :
  config (snd (checkAndExecuteTasks w)) = config w /\
  workspaceFolder (snd (checkAndExecuteTasks w)) = workspaceFolder w /\
  onExecuteCallback (snd (checkAndExecuteTasks w)) = onExecuteCallback w /\
  clock (snd (checkAndExecuteTasks w)) = clock w /\
  clockReads (snd (checkAndExecuteTasks w)) =
    if cfg_enabled (config w) then S (clockReads w) else clockReads w.
Proof.
  rewrite tick_eval. simpl. destruct (cfg_enabled (config w)); [|repeat split].
  destruct (fold_sameHost (timeAt w 0) (tasks w) (clockRead w))
    as (a1 & a2 & a3 & a4 & a5 & a6).
  repeat split; auto.
Qed.

End Dispatches.

(** ** Due selection *)

Section DueSelection.

Context {cron : CronParser} {codec : DateCodec} {localDate : LocalDate}.

Lemma eligible_spec t w :
  fst (shouldTaskRunInCurrentWorkspace t w) = Ok (eligible (workspaceFolder w) t).
Proof. now rewrite eligible_eval. Qed.


Lemma isDue_dueAt w now t :
  dueAt w now t <-> isDue (workspaceFolder w) now t = true.
Proof.
  unfold dueAt, isDue. rewrite eligible_spec. split.
  - intros (He & Hs & nr & Hn & Hle). injection Hs as Hs.
    rewrite He, Hn, Hs. simpl. now apply Z.leb_le.
  - intros H. apply andb_true_iff in H as [He H].
    destruct (nextRun t) as [nr|]; [|discriminate].
    apply andb_true_iff in H as [Hs H]. rewrite Hs.
    repeat split; auto. exists nr. split; auto. now apply Z.leb_le.
Qed.


Lemma fired_fields tz now t :
  lastRun (fired tz now t) = Some now /\
  nextRun (fired tz now t) = nextOccurrence (cronExpression t) now tz /\
  enabled (fired tz now t) = enabled t /\
  scope (fired tz now t) = scope t /\
  workspacePath (fired tz now t) = workspacePath t /\
  cronExpression (fired tz now t) = cronExpression t /\
  id (fired tz now t) = id t.
Proof. repeat split. Qed.


End DueSelection.

Section DueSelectionExamples.

#[local] Existing Instance everyMinute.
#[local] Existing Instance decimalDates.
#[local] Existing Instance utcDates.



End DueSelectionExamples.

Section DueSelectionOtherHosts.

#[local] Existing Instance decimalDates.

(** With an expression that has a seconds field the occurrence after [now]
    may lie in the minute of [now]: a second poll step in that minute
    dispatches the task again. *)
Lemma tick_dispatches_again_within_minute :
  let tick := @checkAndExecuteTasks everyTenSeconds decimalDates utcDates in
  let w1 := snd (tick tenSecondWorld) in
  let w2 := snd (tick w1) in
  dispatchCount "t1" tenSecondWorld w1 = 1%nat /\
  @truncMinute utcDates (timeAt w1 0) =
    @truncMinute utcDates (timeAt tenSecondWorld 0) /\
  dispatchCount "t1" w1 w2 = 1%nat.
Proof. repeat split; vm_compute; reflexivity. Qed.

(** In the hour that comes twice, a task whose [nextRun] lies twenty
    minutes after [now] is dispatched: both dates are rebuilt from their
    local fields, and the local time of [nextRun], 02:10, is before that of
    [now], 02:50. *)
Lemma tick_dispatches_early_in_repeated_hour :
  let tick := @checkAndExecuteTasks everyMinute decimalDates fallBackDates in
  let now := timeAt repeatedHourWorld 0 in
  now + 20 * 60000 - 7 = 7800000 /\
  @truncMinute fallBackDates 7800000 = 4200000 /\
  @truncMinute fallBackDates now = 6600000 /\
  dispatchCount "t1" repeatedHourWorld (snd (tick repeatedHourWorld)) = 1%nat.
Proof. repeat split; vm_compute; reflexivity. Qed.

End DueSelectionOtherHosts.

(** ** A failing Executor *)

Section ExecutorFailure.

Context {cron : CronParser} {codec : DateCodec} {localDate : LocalDate}.

Lemma tickStep_sameBookkeeping now e w1 w2 f1 f2 :
  sameBookkeeping w1 w2 ->
  onExecuteCallback w1 = Some f1 -> onExecuteCallback w2 = Some f2 ->
  sameBookkeeping (tickStep now w1 e) (tickStep now w2 e).
Proof.
  intros (a1 & a2 & a3 & a4 & a5 & a6 & a7 & a8) H1 H2.
  unfold tickStep, timeZoneOf. rewrite a7, a6.
  destruct (isDue (workspaceFolder w2) now (snd e));
    [|repeat split; assumption].
  unfold executed, persist. rewrite H1, H2.
  destruct (f1 (snd e)), (f2 (snd e)); simpl; rewrite a8, a1;
    destruct (onTasksChangedCallback w2) eqn:E8; unfold sameBookkeeping; simpl;
    repeat split; congruence.
Qed.

Lemma fold_sameBookkeeping now es w1 w2 f1 f2 :
  sameBookkeeping w1 w2 ->
  onExecuteCallback w1 = Some f1 -> onExecuteCallback w2 = Some f2 ->
  sameBookkeeping (fold_left (tickStep now) es w1) (fold_left (tickStep now) es w2).
Proof.
  revert w1 w2. induction es as [|e r IH]; intros w1 w2 Hs H1 H2; simpl; auto.
  apply IH.
  - eapply tickStep_sameBookkeeping; eauto.
  - destruct (tickStep_sameHost now w1 e) as (_ & _ & Hcb & _). congruence.
  - destruct (tickStep_sameHost now w2 e) as (_ & _ & Hcb & _). congruence.
Qed.

Lemma tickStep_inSync now e w : inSync w -> inSync (tickStep now w e).
Proof.
  intros H. unfold tickStep. destruct (isDue _ _ _); auto.
  unfold inSync. destruct (persist_written
    (with_tasks
       (TaskMap.set (fst e) (fired (timeZoneOf w) now (snd e))
          (tasks (executed (snd e) w))) (executed (snd e) w))) as [E _].
  now rewrite E, persist_tasks.
Qed.

Lemma tickStep_due_inSync now e w :
  isDue (workspaceFolder w) now (snd e) = true -> inSync (tickStep now w e).
Proof.
  intros H. unfold tickStep. rewrite H.
  unfold inSync. destruct (persist_written
    (with_tasks
       (TaskMap.set (fst e) (fired (timeZoneOf w) now (snd e))
          (tasks (executed (snd e) w))) (executed (snd e) w))) as [E _].
  now rewrite E, persist_tasks.
Qed.

Lemma fold_inSync now es w : inSync w -> inSync (fold_left (tickStep now) es w).
Proof.
  revert w. induction es as [|e r IH]; intros w H; simpl; auto.
  apply IH. now apply tickStep_inSync.
Qed.

(** After a loop in which some task was due, the persisted collection is
    the collection in memory. *)
Lemma fold_due_inSync now es w e :
  In e es -> isDue (workspaceFolder w) now (snd e) = true ->
  inSync (fold_left (tickStep now) es w).
Proof.
  revert w. induction es as [|e0 r IH]; intros w Hin Hdue; simpl; [destruct Hin|].
  destruct Hin as [-> | Hin].
  - apply fold_inSync. now apply tickStep_due_inSync.
  - apply IH; auto.
    destruct (tickStep_sameHost now w e0) as (_ & Hfolder & _). now rewrite Hfolder.
Qed.

(** C4.  When the Executor throws for the due task A, the poll step still
    returns normally, the due task B still receives its call, and the
    bookkeeping is the one of a poll step in which the Executor behaves in
    any other way, for instance succeeds: A has [lastRun = now] and the
    [nextRun] computed from [now], and the collection persisted is the
    collection in memory. *)
Theorem tick_survives_executor_failure (w : World) (f g : Executor)
    (kA kB : string) (tA tB : ScheduledTask) (e : JsError) :
  cfg_enabled (config w) = true ->
  onExecuteCallback w = Some f ->
  wellKeyed (tasks w) ->
  TaskMap.get kA (tasks w) = Some tA ->
  TaskMap.get kB (tasks w) = Some tB ->
  kA <> kB ->
  dueAt w (timeAt w 0) tA -> dueAt w (timeAt w 0) tB ->
  f tA = Rejected e ->
  let now := timeAt w 0 in
  let w' := snd (checkAndExecuteTasks w) in
  let ws := snd (checkAndExecuteTasks (with_onExecuteCallback (Some g) w)) in
  fst (checkAndExecuteTasks w) = Ok tt /\
  In tB (dispatched w w') /\ dispatchCount kB w w' = 1%nat /\
  (exists tA',
      TaskMap.get kA (tasks w') = Some tA' /\
      lastRun tA' = Some now /\
      nextRun tA' = nextOccurrence (cronExpression tA) now (timeZoneOf w) /\
      In (toJSON tA') (globalState w')) /\
  tasks w' = tasks ws /\ globalState w' = globalState ws /\
  stateUpdates w' = stateUpdates ws /\ notifications w' = notifications ws /\
  executions w' = executions ws.
Proof.
  intros Hc Hf Hw HA HB Hne HdA HdB Hrej now w' ws. subst now.
  apply isDue_dueAt in HdA. apply isDue_dueAt in HdB.
  split; [apply tick_returns|].
  assert (Hex : executions w' =
                (rev (filter (isDue (workspaceFolder w) (timeAt w 0))
                        (map snd (tasks w))) ++ executions w)%list).
  { unfold w'. rewrite tick_eval, Hc. simpl.
    now rewrite (fold_executions _ f). }
  split.
  { rewrite (dispatched_app _ _ _ Hex). apply in_rev. rewrite rev_involutive.
    apply filter_In. split; auto.
    apply TaskMapFacts.get_In in HB. change tB with (snd (kB, tB)).
    now apply in_map. }
  split.
  { unfold w'. rewrite tick_dispatchCount, HB, Hf, Hc by assumption.
    now rewrite HdB. }
  assert (HA' : TaskMap.get kA (tasks w') =
                Some (fired (timeZoneOf w) (timeAt w 0) tA)).
  { unfold w'. rewrite (tick_get w kA tA) by assumption. now rewrite HdA. }
  split.
  { exists (fired (timeZoneOf w) (timeAt w 0) tA).
    split; [exact HA'|]. split; [reflexivity|]. split; [reflexivity|].
    assert (Hsync : inSync w').
    { unfold w'. rewrite tick_eval, Hc. simpl.
      apply (fold_due_inSync _ _ _ (kA, tA)).
      - now apply TaskMapFacts.get_In.
      - exact HdA. }
    rewrite Hsync. apply in_map.
    apply TaskMapFacts.get_In in HA'.
    change (fired (timeZoneOf w) (timeAt w 0) tA)
      with (snd (kA, fired (timeZoneOf w) (timeAt w 0) tA)).
    now apply in_map. }
  assert (Hs : sameBookkeeping w' ws).
  { unfold w', ws. rewrite !tick_eval. simpl. rewrite Hc.
    apply (fold_sameBookkeeping _ _ _ _ f g); auto.
    repeat split. }
  destruct Hs as (a1 & a2 & a3 & a4 & a5 & _). auto.
Qed.

End ExecutorFailure.

Section ExecutorFailureExamples.

#[local] Existing Instance everyMinute.
#[local] Existing Instance decimalDates.
#[local] Existing Instance utcDates.

Lemma tick_survives_executor_failure_witness :
  In taskB (dispatched failingWorld (snd (checkAndExecuteTasks failingWorld))) /\
  tasks (snd (checkAndExecuteTasks failingWorld)) =
  tasks (snd (checkAndExecuteTasks
                (with_onExecuteCallback (Some alwaysResolves) failingWorld))).
Proof.
  assert (Hw : wellKeyed (tasks failingWorld)) by wellKeyed_by_computation.
  assert (HA : dueAt failingWorld (timeAt failingWorld 0) taskA).
  { split; [reflexivity|]. split; [reflexivity|].
    exists 300000. split; [reflexivity | vm_compute; discriminate]. }
  assert (HB : dueAt failingWorld (timeAt failingWorld 0) taskB).
  { split; [reflexivity|]. split; [reflexivity|].
    exists 240000. split; [reflexivity | vm_compute; discriminate]. }
  assert (Hne : "a" <> "b") by discriminate.
  destruct (tick_survives_executor_failure failingWorld alwaysRejects
              alwaysResolves "a" "b" taskA taskB (MkError "no chat")
              eq_refl eq_refl Hw eq_refl eq_refl Hne HA HB eq_refl)
    as (_ & H1 & _ & _ & H2 & _).
  split; [exact H1 | exact H2].
Defined.

End ExecutorFailureExamples.

(** ** The scope gate *)

Section ScopeGate.

Context {cron : CronParser} {codec : DateCodec} {localDate : LocalDate}.

Lemma truthy_nonempty s : truthy s = true <-> s <> "".
Proof.
  unfold truthy. rewrite negb_true_iff. apply String.eqb_neq.
Qed.

Lemma eligible_workspace folder t :
  scope t = ScopeWorkspace ->
  (eligible folder t = true <->
   exists p, folder = Some p /\ p <> "" /\ workspacePath t = Some p).
Proof.
  intros Hs. unfold eligible. rewrite Hs. split.
  - destruct folder as [cw|]; [|discriminate].
    intros H. apply andb_true_iff in H as [Ht He].
    exists cw. split; auto. split; [now apply truthy_nonempty|].
    destruct (workspacePath t) as [p|]; simpl in He; [|discriminate].
    apply String.eqb_eq in He. now subst.
  - intros (p & -> & Hne & Hp). rewrite Hp. simpl.
    apply truthy_nonempty in Hne. rewrite Hne. simpl. apply String.eqb_refl.
Qed.

Lemma tick_get_any w k t :
  wellKeyed (tasks w) -> TaskMap.get k (tasks w) = Some t ->
  isDue (workspaceFolder w) (timeAt w 0) t = false ->
  TaskMap.get k (tasks (snd (checkAndExecuteTasks w))) = Some t.
Proof.
  intros Hw Hget Hdue. destruct (cfg_enabled (config w)) eqn:Hc.
  - rewrite (tick_get w k t) by assumption. now rewrite Hdue.
  - rewrite tick_eval, Hc. exact Hget.
Qed.

(** C8 (as amended).  The gate lets every global task run; it lets a
    workspace task run exactly when the host has a current workspace path
    that is not the empty string and equals the path of the task.  A
    workspace task whose path is not the current one, or for which there is
    no current workspace, is not dispatched by a poll step and is left as
    it is, whatever its [nextRun]. *)
Theorem scope_gate (w : World) (t : ScheduledTask) :
  (scope t = ScopeGlobal ->
   shouldTaskRunInCurrentWorkspace t w = (Ok true, w)) /\
  (scope t = ScopeWorkspace ->
   exists b,
     shouldTaskRunInCurrentWorkspace t w = (Ok b, w) /\
     (b = true <->
      exists p, workspaceFolder w = Some p /\ p <> "" /\ workspacePath t = Some p)) /\
  (forall k,
      wellKeyed (tasks w) -> TaskMap.get k (tasks w) = Some t ->
      scope t = ScopeWorkspace ->
      workspaceFolder w = None \/ workspaceFolder w <> workspacePath t ->
      dispatchCount k w (snd (checkAndExecuteTasks w)) = 0%nat /\
      TaskMap.get k (tasks (snd (checkAndExecuteTasks w))) = Some t).
Proof.
  split; [|split].
  - intros Hs. rewrite eligible_eval. now rewrite Hs.
  - intros Hs. exists (eligible (workspaceFolder w) t). split.
    + rewrite eligible_eval. reflexivity.
    + now apply eligible_workspace.
  - intros k Hw Hget Hs Hother.
    assert (Hel : eligible (workspaceFolder w) t = false).
    { destruct (eligible (workspaceFolder w) t) eqn:E; auto.
      apply (eligible_workspace _ _ Hs) in E as (p & Hp & _ & Hq).
      destruct Hother as [Hn | Hn]; congruence. }
    assert (Hdue : isDue (workspaceFolder w) (timeAt w 0) t = false).
    { unfold isDue. rewrite Hel. destruct (nextRun t); simpl; apply andb_false_r. }
    split.
    + rewrite tick_dispatchCount, Hget, Hdue by assumption.
      destruct (onExecuteCallback w); [destruct (cfg_enabled (config w))|]; reflexivity.
    + now apply tick_get_any.
Qed.

End ScopeGate.

Section ScopeGateExamples.

#[local] Existing Instance everyMinute.
#[local] Existing Instance decimalDates.
#[local] Existing Instance utcDates.

Lemma scope_gate_witness :
  dispatchCount "t1" repoBWorld (snd (checkAndExecuteTasks repoBWorld)) = 0%nat /\
  TaskMap.get "t1" (tasks (snd (checkAndExecuteTasks repoBWorld))) = Some repoATask.
Proof.
  assert (Hw : wellKeyed (tasks repoBWorld)) by wellKeyed_by_computation.
  destruct (scope_gate repoBWorld repoATask) as (_ & _ & H).
  apply (H "t1" Hw eq_refl eq_refl).
  right. discriminate.
Defined.

(** C8 as stated fails: the current workspace path is defined and equal to
    the path of the task, and the gate answers no, because the path is the
    empty string. *)
Lemma scope_gate_rejects_empty_path :
  scope emptyPathTask = ScopeWorkspace /\
  ~ (fst (shouldTaskRunInCurrentWorkspace emptyPathTask emptyPathWorld) = Ok true
     <-> exists p, workspaceFolder emptyPathWorld = Some p /\
                   workspacePath emptyPathTask = Some p).
Proof.
  split; [reflexivity|]. intros [_ H].
  assert (Hp : exists p, workspaceFolder emptyPathWorld = Some p /\
                         workspacePath emptyPathTask = Some p)
    by (exists ""; split; reflexivity).
  specialize (H Hp). vm_compute in H. discriminate.
Qed.

End ScopeGateExamples.

(** ** Running a task now *)

Section RunNow.

Context {cron : CronParser} {codec : DateCodec} {localDate : LocalDate}.

Lemma runTaskNow_missing tid w :
  TaskMap.get tid (tasks w) = None \/ onExecuteCallback w = None ->
  runTaskNow tid w = (Ok false, w).
Proof.
  intros H. unfold runTaskNow, getTask, bind, gets.
  destruct (TaskMap.get tid (tasks w)); destruct (onExecuteCallback w); auto.
  destruct H; discriminate.
Qed.

Lemma runTaskNow_resolved tid t f w :
  TaskMap.get tid (tasks w) = Some t -> onExecuteCallback w = Some f ->
  f t = Resolved ->
  runTaskNow tid w =
  (Ok true,
   persist (with_tasks (TaskMap.set tid (set_lastRun (Some (timeAt w 0)) t) (tasks w))
              (with_clockReads (S (clockReads w))
                 (with_executions (t :: executions w) w)))).
Proof.
  intros Hget Hf Hr. unfold runTaskNow, getTask. unfold bind at 1. unfold gets.
  rewrite Hget. unfold bind at 1. rewrite Hf.
  unfold callExecutor, newDate, storeAt. rewrite Hr. run.
  unfold bind, ret. rewrite saveTasks_eval. reflexivity.
Qed.

Lemma runTaskNow_rejected tid t f e w :
  TaskMap.get tid (tasks w) = Some t -> onExecuteCallback w = Some f ->
  f t = Rejected e ->
  runTaskNow tid w = (Ok false, with_executions (t :: executions w) w).
Proof.
  intros Hget Hf Hr. unfold runTaskNow, getTask. unfold bind at 1. unfold gets.
  rewrite Hget. unfold bind at 1. rewrite Hf.
  unfold callExecutor. rewrite Hr. reflexivity.
Qed.

(** C9 (as amended).  [runTaskNow] answers false and changes nothing when
    the task is missing or no Executor is bound.  Otherwise it hands the
    task to the Executor at once, whatever its [enabled], [nextRun] and
    scope.  When the Executor succeeds it answers true, after setting
    [lastRun] alone to the time read after the call and persisting; when
    the Executor throws it answers false, leaves the store untouched and
    does not throw. *)
Theorem runTaskNow_outcome (w : World) (tid : string) :
  (TaskMap.get tid (tasks w) = None \/ onExecuteCallback w = None ->
   runTaskNow tid w = (Ok false, w)) /\
  (forall t f,
      TaskMap.get tid (tasks w) = Some t -> onExecuteCallback w = Some f ->
      let r := runTaskNow tid w in
      executions (snd r) = t :: executions w /\
      match f t with
      | Resolved =>
          fst r = Ok true /\
          TaskMap.get tid (tasks (snd r)) =
            Some (set_lastRun (Some (timeAt w 0)) t) /\
          nextRun (set_lastRun (Some (timeAt w 0)) t) = nextRun t /\
          inSync (snd r) /\ stateUpdates (snd r) = S (stateUpdates w)
      | Rejected _ =>
          fst r = Ok false /\ storeUntouched w (snd r)
      end).
Proof.
  split; [apply runTaskNow_missing|].
  intros t f Hget Hf r. unfold r. destruct (f t) as [|e] eqn:Hr.
  - rewrite (runTaskNow_resolved tid t f w Hget Hf Hr). simpl.
    split; [apply persist_executions|].
    split; [reflexivity|]. rewrite persist_tasks. simpl.
    split; [apply TaskMapFacts.get_set_same|]. split; [reflexivity|].
    match goal with |- inSync (persist ?x) /\ _ =>
      destruct (persist_written x) as [E1 E2] end.
    split.
    + unfold inSync. now rewrite E1, persist_tasks.
    + exact E2.
  - rewrite (runTaskNow_rejected tid t f e w Hget Hf Hr). simpl.
    repeat split.
Qed.

End RunNow.

Section RunNowExamples.

#[local] Existing Instance everyMinute.
#[local] Existing Instance decimalDates.
#[local] Existing Instance utcDates.

Lemma runTaskNow_outcome_witness :
  fst (runTaskNow "t1" (idleWorld alwaysResolves)) = Ok true /\
  fst (runTaskNow "t1" (idleWorld alwaysRejects)) = Ok false /\
  runTaskNow "missing" (idleWorld alwaysResolves) =
    (Ok false, idleWorld alwaysResolves).
Proof.
  destruct (runTaskNow_outcome (idleWorld alwaysResolves) "t1") as [_ H1].
  destruct (H1 idleTask alwaysResolves eq_refl eq_refl) as [_ [H1' _]].
  destruct (runTaskNow_outcome (idleWorld alwaysRejects) "t1") as [_ H2].
  destruct (H2 idleTask alwaysRejects eq_refl eq_refl) as [_ [H2' _]].
  destruct (runTaskNow_outcome (idleWorld alwaysResolves) "missing") as [H3 _].
  split; [exact H1'|]. split; [exact H2'|].
  apply H3. left. reflexivity.
Defined.

(** C9 as stated fails: the Executor was invoked with the task, it threw,
    and [runTaskNow] answers false. *)
Lemma runTaskNow_false_after_invocation :
  let r := runTaskNow "t1" (idleWorld alwaysRejects) in
  dispatched (idleWorld alwaysRejects) (snd r) = [idleTask] /\
  fst r = Ok false /\ fst r <> Ok true.
Proof.
  simpl. split; [reflexivity|]. split; [reflexivity | discriminate].
Qed.

End RunNowExamples.

(** ** Toggling *)

Section Toggle.

Context {cron : CronParser} {codec : DateCodec} {localDate : LocalDate}.

Lemma toggleTask_facts tid t w :
  TaskMap.get tid (tasks w) = Some t ->
  exists t1,
    TaskMap.get tid (tasks (snd (toggleTask tid w))) = Some t1 /\
    fst (toggleTask tid w) = Ok (Some t1) /\
    enabled t1 = negb (enabled t) /\
    cronExpression t1 = cronExpression t /\
    nextRun t1 =
      (if enabled t then nextRun t
       else nextOccurrence (cronExpression t) (timeAt w 1) (timeZoneOf w)) /\
    config (snd (toggleTask tid w)) = config w /\
    clock (snd (toggleTask tid w)) = clock w /\
    clockReads (snd (toggleTask tid w)) =
      ((if enabled t then 1 else 2) + clockReads w)%nat.
Proof.
  intros Hget. rewrite (toggleTask_eval tid t w Hget). simpl.
  match goal with |- context [persist ?x] =>
    destruct (persist_host x) as (Hc & _ & _ & Hk & Hr);
    rewrite persist_tasks, Hc, Hk, Hr end.
  simpl. rewrite TaskMapFacts.get_set_same.
  eexists. split; [reflexivity|]. split; [reflexivity|].
  destruct (enabled t) eqn:He; simpl; repeat split.
Qed.

(** C6 (as amended).  Two calls of [toggleTask] in succession give the task
    its original [enabled] value back.  Its [nextRun] is then the one
    computed by the call that enabled it, the second when the task was
    enabled at first and the first when it was disabled: it is present if
    and only if the cron library evaluates the expression at that call,
    whatever the final [enabled] value, since the call that disables does
    not clear it. *)
Theorem toggleTask_twice (w : World) (tid : string) (t : ScheduledTask) :
  TaskMap.get tid (tasks w) = Some t ->
  let w2 := snd (toggleTask tid (snd (toggleTask tid w))) in
  let armedAt := timeAt w (if enabled t then 2 else 1) in
  exists t2,
    TaskMap.get tid (tasks w2) = Some t2 /\
    enabled t2 = enabled t /\
    nextRun t2 = nextOccurrence (cronExpression t) armedAt (timeZoneOf w) /\
    (nextRun t2 <> None <->
     nextOccurrence (cronExpression t) armedAt (timeZoneOf w) <> None).
Proof.
  intros Hget w2 armedAt.
  destruct (toggleTask_facts tid t w Hget)
    as (t1 & Hget1 & _ & He1 & Hc1 & Hn1 & Hcfg1 & Hclk1 & Hr1).
  destruct (toggleTask_facts tid t1 _ Hget1)
    as (t2 & Hget2 & _ & He2 & Hc2 & Hn2 & _).
  exists t2. split; [exact Hget2|].
  split; [rewrite He2, He1; apply negb_involutive|].
  assert (Hn : nextRun t2 =
               nextOccurrence (cronExpression t) armedAt (timeZoneOf w)).
  { rewrite Hn2, He1, Hc1, Hn1. unfold armedAt, timeAt, timeZoneOf.
    rewrite Hcfg1, Hclk1, Hr1.
    destruct (enabled t); simpl; reflexivity. }
  split; [exact Hn|]. now rewrite Hn.
Qed.

End Toggle.

Section ToggleExamples.

#[local] Existing Instance everyMinute.
#[local] Existing Instance decimalDates.
#[local] Existing Instance utcDates.

Lemma toggleTask_twice_witness :
  exists t2,
    TaskMap.get "t1"
      (tasks (snd (toggleTask "t1" (snd (toggleTask "t1" restingWorld))))) = Some t2 /\
    enabled t2 = false.
Proof.
  destruct (toggleTask_twice restingWorld "t1" restingTask eq_refl)
    as (t2 & Hget & He & _).
  exists t2. split; [exact Hget | exact He].
Defined.

(** C6 as stated fails: after the two calls the task is disabled again and
    its expression is valid, and it has a [nextRun]. *)
Lemma toggleTask_twice_keeps_nextRun_when_disabled :
  let w2 := snd (toggleTask "t1" (snd (toggleTask "t1" restingWorld))) in
  let t2 := set_updatedAt 300009 (set_nextRun (Some 360000) restingTask) in
  TaskMap.get "t1" (tasks w2) = Some t2 /\
  enabled t2 = false /\
  fst (validateCronExpression (cronExpression t2) w2) = Ok true /\
  ~ (nextRun t2 <> None <->
     enabled t2 = true /\
     fst (validateCronExpression (cronExpression t2) w2) = Ok true).
Proof.
  intros w2 t2.
  split; [vm_compute; reflexivity|].
  split; [reflexivity|].
  split; [vm_compute; reflexivity|].
  intros [H _].
  assert (Hn : nextRun t2 <> None) by (unfold t2; simpl; discriminate).
  destruct (H Hn) as [He _]. unfold t2 in He. simpl in He. discriminate He.
Qed.

End ToggleExamples.

(** ** The empty expression in [updateTask] *)

Section EmptyExpression.

Context {cron : CronParser} {codec : DateCodec} {localDate : LocalDate}.

Lemma malformed_empty : malformed "".
Proof. left. reflexivity. Qed.

(** C2, where the code departs from it.  The empty string is malformed and
    [validateCronExpression] rejects it, but [updateTask] tests the
    expression for truthiness before validating and for [undefined] before
    assigning: with the empty string it does not throw, stores the empty
    expression with the [nextRun] the library gives for it, persists and
    notifies. *)
Theorem updateTask_stores_empty_expression (w : World) (tid : string)
    (t : ScheduledTask) :
  TaskMap.get tid (tasks w) = Some t ->
  let r := updateTask tid (onlyCron "") w in
  let t' :=
    set_updatedAt (timeAt w 0)
      (set_nextRun (nextOccurrence "" (timeAt w 0) (timeZoneOf w))
         (set_cronExpression "" t)) in
  malformed "" /\
  fst (validateCronExpression "" w) = Throw invalidCronExpression /\
  fst r = Ok (Some t') /\
  TaskMap.get tid (tasks (snd r)) = Some t' /\
  cronExpression t' = "" /\
  inSync (snd r) /\
  stateUpdates (snd r) = S (stateUpdates w) /\
  (onTasksChangedCallback w = true ->
   notifications (snd r) = S (notifications w)).
Proof.
  intros Hget r t'. split; [apply malformed_empty|].
  split; [apply validate_malformed, malformed_empty|].
  unfold r. rewrite (updateTask_eval tid (onlyCron "") t w Hget)
    by (simpl; discriminate).
  simpl. fold t'.
  match goal with |- context [persist ?x] =>
    destruct (persist_written x) as [E1 E2]; set (x0 := x) in * end.
  split; [reflexivity|]. rewrite persist_tasks.
  split; [apply TaskMapFacts.get_set_same|]. split; [reflexivity|].
  split; [unfold inSync; now rewrite E1, persist_tasks|].
  split; [exact E2|].
  intros Hcb. unfold persist. unfold x0 at 1. simpl. rewrite Hcb. reflexivity.
Qed.

End EmptyExpression.

Section EmptyExpressionExamples.

#[local] Existing Instance everyMinute.
#[local] Existing Instance decimalDates.
#[local] Existing Instance utcDates.

Lemma updateTask_stores_empty_expression_witness :
  exists t',
    TaskMap.get "t1" (tasks (snd (updateTask "t1" (onlyCron "") dueWorld))) = Some t' /\
    cronExpression t' = "" /\
    stateUpdates (snd (updateTask "t1" (onlyCron "") dueWorld)) = 1%nat.
Proof.
  destruct (updateTask_stores_empty_expression dueWorld "t1"
              (sampleTask "t1" true ScopeGlobal None (Some 300000)) eq_refl)
    as (_ & _ & _ & Hget & Hc & _ & Hs & _).
  eexists. split; [exact Hget|]. split; [exact Hc | exact Hs].
Defined.

End EmptyExpressionExamples.

(** ** The workspace invariant *)

Section WorkspaceInvariant.

Context {cron : CronParser} {codec : DateCodec} {localDate : LocalDate}.

Lemma snd_bind_pure {A B} (c : M A) (g : A -> B) w :
  snd ((a <- c ;; ret (g a)) w) = snd (c w).
Proof. unfold bind, ret. destruct (c w) as [[a|e] w']; reflexivity. Qed.

Lemma get_values {V} k (v : V) m :
  TaskMap.get k m = Some v -> In v (TaskMap.values m).
Proof.
  intros H. apply TaskMapFacts.get_In in H.
  change v with (snd (k, v)). now apply in_map.
Qed.

Lemma updatedTask_scope u w now t :
  scope (updatedTask u w now t) =
    match up_scope u with Some v => v | None => scope t end /\
  workspacePath (updatedTask u w now t) =
    match up_scope u with
    | Some ScopeWorkspace => workspaceFolder w
    | Some ScopeGlobal => None
    | None => workspacePath t
    end.
Proof.
  unfold updatedTask.
  destruct (up_promptPath u), (up_promptSource u); simpl;
    (destruct (up_scope u) as [[|]|]; simpl; [split; reflexivity ..|]);
    destruct (up_model u), (up_agent u), (up_enabled u), (up_prompt u),
      (up_cronExpression u), (up_name u); simpl; split; reflexivity.
Qed.

(** Where the tasks of the store come from after [createTask]. *)
Lemma createTask_values input w t' :
  In t' (TaskMap.values (tasks (snd (createTask input w)))) ->
  In t' (TaskMap.values (tasks w)) \/
  (validates (in_cronExpression input) w = true /\ t' = createdTask input w).
Proof.
  destruct (validates (in_cronExpression input) w) eqn:Hv.
  - rewrite (createTask_eval input w Hv). simpl. rewrite persist_tasks. simpl.
    intros H. apply TaskMapFacts.set_values_In in H. tauto.
  - destruct (createTask_invalid input w Hv) as (_ & (E & _) & _).
    rewrite E. tauto.
Qed.

(** The scope and the path of a task of the store after one operation:
    it was there, or it has the scope and path of a task that was there, or
    it is global without path, or it is bound to the current folder, or it
    was created without a scope in the input and has no path. *)
Lemma runOp_scope_path op w t' :
  In t' (TaskMap.values (tasks (snd (runOp op w)))) ->
  In t' (TaskMap.values (tasks w)) \/
  (exists t, In t (TaskMap.values (tasks w)) /\
             scope t' = scope t /\ workspacePath t' = workspacePath t) \/
  (scope t' = ScopeGlobal /\ workspacePath t' = None) \/
  (scope t' = ScopeWorkspace /\ workspacePath t' = workspaceFolder w) \/
  (exists input, op = OpCreate input /\ in_scope input = None /\
                 workspacePath t' = None).
Proof.
  destruct op as [input | tid updates | tid | tid | c folder]; simpl.
  - rewrite (snd_bind_pure (createTask input) (fun _ => tt)).
    intros H. apply createTask_values in H as [H | [_ ->]]; [now left|].
    right. right. unfold createdTask.
    destruct (in_scope input) as [[|]|] eqn:Es; simpl.
    + left. split; reflexivity.
    + right. left. split; reflexivity.
    + right. right. exists input. repeat split. exact Es.
  - rewrite (snd_bind_pure (updateTask tid updates) (fun _ => tt)).
    destruct (TaskMap.get tid (tasks w)) as [t|] eqn:Hget.
    + destruct (checksCron updates) eqn:Hc;
        [destruct (validates (cronOf updates) w) eqn:Hv|].
      * rewrite (updateTask_eval tid updates t w Hget) by (intros _; exact Hv).
        simpl. rewrite persist_tasks. simpl. intros H.
        apply TaskMapFacts.set_values_In in H as [-> | H]; [|now left].
        destruct (updatedTask_scope updates w (timeAt w 1) t) as [Hs Hp].
        rewrite Hc. rewrite Hs, Hp.
        destruct (up_scope updates) as [[|]|].
        -- right. right. left. split; reflexivity.
        -- right. right. right. left. split; reflexivity.
        -- right. left. exists t. split; [eapply get_values; eauto|].
           split; reflexivity.
      * destruct (updateTask_invalid tid updates t w Hget Hc Hv) as (_ & (E & _) & _).
        rewrite E. now left.
      * rewrite (updateTask_eval tid updates t w Hget)
          by (rewrite Hc; discriminate).
        simpl. rewrite persist_tasks. simpl. intros H.
        apply TaskMapFacts.set_values_In in H as [-> | H]; [|now left].
        destruct (updatedTask_scope updates w (timeAt w 0) t) as [Hs Hp].
        rewrite Hc. rewrite Hs, Hp.
        destruct (up_scope updates) as [[|]|].
        -- right. right. left. split; reflexivity.
        -- right. right. right. left. split; reflexivity.
        -- right. left. exists t. split; [eapply get_values; eauto|].
           split; reflexivity.
    + rewrite (updateTask_missing tid updates w Hget). now left.
  - rewrite (snd_bind_pure (toggleTask tid) (fun _ => tt)).
    destruct (TaskMap.get tid (tasks w)) as [t|] eqn:Hget.
    + rewrite (toggleTask_eval tid t w Hget). simpl. rewrite persist_tasks.
      simpl. intros H.
      apply TaskMapFacts.set_values_In in H as [-> | H]; [|now left].
      right. left. exists t. split; [eapply get_values; eauto|].
      destruct (enabled t); split; reflexivity.
    + rewrite (toggleTask_missing tid w Hget). now left.
  - rewrite (snd_bind_pure (duplicateTask tid) (fun _ => tt)).
    destruct (TaskMap.get tid (tasks w)) as [t|] eqn:Hget.
    + rewrite (duplicateTask_eval tid t w Hget).
      rewrite (snd_bind_pure (createTask (duplicateInput t)) Some).
      intros H. apply createTask_values in H as [H | [_ ->]]; [now left|].
      right. right. unfold createdTask, duplicateInput. simpl.
      destruct (scope t).
      * left. split; reflexivity.
      * right. left. split; reflexivity.
    + rewrite (duplicateTask_missing tid w Hget). now left.
  - now left.
Qed.

End WorkspaceInvariant.

Section WorkspaceInvariantSequences.

Context {cron : CronParser} {codec : DateCodec} {localDate : LocalDate}.

Lemma persist_folder w : workspaceFolder (persist w) = workspaceFolder w.
Proof. now destruct (persist_host w) as (_ & H & _). Qed.

Lemma createTask_folder input w :
  workspaceFolder (snd (createTask input w)) = workspaceFolder w.
Proof.
  destruct (validates (in_cronExpression input) w) eqn:Hv.
  - rewrite (createTask_eval input w Hv). simpl. now rewrite persist_folder.
  - now destruct (createTask_invalid input w Hv) as (_ & _ & E).
Qed.

(** An operation of the store does not change the workspace folder; the
    host does. *)
Lemma runOp_folder op w :
  workspaceFolder (snd (runOp op w)) =
  match op with
  | OpHost _ folder => folder
  | _ => workspaceFolder w
  end.
Proof.
  destruct op as [input | tid updates | tid | tid | c folder]; simpl.
  - rewrite (snd_bind_pure (createTask input) (fun _ => tt)).
    apply createTask_folder.
  - rewrite (snd_bind_pure (updateTask tid updates) (fun _ => tt)).
    destruct (TaskMap.get tid (tasks w)) as [t|] eqn:Hget.
    + destruct (checksCron updates) eqn:Hc;
        [destruct (validates (cronOf updates) w) eqn:Hv|].
      * rewrite (updateTask_eval tid updates t w Hget) by (intros _; exact Hv).
        simpl. now rewrite persist_folder.
      * now destruct (updateTask_invalid tid updates t w Hget Hc Hv) as (_ & _ & E).
      * rewrite (updateTask_eval tid updates t w Hget)
          by (rewrite Hc; discriminate).
        simpl. now rewrite persist_folder.
    + now rewrite (updateTask_missing tid updates w Hget).
  - rewrite (snd_bind_pure (toggleTask tid) (fun _ => tt)).
    destruct (TaskMap.get tid (tasks w)) as [t|] eqn:Hget.
    + rewrite (toggleTask_eval tid t w Hget). simpl. now rewrite persist_folder.
    + now rewrite (toggleTask_missing tid w Hget).
  - rewrite (snd_bind_pure (duplicateTask tid) (fun _ => tt)).
    destruct (TaskMap.get tid (tasks w)) as [t|] eqn:Hget.
    + rewrite (duplicateTask_eval tid t w Hget).
      rewrite (snd_bind_pure (createTask (duplicateInput t)) Some).
      apply createTask_folder.
    + now rewrite (duplicateTask_missing tid w Hget).
  - reflexivity.
Qed.

Lemma runOp_pathOnlyInWorkspace op w :
  Forall pathOnlyInWorkspace (TaskMap.values (tasks w)) ->
  Forall pathOnlyInWorkspace (TaskMap.values (tasks (snd (runOp op w)))).
Proof.
  intros H. rewrite Forall_forall in *. intros t' Hin.
  destruct (runOp_scope_path op w t' Hin)
    as [Hold | [(t & Ht & Hs & Hp) | [[Hs Hp] | [[Hs Hp] | (i & _ & _ & Hp)]]]];
    unfold pathOnlyInWorkspace.
  - now apply H.
  - rewrite Hs, Hp. now apply H.
  - intros Hne. now rewrite Hp in Hne.
  - intros _. exact Hs.
  - intros Hne. now rewrite Hp in Hne.
Qed.

Lemma runOp_workspaceHasPath op w :
  anchored op -> workspaceFolder w <> None ->
  Forall workspaceHasPath (TaskMap.values (tasks w)) ->
  workspaceFolder (snd (runOp op w)) <> None /\
  Forall workspaceHasPath (TaskMap.values (tasks (snd (runOp op w)))).
Proof.
  intros Ha Hf H. split.
  - rewrite runOp_folder. destruct op; auto.
  - rewrite Forall_forall in *. intros t' Hin.
    destruct (runOp_scope_path op w t' Hin)
      as [Hold | [(t & Ht & Hs & Hp) | [[Hs Hp] | [[Hs Hp] | (i & Hop & Hnone & Hp)]]]];
      unfold workspaceHasPath.
    + now apply H.
    + rewrite Hs, Hp. now apply H.
    + intros Hw. rewrite Hs in Hw. discriminate.
    + intros _. now rewrite Hp.
    + subst op. simpl in Ha. contradiction.
Qed.

(** C3 (as amended).  Over every sequence of [createTask], [updateTask],
    [toggleTask] and [duplicateTask], with any change of the settings and
    of the folder in between, a stored task has a [workspacePath] only if
    its scope is the workspace scope.  Conversely a stored task of
    workspace scope has a [workspacePath] when a workspace folder is open
    during the whole sequence and every [createTask] is given its scope. *)
Theorem workspace_path_invariant (ops : list Op) (w : World) :
  Forall pathOnlyInWorkspace (TaskMap.values (tasks w)) ->
  Forall pathOnlyInWorkspace (TaskMap.values (tasks (runOps ops w))) /\
  (workspaceFolder w <> None -> Forall anchored ops ->
   Forall workspaceHasPath (TaskMap.values (tasks w)) ->
   Forall workspaceHasPath (TaskMap.values (tasks (runOps ops w)))).
Proof.
  revert w. induction ops as [|op r IH]; intros w H; simpl.
  - split; auto.
  - destruct (IH (snd (runOp op w)) (runOp_pathOnlyInWorkspace op w H)) as [I1 I2].
    split; [exact I1|].
    intros Hf Ha Hp. inversion Ha as [|? ? Hop Hr]; subst.
    destruct (runOp_workspaceHasPath op w Hop Hf Hp) as [Hf' Hp'].
    now apply I2.
Qed.

(** The scope taken from the settings: [createTask] looks at the scope of
    the input, not at the scope it stores, when it captures the path. *)
Lemma createTask_default_scope_has_no_path input w :
  validates (in_cronExpression input) w = true ->
  in_scope input = None -> cfg_defaultScope (config w) = ScopeWorkspace ->
  fst (createTask input w) = Ok (createdTask input w) /\
  scope (createdTask input w) = ScopeWorkspace /\
  workspacePath (createdTask input w) = None.
Proof.
  intros Hv Hs Hd. rewrite (createTask_eval input w Hv).
  unfold createdTask. simpl. rewrite Hs, Hd. repeat split.
Qed.

End WorkspaceInvariantSequences.

Section WorkspaceInvariantExamples.

#[local] Existing Instance everyMinute.
#[local] Existing Instance decimalDates.
#[local] Existing Instance utcDates.

Lemma workspace_path_invariant_witness :
  Forall pathOnlyInWorkspace
    (TaskMap.values (tasks (runOps sampleOps (emptyWorld 300007 (Some "/repoA"))))) /\
  Forall workspaceHasPath
    (TaskMap.values (tasks (runOps sampleOps (emptyWorld 300007 (Some "/repoA"))))).
Proof.
  destruct (workspace_path_invariant sampleOps (emptyWorld 300007 (Some "/repoA"))
              (Forall_nil _)) as [H1 H2].
  split; [exact H1|]. apply H2.
  - discriminate.
  - repeat constructor; discriminate.
  - constructor.
Defined.

(** C3 as stated fails: a task created with the workspace scope while no
    folder is open is stored with that scope and without a path. *)
Lemma workspace_scope_without_folder_has_no_path :
  let w0 := emptyWorld 300007 None in
  let t := createdTask workspaceInput w0 in
  In t (TaskMap.values (tasks (runOps [OpCreate workspaceInput] w0))) /\
  scope t = ScopeWorkspace /\ workspacePath t = None /\
  ~ (workspacePath t <> None <-> scope t = ScopeWorkspace).
Proof.
  intros w0 t.
  split; [vm_compute; left; reflexivity|].
  split; [reflexivity|]. split; [reflexivity|].
  intros [_ H]. apply (H eq_refl). reflexivity.
Qed.

End WorkspaceInvariantExamples.

(** ** Duplicating *)

Section Duplicate.

Context {cron : CronParser} {codec : DateCodec} {localDate : LocalDate}.

Lemma validates_duplicateInput original w :
  validates (in_cronExpression (duplicateInput original)) w =
  validates (cronExpression original) w.
Proof. reflexivity. Qed.

(** C10 (as amended).  For a stored task, [duplicateTask] is [createTask] on
    the input copied from it.  When the expression of the source still
    validates, the duplicate gets the id [generateId] makes from the clock
    and a random suffix, [createdAt] and [updatedAt] read from the clock at
    the call, a [nextRun] computed from that reading, no [lastRun], and it
    is disabled; its [workspacePath] is the folder open at the call when
    the source has the workspace scope, and none otherwise, whatever the
    [workspacePath] of the source.  When the generated id is not yet a key
    of the map, the duplicate is added at the end and the source is left as
    it is.  When the expression does not validate, the call throws and
    stores nothing. *)
Theorem duplicateTask_delegates (w : World) (tid : string)
    (original : ScheduledTask) :
  TaskMap.get tid (tasks w) = Some original ->
  let r := duplicateTask tid w in
  r = (task <- createTask (duplicateInput original) ;; ret (Some task)) w /\
  (validates (cronExpression original) w = false ->
   fst r = Throw invalidCronExpression /\ storeUntouched w (snd r)) /\
  (validates (cronExpression original) w = true ->
   exists d,
     fst r = Ok (Some d) /\
     id d = "task_" ++ string_of_Z (timeAt w 2) ++ "_" ++ random w (randomReads w) /\
     createdAt d = timeAt w 1 /\ updatedAt d = timeAt w 1 /\
     nextRun d =
       nextOccurrence (cronExpression original) (timeAt w 1) (timeZoneOf w) /\
     lastRun d = None /\ enabled d = false /\
     name d = name original ++ " (Copy)" /\
     cronExpression d = cronExpression original /\
     prompt d = prompt original /\ scope d = scope original /\
     workspacePath d =
       match scope original with
       | ScopeWorkspace => workspaceFolder w
       | ScopeGlobal => None
       end /\
     TaskMap.get (id d) (tasks (snd r)) = Some d /\
     inSync (snd r) /\
     (TaskMap.get (id d) (tasks w) = None ->
      id d <> tid /\
      tasks (snd r) = (tasks w ++ [(id d, d)])%list /\
      TaskMap.get tid (tasks (snd r)) = Some original)).
Proof.
  intros Hget r. unfold r. rewrite (duplicateTask_eval tid original w Hget).
  split; [reflexivity|]. split.
  - intros Hv. rewrite <- validates_duplicateInput in Hv.
    destruct (createTask_invalid _ w Hv) as (E & U & _).
    rewrite (snd_bind_pure (createTask (duplicateInput original)) Some).
    split; [|exact U].
    unfold bind. destruct (createTask (duplicateInput original) w) as [[a|e] w'];
      simpl in *; [discriminate | injection E as ->; reflexivity].
  - intros Hv. rewrite <- validates_duplicateInput in Hv.
    unfold bind. rewrite (createTask_eval _ w Hv). unfold ret. simpl.
    set (d := createdTask (duplicateInput original) w).
    exists d. split; [reflexivity|].
    do 11 (split; [reflexivity|]).
    match goal with |- context [persist ?x] =>
      destruct (persist_written x) as [E1 _] end.
    rewrite persist_tasks. simpl.
    split; [apply TaskMapFacts.get_set_same|].
    split; [unfold inSync; now rewrite E1, persist_tasks|].
    intros Hfresh. change (TaskMap.get (id d) (tasks w) = None) in Hfresh.
    assert (Hne : id d <> tid) by (intros E; rewrite E in Hfresh; congruence).
    split; [exact Hne|].
    split; [exact (TaskMapFacts.set_absent (id d) d (tasks w) Hfresh)|].
    change (TaskMap.get tid (TaskMap.set (id d) d (tasks w)) = Some original).
    rewrite TaskMapFacts.get_set_other by (intros E; now apply Hne).
    exact Hget.
Qed.

End Duplicate.

Section DuplicateExamples.

#[local] Existing Instance everyMinute.
#[local] Existing Instance decimalDates.
#[local] Existing Instance utcDates.

(** A task bound to [/repoA], duplicated while [/repoB] is open. *)
Lemma duplicateTask_delegates_witness :
  exists d,
    fst (duplicateTask "t1" repoBWorld) = Ok (Some d) /\
    workspacePath d = Some "/repoB" /\
    TaskMap.get "t1" (tasks (snd (duplicateTask "t1" repoBWorld))) = Some repoATask.
Proof.
  destruct (duplicateTask_delegates repoBWorld "t1" repoATask eq_refl)
    as (_ & _ & H).
  destruct (H eq_refl)
    as (d & Hr & Hid & _ & _ & _ & _ & _ & _ & _ & _ & _ & Hp & _ & _ & Hfresh).
  exists d. split; [exact Hr|]. split; [exact Hp|].
  apply Hfresh. rewrite Hid. vm_compute. reflexivity.
Defined.

End DuplicateExamples.

Section DuplicateCollision.

#[local] Existing Instance everyMinute.
#[local] Existing Instance decimalDates.
#[local] Existing Instance utcDates.

(** C10 as stated fails: the duplicate gets the id of its source, and takes
    its place in the map. *)
Lemma duplicateTask_id_collision :
  let r := duplicateTask "task_300009_abc123" collisionWorld in
  let d := createdTask
             (duplicateInput
                (sampleTask "task_300009_abc123" true ScopeGlobal None None))
             collisionWorld in
  fst r = Ok (Some d) /\
  id d = "task_300009_abc123" /\
  name d = "daily (Copy)" /\
  tasks (snd r) = [("task_300009_abc123", d)].
Proof.
  intros r d. repeat split; vm_compute; reflexivity.
Qed.

End DuplicateCollision.

(** ** Loading the durable store *)

Section Loading.

Context {cron : CronParser} {codec : DateCodec} {localDate : LocalDate}.

Lemma loadTask_eval raw w :
  loadTask raw w =
  (Ok tt,
   with_tasks
     (TaskMap.set (raw_id raw) (loadedTask raw (timeAt w 0) (timeZoneOf w))
        (tasks w))
     (clockRead w)).
Proof.
  unfold loadTask. simpl. unfold bind. rewrite getNextRun_now.
  reflexivity.
Qed.

(** A record of [t], complete or from an older version, is loaded as [t]
    with the defaults filled in and the [nextRun] of the load. *)
Lemma loadedTask_record ds dp t now tz :
  codec_roundtrip ->
  loadedTask (legacy ds dp (toJSON t)) now tz = reloaded ds dp now tz t.
Proof.
  intros Hc. unfold loadedTask, reloaded, legacy, toJSON. simpl.
  assert (Hl : match option_map dateToJSON (lastRun t) with
               | Some s => if truthy s then Some (dateParse s) else None
               | None => None
               end = lastRun t).
  { destruct (lastRun t) as [d|]; simpl; auto.
    destruct (Hc d) as [Hp Hne]. apply truthy_nonempty in Hne.
    now rewrite Hne, Hp. }
  rewrite Hl. rewrite (proj1 (Hc (createdAt t))), (proj1 (Hc (updatedAt t))).
  destruct ds, dp; reflexivity.
Qed.

Lemma get_app_None {V} k (m1 m2 : TaskMap.t V) :
  TaskMap.get k m1 = None -> TaskMap.get k (m1 ++ m2)%list = TaskMap.get k m2.
Proof.
  induction m1 as [|[k' v'] r IH]; simpl; auto.
  destruct (String.eqb k k'); [discriminate | exact IH].
Qed.

(** Loading records with distinct ids that are not in the map appends the
    loaded tasks in order, each with the [nextRun] of its own clock
    reading, and writes nothing. *)
Lemma forEach_loadTask (c : Stored) w :
  codec_roundtrip ->
  NoDup (map (fun e => id (snd e)) c) ->
  (forall e, In e c -> TaskMap.get (id (snd e)) (tasks w) = None) ->
  exists w',
    forEach (recordsOf c) loadTask w = (Ok tt, w') /\
    tasks w' =
      (tasks w ++ reloadedMap (clock w) (clockReads w) (timeZoneOf w) c)%list /\
    globalState w' = globalState w /\ stateUpdates w' = stateUpdates w /\
    notifications w' = notifications w.
Proof.
  intros Hc. revert w. induction c as [|[[ds dp] t] r IH]; intros w Hnd Hfresh.
  - exists w. simpl. rewrite app_nil_r. repeat split.
  - simpl. inversion Hnd as [|? ? Hnot Hnd']; subst.
    unfold bind. rewrite loadTask_eval, loadedTask_record by assumption.
    assert (Hid : raw_id (legacy ds dp (toJSON t)) = id t) by reflexivity.
    rewrite Hid.
    assert (Ht : TaskMap.get (id t) (tasks w) = None)
      by (apply (Hfresh (ds, dp, t)); now left).
    rewrite (TaskMapFacts.set_absent _ _ _ Ht).
    match goal with |- context [forEach _ _ ?x] => set (w1 := x) end.
    destruct (IH w1 Hnd') as (w' & E & Et & Eg & Es & En).
    { intros e Hin. unfold w1. simpl. rewrite get_app_None.
      - simpl. destruct (String.eqb (id (snd e)) (id t)) eqn:Eq; auto.
        apply String.eqb_eq in Eq. exfalso. apply Hnot. rewrite <- Eq.
        now apply (in_map (fun e => id (snd e))).
      - apply Hfresh. now right. }
    exists w'. split; [exact E|]. split.
    + rewrite Et. unfold w1. simpl. rewrite <- app_assoc. reflexivity.
    + rewrite Eg, Es, En. repeat split.
Qed.

(** C7.  A collection of tasks with distinct ids, written in the record
    format of the durable store, some records lacking [scope] or
    [promptSource] as those of an older version do, is loaded by a new
    manager as the same tasks in the same order: every field is the one of
    the task, dates included, a missing [scope] is [global], a missing
    [promptSource] is [inline], and [nextRun] is computed from the cron
    expression at the clock reading of the load, whatever was stored. *)
Theorem loadTasks_roundtrip (c : Stored) (w : World) :
  codec_roundtrip ->
  NoDup (map (fun e => id (snd e)) c) ->
  globalState w = recordsOf c ->
  fst (construct w) = Ok tt /\
  tasks (snd (construct w)) =
    reloadedMap (clock w) (clockReads w) (timeZoneOf w) c /\
  globalState (snd (construct w)) = recordsOf c /\
  stateUpdates (snd (construct w)) = stateUpdates w.
Proof.
  intros Hc Hnd Hg. unfold construct, loadTasks. run. rewrite Hg.
  match goal with |- context [forEach _ _ ?x] => set (w0 := x) end.
  destruct (forEach_loadTask c w0 Hc Hnd) as (w' & E & Et & Eg & Es & _).
  { intros e _. reflexivity. }
  rewrite E. simpl. split; [reflexivity|]. split; [exact Et|].
  split; [rewrite Eg; exact Hg | exact Es].
Qed.

(** What [saveTasks] writes is the record format, with nothing missing. *)
Lemma saveTasks_records w :
  globalState (snd (saveTasks w)) =
  recordsOf (map (fun t => (false, false, t)) (TaskMap.values (tasks w))).
Proof.
  rewrite saveTasks_eval. simpl. destruct (persist_written w) as [E _].
  rewrite E. unfold recordsOf. rewrite map_map. apply map_ext.
  intros t. unfold legacy, toJSON. reflexivity.
Qed.

End Loading.

Lemma decimalDates_roundtrip : @codec_roundtrip decimalDates.
Proof.
  intros d. split; [|discriminate].
  simpl. unfold string_of_Z. rewrite NilEmpty.isi. apply DecimalZ.of_to.
Qed.

Section LoadingExamples.

#[local] Existing Instance everyMinute.
#[local] Existing Instance decimalDates.
#[local] Existing Instance utcDates.

Lemma loadTasks_roundtrip_witness :
  tasks (snd (construct restartWorld)) =
  [ ("t1", sampleTask "t1" true ScopeGlobal None (Some 360000));
    ("t2", sampleTask "t2" false ScopeWorkspace (Some "/repoA") (Some 360000)) ].
Proof.
  assert (Hnd : NoDup (map (fun e => id (snd e)) storedTasks)).
  { repeat (constructor; [simpl; intuition discriminate|]). constructor. }
  destruct (loadTasks_roundtrip storedTasks restartWorld
              decimalDates_roundtrip Hnd eq_refl) as (_ & H & _).
  rewrite H. vm_compute. reflexivity.
Defined.

End LoadingExamples.

(** ** The scheduler timers *)

Section Timers.

Context {cron : CronParser} {codec : DateCodec} {localDate : LocalDate}.

(** The timer state of the manager and of the event loop. *)
Lemma persist_timers w :
  timers (persist w) = timers w /\ nextHandle (persist w) = nextHandle w /\
  schedulerInterval (persist w) = schedulerInterval w.
Proof. unfold persist. destruct (onTasksChangedCallback w); repeat split. Qed.

Lemma tickStep_timers now w e :
  timers (tickStep now w e) = timers w /\
  nextHandle (tickStep now w e) = nextHandle w /\
  schedulerInterval (tickStep now w e) = schedulerInterval w.
Proof.
  unfold tickStep. destruct (isDue _ _ _); [|repeat split].
  match goal with |- context [persist ?x] =>
    destruct (persist_timers x) as (a & b & c); rewrite a, b, c end.
  simpl. unfold executed.
  destruct (onExecuteCallback w) as [f|]; [destruct (f (snd e))|]; repeat split.
Qed.

Lemma fold_timers now es w :
  timers (fold_left (tickStep now) es w) = timers w /\
  nextHandle (fold_left (tickStep now) es w) = nextHandle w /\
  schedulerInterval (fold_left (tickStep now) es w) = schedulerInterval w.
Proof.
  revert w. induction es as [|e r IH]; intros w; simpl; [repeat split|].
  destruct (IH (tickStep now w e)) as (a & b & c).
  destruct (tickStep_timers now w e) as (a' & b' & c').
  rewrite a, b, c. auto.
Qed.

Lemma tick_timers w :
  timers (snd (checkAndExecuteTasks w)) = timers w /\
  nextHandle (snd (checkAndExecuteTasks w)) = nextHandle w /\
  schedulerInterval (snd (checkAndExecuteTasks w)) = schedulerInterval w.
Proof.
  rewrite tick_eval. simpl. destruct (cfg_enabled (config w)); [|repeat split].
  apply (fold_timers (timeAt w 0) (tasks w) (clockRead w)).
Qed.

Lemma notAwaited_tick w :
  notAwaited checkAndExecuteTasks w = (Ok tt, snd (checkAndExecuteTasks w)).
Proof. unfold notAwaited, tryCatch. now rewrite tick_eval. Qed.

Lemma findTimer_head h t l : findTimer h ((h, t) :: l) = Some t.
Proof. unfold findTimer. simpl. now rewrite Nat.eqb_refl. Qed.

Lemma findTimer_removed h l : findTimer h (removeTimer h l) = None.
Proof.
  unfold findTimer, removeTimer. induction l as [|[h' t'] r IH]; simpl; auto.
  destruct (Nat.eqb h' h) eqn:E; simpl; auto. now rewrite E.
Qed.

(** [stop()] when no interval is registered does nothing. *)
Lemma stopScheduler_idle w :
  schedulerInterval w = None -> stopScheduler w = (Ok tt, w).
Proof. intros H. unfold stopScheduler, bind, gets. now rewrite H. Qed.

(** [stop()] while polling cancels the recurring timer: the handle is gone
    from the event loop and firing it does nothing. *)
Lemma stopScheduler_polling w h :
  schedulerInterval w = Some h ->
  fst (stopScheduler w) = Ok tt /\
  schedulerInterval (snd (stopScheduler w)) = None /\
  findTimer h (timers (snd (stopScheduler w))) = None /\
  fireTimer h (snd (stopScheduler w)) = (Ok tt, snd (stopScheduler w)).
Proof.
  intros H. unfold stopScheduler, clearInterval. run. rewrite H. simpl.
  repeat split.
  - apply findTimer_removed.
  - unfold fireTimer. run. now rewrite findTimer_removed.
Qed.

Lemma startScheduler_eval f w :
  startScheduler f w =
  (Ok tt,
   with_timers
     ((nextHandle w, AlignmentTimeout (msToNextMinute (timeAt w 0)))
        :: match schedulerInterval w with
           | Some h0 => removeTimer h0 (timers w)
           | None => timers w
           end)
     (S (nextHandle w))
     (with_clockReads (S (clockReads w))
        (with_schedulerInterval None (with_onExecuteCallback (Some f) w)))).
Proof.
  unfold startScheduler, stopScheduler, clearInterval, newDate, setTimeout.
  run. destruct (schedulerInterval w) eqn:E; simpl; [reflexivity|].
  unfold with_timers, with_clockReads, with_schedulerInterval. simpl.
  rewrite E. reflexivity.
Qed.

(** C5, where the code departs from it.  [startScheduler] drops the handle
    of its alignment timeout, and [stopScheduler] clears the recurring
    interval only.  After [start] then [stop] the alignment timeout is
    still live; when it fires, a poll step runs and the recurring interval
    is registered: the scheduler is running again. *)
Theorem stopScheduler_misses_alignment_timeout (w : World) (f : Executor) :
  let w1 := snd (startScheduler f w) in
  let w2 := snd (stopScheduler w1) in
  let h := nextHandle w in
  let w3 := snd (fireTimer h w2) in
  let polled :=
    snd (checkAndExecuteTasks
           (with_timers (removeTimer h (timers w2)) (nextHandle w2) w2)) in
  fst (stopScheduler w1) = Ok tt /\
  w2 = w1 /\
  schedulerInterval w2 = None /\
  findTimer h (timers w2) =
    Some (AlignmentTimeout (msToNextMinute (timeAt w 0))) /\
  w3 = with_schedulerInterval (Some (S h))
         (with_timers ((S h, PollInterval (60 * 1000)) :: timers polled)
            (S (S h)) polled) /\
  schedulerInterval w3 = Some (S h) /\
  findTimer (S h) (timers w3) = Some (PollInterval (60 * 1000)) /\
  fireTimer (S h) w3 = (Ok tt, snd (checkAndExecuteTasks w3)).
Proof.
  intros w1 w2 h w3 polled.
  assert (Hs1 : schedulerInterval w1 = None)
    by (unfold w1; now rewrite startScheduler_eval).
  assert (Ht1 : exists rest, timers w1 =
                  (h, AlignmentTimeout (msToNextMinute (timeAt w 0))) :: rest
                /\ nextHandle w1 = S h).
  { unfold w1. rewrite startScheduler_eval. simpl.
    eexists. split; reflexivity. }
  destruct Ht1 as (rest & Ht1 & Hn1).
  assert (E2 : stopScheduler w1 = (Ok tt, w1)) by now apply stopScheduler_idle.
  assert (W2 : w2 = w1) by (unfold w2; now rewrite E2).
  split; [now rewrite E2|]. split; [exact W2|].
  split; [now rewrite W2|].
  assert (Hf : findTimer h (timers w2) =
               Some (AlignmentTimeout (msToNextMinute (timeAt w 0)))).
  { rewrite W2, Ht1. apply findTimer_head. }
  split; [exact Hf|].
  assert (Hn2 : nextHandle w2 = S h) by now rewrite W2.
  assert (E3 : fireTimer h w2 =
               (Ok tt,
                with_schedulerInterval (Some (S h))
                  (with_timers ((S h, PollInterval (60 * 1000)) :: timers polled)
                     (S (S h)) polled))).
  { unfold fireTimer. unfold bind at 1. unfold gets. rewrite Hf.
    unfold bind at 1. unfold modify at 1.
    unfold alignmentCallback. unfold bind at 1. rewrite notAwaited_tick.
    fold polled. unfold setInterval. run.
    destruct (tick_timers
                (with_timers (removeTimer h (timers w2)) (nextHandle w2) w2))
      as (_ & Hh & _).
    fold polled in Hh. simpl in Hh. rewrite Hh, Hn2. reflexivity. }
  assert (W3 : w3 = with_schedulerInterval (Some (S h))
                 (with_timers ((S h, PollInterval (60 * 1000)) :: timers polled)
                    (S (S h)) polled))
    by (unfold w3; now rewrite E3).
  split; [exact W3|]. split; [now rewrite W3|].
  assert (Hf3 : findTimer (S h) (timers w3) = Some (PollInterval (60 * 1000))).
  { rewrite W3. simpl. apply findTimer_head. }
  split; [exact Hf3|].
  unfold fireTimer. unfold bind at 1. unfold gets. rewrite Hf3.
  apply notAwaited_tick.
Qed.

End Timers.

Section TimersExamples.

#[local] Existing Instance everyMinute.
#[local] Existing Instance decimalDates.
#[local] Existing Instance utcDates.

(** A due task in a manager whose scheduler was started and then stopped
    before the minute boundary: the alignment timeout fires and the task is
    handed to the Executor. *)
Lemma stopped_scheduler_still_dispatches :
  let w := worldWith 299000 None
             [sampleTask "t1" true ScopeGlobal None (Some 240000)] in
  let w2 := snd (stopScheduler (snd (startScheduler alwaysResolves w))) in
  let w3 := snd (fireTimer 0 w2) in
  timers w2 = [(0%nat, AlignmentTimeout 1000)] /\
  dispatchCount "t1" w2 w3 = 1%nat /\
  schedulerInterval w3 = Some 1%nat /\
  timers w3 = [(1%nat, PollInterval 60000)].
Proof.
  intros w w2 w3. repeat split; vm_compute; reflexivity.
Qed.

End TimersExamples.

(** ** The map invariant is kept by the manager *)

Section MapInvariant.

Context {cron : CronParser} {codec : DateCodec} {localDate : LocalDate}.

Lemma updatedTask_id u w now t : id (updatedTask u w now t) = id t.
Proof.
  unfold updatedTask.
  destruct (up_name u), (up_cronExpression u), (up_prompt u), (up_enabled u),
    (up_agent u), (up_model u), (up_scope u), (up_promptSource u),
    (up_promptPath u); reflexivity.
Qed.

Lemma wellKeyed_get k t m : wellKeyed m -> TaskMap.get k m = Some t -> k = id t.
Proof.
  intros [_ Hid] Hget. apply TaskMapFacts.get_In in Hget.
  rewrite Forall_forall in Hid. exact (Hid (k, t) Hget).
Qed.

Lemma createTask_wellKeyed input w :
  wellKeyed (tasks w) -> wellKeyed (tasks (snd (createTask input w))).
Proof.
  intros Hw. destruct (validates (in_cronExpression input) w) eqn:Hv.
  - rewrite (createTask_eval input w Hv). simpl. rewrite persist_tasks. simpl.
    now apply set_wellKeyed.
  - destruct (createTask_invalid input w Hv) as (_ & (E & _) & _). now rewrite E.
Qed.

(** Every operation of the store, and every change of the host, keeps the
    keys distinct and equal to the ids. *)
Lemma runOp_wellKeyed op w :
  wellKeyed (tasks w) -> wellKeyed (tasks (snd (runOp op w))).
Proof.
  intros Hw. destruct op as [input | tid updates | tid | tid | c folder]; simpl.
  - rewrite (snd_bind_pure (createTask input) (fun _ => tt)).
    now apply createTask_wellKeyed.
  - rewrite (snd_bind_pure (updateTask tid updates) (fun _ => tt)).
    destruct (TaskMap.get tid (tasks w)) as [t|] eqn:Hget.
    + pose proof (wellKeyed_get tid t _ Hw Hget) as Hk.
      destruct (checksCron updates) eqn:Hc;
        [destruct (validates (cronOf updates) w) eqn:Hv|].
      * rewrite (updateTask_eval tid updates t w Hget) by (intros _; exact Hv).
        simpl. rewrite persist_tasks. simpl.
        apply set_wellKeyed; auto. now rewrite updatedTask_id.
      * destruct (updateTask_invalid tid updates t w Hget Hc Hv) as (_ & (E & _) & _).
        now rewrite E.
      * rewrite (updateTask_eval tid updates t w Hget)
          by (rewrite Hc; discriminate).
        simpl. rewrite persist_tasks. simpl.
        apply set_wellKeyed; auto. now rewrite updatedTask_id.
    + now rewrite (updateTask_missing tid updates w Hget).
  - rewrite (snd_bind_pure (toggleTask tid) (fun _ => tt)).
    destruct (TaskMap.get tid (tasks w)) as [t|] eqn:Hget.
    + pose proof (wellKeyed_get tid t _ Hw Hget) as Hk.
      rewrite (toggleTask_eval tid t w Hget). simpl. rewrite persist_tasks.
      simpl. apply set_wellKeyed; auto. now destruct (enabled t).
    + now rewrite (toggleTask_missing tid w Hget).
  - rewrite (snd_bind_pure (duplicateTask tid) (fun _ => tt)).
    destruct (TaskMap.get tid (tasks w)) as [t|] eqn:Hget.
    + rewrite (duplicateTask_eval tid t w Hget).
      rewrite (snd_bind_pure (createTask (duplicateInput t)) Some).
      now apply createTask_wellKeyed.
    + now rewrite (duplicateTask_missing tid w Hget).
  - exact Hw.
Qed.

Lemma runOps_wellKeyed ops w :
  wellKeyed (tasks w) -> wellKeyed (tasks (runOps ops w)).
Proof.
  revert w. induction ops as [|op r IH]; intros w Hw; simpl; auto.
  apply IH. now apply runOp_wellKeyed.
Qed.

Lemma forEach_loadTask_wellKeyed raws w :
  wellKeyed (tasks w) ->
  fst (forEach raws loadTask w) = Ok tt /\
  wellKeyed (tasks (snd (forEach raws loadTask w))).
Proof.
  revert w. induction raws as [|raw r IH]; intros w Hw; simpl; auto.
  unfold bind. rewrite loadTask_eval. apply IH. simpl.
  now apply set_wellKeyed.
Qed.

(** A new manager is well keyed, whatever the durable store holds. *)
Lemma construct_wellKeyed w :
  fst (construct w) = Ok tt /\ wellKeyed (tasks (snd (construct w))).
Proof.
  unfold construct, loadTasks. run.
  apply forEach_loadTask_wellKeyed. simpl. split; constructor.
Qed.

End MapInvariant.

(** ** Deleting *)

Section Delete.

Context {cron : CronParser} {codec : DateCodec} {localDate : LocalDate}.

Lemma with_tasks_same w : with_tasks (tasks w) w = w.
Proof. now destruct w. Qed.

Lemma delete_absent {V} k (m : TaskMap.t V) :
  TaskMap.get k m = None -> TaskMap.delete k m = m.
Proof.
  induction m as [|[k' v'] r IH]; simpl; auto.
  destruct (String.eqb k k'); [discriminate|]. intros H. now rewrite IH.
Qed.

Lemma get_delete_other {V} k k' (m : TaskMap.t V) :
  k <> k' -> TaskMap.get k (TaskMap.delete k' m) = TaskMap.get k m.
Proof.
  intros Hne. induction m as [|[k0 v0] r IH]; simpl; auto.
  destruct (String.eqb k' k0) eqn:E; simpl.
  - apply String.eqb_eq in E. subst k0.
    apply String.eqb_neq in Hne. now rewrite Hne.
  - now rewrite IH.
Qed.

Lemma get_delete_same {V} k (m : TaskMap.t V) :
  NoDup (TaskMap.keys m) -> TaskMap.get k (TaskMap.delete k m) = None.
Proof.
  induction m as [|[k0 v0] r IH]; simpl; auto.
  intros Hnd. inversion Hnd as [|? ? Hnot Hnd']; subst.
  destruct (String.eqb k k0) eqn:E; simpl.
  - apply String.eqb_eq in E. subst k0. now apply TaskMapFacts.get_None_keys.
  - rewrite E. auto.
Qed.

Lemma delete_keys_incl {V} k (m : TaskMap.t V) x :
  In x (TaskMap.keys (TaskMap.delete k m)) -> In x (TaskMap.keys m).
Proof.
  induction m as [|[k0 v0] r IH]; simpl; auto.
  destruct (String.eqb k k0); simpl; intuition.
Qed.

Lemma delete_NoDup {V} k (m : TaskMap.t V) :
  NoDup (TaskMap.keys m) -> NoDup (TaskMap.keys (TaskMap.delete k m)).
Proof.
  induction m as [|[k0 v0] r IH]; simpl; auto.
  intros Hnd. inversion Hnd as [|? ? Hnot Hnd']; subst.
  destruct (String.eqb k k0); simpl; auto.
  constructor; auto. intros Hin. apply Hnot. eapply delete_keys_incl; eauto.
Qed.

Lemma delete_Forall {V} (P : string * V -> Prop) k m :
  Forall P m -> Forall P (TaskMap.delete k m).
Proof.
  intros H. induction H as [|[k0 v0] r Hx Hr IH]; simpl; auto.
  destruct (String.eqb k k0); auto.
Qed.

Lemma delete_wellKeyed k m : wellKeyed m -> wellKeyed (TaskMap.delete k m).
Proof.
  intros [Hnd Hid]. split; [now apply delete_NoDup | now apply delete_Forall].
Qed.

Lemma delete_set_fresh {V} k (v : V) m :
  TaskMap.get k m = None -> TaskMap.delete k (TaskMap.set k v m) = m.
Proof.
  induction m as [|[k0 v0] r IH]; simpl.
  - now rewrite String.eqb_refl.
  - destruct (String.eqb k k0) eqn:E; [discriminate|].
    intros H. simpl. rewrite E. now rewrite IH.
Qed.

Lemma deleteTask_eval tid w :
  deleteTask tid w =
  match TaskMap.get tid (tasks w) with
  | Some _ => (Ok true, persist (with_tasks (TaskMap.delete tid (tasks w)) w))
  | None => (Ok false, w)
  end.
Proof.
  unfold deleteTask, TaskMap.has. run.
  destruct (TaskMap.get tid (tasks w)) eqn:E.
  - unfold bind. rewrite saveTasks_eval. reflexivity.
  - simpl. rewrite (delete_absent _ _ E). now rewrite with_tasks_same.
Qed.

(** X1.  [deleteTask] on an id that is stored answers true, removes that
    entry and no other, keeps the order of the rest, and persists the
    collection that is left; on an id that is not stored it answers false
    and changes nothing, without persisting or notifying. *)
Theorem deleteTask_outcome (w : World) (tid : string) :
  (TaskMap.get tid (tasks w) = None -> deleteTask tid w = (Ok false, w)) /\
  (forall t, wellKeyed (tasks w) -> TaskMap.get tid (tasks w) = Some t ->
     let r := deleteTask tid w in
     fst r = Ok true /\
     tasks (snd r) = TaskMap.delete tid (tasks w) /\
     TaskMap.get tid (tasks (snd r)) = None /\
     (forall k, k <> tid ->
        TaskMap.get k (tasks (snd r)) = TaskMap.get k (tasks w)) /\
     List.length (tasks (snd r)) = pred (List.length (tasks w)) /\
     wellKeyed (tasks (snd r)) /\
     inSync (snd r) /\ stateUpdates (snd r) = S (stateUpdates w) /\
     ~ In (toJSON t) (globalState (snd r))).
Proof.
  split.
  - intros H. rewrite deleteTask_eval. now rewrite H.
  - intros t Hw Hget r. unfold r. rewrite deleteTask_eval, Hget. simpl.
    match goal with |- context [persist ?x] =>
      destruct (persist_written x) as [E1 E2] end.
    rewrite persist_tasks. simpl in *.
    split; [reflexivity|]. split; [reflexivity|].
    split; [apply get_delete_same, Hw|].
    split; [intros k Hk; now apply get_delete_other|].
    split.
    { clear E1 E2. revert Hget. generalize (tasks w). intros m.
      induction m as [|[k0 v0] r0 IH]; simpl; [discriminate|].
      destruct (String.eqb tid k0); [reflexivity|].
      intros H. simpl. rewrite (IH H).
      destruct r0; [discriminate | reflexivity]. }
    split; [now apply delete_wellKeyed|].
    split; [unfold inSync; now rewrite E1, persist_tasks|].
    split; [exact E2|].
    rewrite E1. intros Hin. apply in_map_iff in Hin as (t' & Hj & Hin).
    assert (Hid : id t' = id t).
    { unfold toJSON in Hj. now injection Hj. }
    unfold TaskMap.values in Hin. apply in_map_iff in Hin as ([k' t''] & Hs & Hin).
    simpl in Hs. subst t''. simpl in Hin.
    pose proof (delete_wellKeyed tid _ Hw) as Hw'.
    pose proof (TaskMapFacts.In_get _ _ _ (proj1 Hw') Hin) as Hg.
    pose proof (wellKeyed_get _ _ _ Hw' Hg) as Hk'.
    pose proof (wellKeyed_get _ _ _ Hw Hget) as Hk.
    assert (Hk2 : k' = tid) by congruence. rewrite Hk2 in Hg.
    rewrite (get_delete_same tid (tasks w) (proj1 Hw)) in Hg. discriminate.
Qed.

End Delete.

Section DeleteExamples.

#[local] Existing Instance everyMinute.
#[local] Existing Instance decimalDates.
#[local] Existing Instance utcDates.

Lemma deleteTask_outcome_witness :
  fst (deleteTask "a" failingWorld) = Ok true /\
  TaskMap.keys (tasks (snd (deleteTask "a" failingWorld))) = ["b"] /\
  deleteTask "zz" failingWorld = (Ok false, failingWorld).
Proof.
  assert (Hw : wellKeyed (tasks failingWorld)) by wellKeyed_by_computation.
  destruct (deleteTask_outcome failingWorld "a") as [_ H].
  destruct (H taskA Hw eq_refl) as (H1 & H2 & _).
  destruct (deleteTask_outcome failingWorld "zz") as [H3 _].
  split; [exact H1|]. split; [rewrite H2; reflexivity|].
  apply H3. reflexivity.
Defined.

End DeleteExamples.

(** ** Creating, looking up, deleting *)

Section CreateLookup.

Context {cron : CronParser} {codec : DateCodec} {localDate : LocalDate}.

Lemma createTask_host input w :
  validates (in_cronExpression input) w = true ->
  config (snd (createTask input w)) = config w /\
  workspaceFolder (snd (createTask input w)) = workspaceFolder w /\
  onExecuteCallback (snd (createTask input w)) = onExecuteCallback w /\
  clock (snd (createTask input w)) = clock w /\
  clockReads (snd (createTask input w)) = (3 + clockReads w)%nat.
Proof.
  intros Hv. rewrite (createTask_eval input w Hv). simpl.
  match goal with |- context [persist ?x] =>
    destruct (persist_host x) as (a & b & c & d & e) end.
  rewrite a, b, c, d, e. repeat split.
Qed.

(** X2.  A [createTask] whose expression validates returns the task it
    stored: [getTask] on its id gives it back, the collection persisted is
    the collection in memory, and the map stays well keyed.  The task is
    enabled unless the input says [enabled: false], has no [lastRun] and the
    same [createdAt] and [updatedAt].  When the generated id is new to the
    map, the task is appended after the existing ones, which are left as
    they are, and [deleteTask] on its id gives the former map back. *)
Theorem createTask_stores (w : World) (input : CreateTaskInput) :
  validates (in_cronExpression input) w = true ->
  let r := createTask input w in
  exists task,
    fst r = Ok task /\
    getTask (id task) (snd r) = (Ok (Some task), snd r) /\
    (exists l, fst (getAllTasks (snd r)) = Ok l /\ In task l) /\
    inSync (snd r) /\ stateUpdates (snd r) = S (stateUpdates w) /\
    (wellKeyed (tasks w) -> wellKeyed (tasks (snd r))) /\
    enabled task = negb (match in_enabled input with
                         | Some false => true | _ => false end) /\
    lastRun task = None /\ createdAt task = updatedAt task /\
    name task = in_name input /\
    cronExpression task = in_cronExpression input /\
    (TaskMap.get (id task) (tasks w) = None ->
     tasks (snd r) = (tasks w ++ [(id task, task)])%list /\
     (forall k t, TaskMap.get k (tasks w) = Some t ->
                  TaskMap.get k (tasks (snd r)) = Some t) /\
     tasks (snd (deleteTask (id task) (snd r))) = tasks w).
Proof.
  intros Hv r. pose proof (createTask_wellKeyed input w) as Hwk.
  unfold r in *. rewrite (createTask_eval input w Hv) in *. simpl in *.
  set (task := createdTask input w) in *.
  match goal with |- context [persist ?x] =>
    destruct (persist_written x) as [E1 E2]; set (w1 := x) in * end.
  assert (Ht : tasks (persist w1) = TaskMap.set (id task) task (tasks w))
    by (rewrite persist_tasks; reflexivity).
  assert (Hg : TaskMap.get (id task) (tasks (persist w1)) = Some task)
    by (rewrite Ht; apply TaskMapFacts.get_set_same).
  exists task. split; [reflexivity|].
  split; [unfold getTask, gets; now rewrite Hg|].
  split.
  { exists (TaskMap.values (tasks (persist w1))). split; [reflexivity|].
    eapply get_values; eauto. }
  split; [unfold inSync; now rewrite E1, persist_tasks|].
  split; [exact E2|]. split; [exact Hwk|].
  split; [unfold task, createdTask; simpl; now destruct (in_enabled input) as [[|]|]|].
  do 4 (split; [reflexivity|]).
  intros Hfresh. change (TaskMap.get (id task) (tasks w) = None) in Hfresh.
  assert (Happ : tasks (persist w1) = (tasks w ++ [(id task, task)])%list)
    by (rewrite Ht; now apply TaskMapFacts.set_absent).
  split; [exact Happ|]. split.
  - intros k t Hk. rewrite Ht. rewrite TaskMapFacts.get_set_other; auto.
    intros E. rewrite E in Hk. congruence.
  - rewrite deleteTask_eval, Hg. simpl. rewrite persist_tasks. simpl.
    rewrite Ht. now apply delete_set_fresh.
Qed.

End CreateLookup.

Section CreateLookupExamples.

#[local] Existing Instance everyMinute.
#[local] Existing Instance decimalDates.
#[local] Existing Instance utcDates.

Lemma createTask_stores_witness :
  exists task,
    fst (createTask workspaceInput dueWorld) = Ok task /\
    TaskMap.keys (tasks (snd (createTask workspaceInput dueWorld))) =
      ["t1"; id task] /\
    tasks (snd (deleteTask (id task) (snd (createTask workspaceInput dueWorld)))) =
      tasks dueWorld.
Proof.
  assert (Hv : validates (in_cronExpression workspaceInput) dueWorld = true)
    by (vm_compute; reflexivity).
  destruct (createTask_stores dueWorld workspaceInput Hv)
    as (task & Hr & _ & _ & _ & _ & _ & _ & _ & _ & _ & _ & Hfresh).
  assert (Hid : id task = "task_300009_abc123").
  { assert (E : fst (createTask workspaceInput dueWorld) =
                Ok (createdTask workspaceInput dueWorld))
      by (vm_compute; reflexivity).
    rewrite E in Hr. injection Hr as <-. vm_compute. reflexivity. }
  destruct Hfresh as (Happ & _ & Hdel).
  { rewrite Hid. vm_compute. reflexivity. }
  exists task. split; [exact Hr|]. split; [|exact Hdel].
  rewrite Happ. unfold TaskMap.keys. rewrite map_app. reflexivity.
Defined.

End CreateLookupExamples.

(** ** The first run in one minute *)

Section FirstRun.

Context {cron : CronParser} {codec : DateCodec} {localDate : LocalDate}.

(** X3.  A task created with [runFirstInOneMinute] gets as [nextRun] the
    time of its creation plus sixty seconds, whatever its cron expression.
    If it is enabled and global, the poll step right after the creation
    hands it to the Executor once exactly when scheduling is switched on, an
    Executor is bound and the minute of the poll has reached the minute of
    that [nextRun], and not at all otherwise.  Whenever scheduling is on
    and the minute is reached, with or without an Executor, the poll step
    stamps [lastRun] and moves [nextRun] to what the expression gives from
    the time of the poll; otherwise it leaves the task as created. *)
Theorem createTask_runFirstInOneMinute (w : World) (input : CreateTaskInput) :
  validates (in_cronExpression input) w = true ->
  isTrue (in_runFirstInOneMinute input) = true ->
  in_enabled input <> Some false ->
  in_scope input = Some ScopeGlobal ->
  wellKeyed (tasks w) ->
  let created := timeAt w 1 in
  let w1 := snd (createTask input w) in
  let polled := timeAt w 3 in
  let w2 := snd (checkAndExecuteTasks w1) in
  let reached := truncMinute (created + 60 * 1000) <= truncMinute polled in
  exists task,
    fst (createTask input w) = Ok task /\
    nextRun task = Some (created + 60 * 1000) /\
    (dispatchCount (id task) w1 w2 = 1%nat <->
     cfg_enabled (config w) = true /\ onExecuteCallback w <> None /\ reached) /\
    (dispatchCount (id task) w1 w2 = 0%nat <->
     ~ (cfg_enabled (config w) = true /\ onExecuteCallback w <> None /\
        reached)) /\
    (cfg_enabled (config w) = true -> reached ->
     exists task',
       TaskMap.get (id task) (tasks w2) = Some task' /\
       lastRun task' = Some polled /\
       nextRun task' =
         nextOccurrence (in_cronExpression input) polled (timeZoneOf w)) /\
    (cfg_enabled (config w) = false \/ ~ reached ->
     TaskMap.get (id task) (tasks w2) = Some task).
Proof.
  intros Hv Hr He Hs Hw created w1 polled w2 reached.
  destruct (createTask_host input w Hv) as (Ec & Efo & Ecb & Eclk & Erd).
  pose proof (createTask_wellKeyed input w Hw) as Hw1. fold w1 in Hw1.
  set (task := createdTask input w).
  assert (Hres : fst (createTask input w) = Ok task)
    by (rewrite (createTask_eval input w Hv); reflexivity).
  assert (Hget : TaskMap.get (id task) (tasks w1) = Some task).
  { unfold w1. rewrite (createTask_eval input w Hv). simpl.
    rewrite persist_tasks. simpl. apply TaskMapFacts.get_set_same. }
  assert (Hnr : nextRun task = Some (created + 60 * 1000))
    by (unfold task, createdTask; simpl; now rewrite Hr).
  assert (Hpoll : timeAt w1 0 = polled).
  { unfold timeAt, polled, w1. rewrite Eclk, Erd. reflexivity. }
  assert (Hen : enabled task = true).
  { unfold task, createdTask. simpl.
    destruct (in_enabled input) as [[|]|]; auto. }
  assert (Hsc : scope task = ScopeGlobal)
    by (unfold task, createdTask; simpl; now rewrite Hs).
  assert (Hdue : isDue (workspaceFolder w1) (timeAt w1 0) task =
                 (truncMinute (created + 60 * 1000) <=? truncMinute polled)).
  { unfold isDue, eligible. now rewrite Hen, Hnr, Hsc, Hpoll. }
  assert (Hcnt : dispatchCount (id task) w1 w2 =
                 match onExecuteCallback w, cfg_enabled (config w) with
                 | Some _, true =>
                     if truncMinute (created + 60 * 1000) <=? truncMinute polled
                     then 1%nat else 0%nat
                 | _, _ => 0%nat
                 end).
  { unfold w2. rewrite tick_dispatchCount by assumption.
    fold w1. rewrite Hget. unfold w1 at 1 2. rewrite Ecb, Ec.
    now rewrite Hdue. }
  assert (Hc1 : cfg_enabled (config w1) = cfg_enabled (config w))
    by (unfold w1; now rewrite Ec).
  exists task. split; [exact Hres|]. split; [exact Hnr|].
  unfold reached.
  split; [|split; [|split]].
  - rewrite Hcnt.
    destruct (onExecuteCallback w) as [f|], (cfg_enabled (config w));
      try (split; [discriminate | intros (? & ? & ?); congruence]).
    destruct (_ <=? _) eqn:E.
    + apply Z.leb_le in E. split; auto. intros _.
      split; [reflexivity|]. split; [discriminate | exact E].
    + apply Z.leb_gt in E. split; [discriminate|]. intros (_ & _ & H). lia.
  - rewrite Hcnt.
    destruct (onExecuteCallback w) as [f|], (cfg_enabled (config w));
      try (split; [intros _ (? & ? & ?); congruence | reflexivity]).
    destruct (_ <=? _) eqn:E.
    + apply Z.leb_le in E. split; [discriminate|]. intros H. exfalso.
      apply H. split; [reflexivity|]. split; [discriminate | exact E].
    + apply Z.leb_gt in E. split; auto. intros _ (_ & _ & H). lia.
  - intros Hc Hle. exists (fired (timeZoneOf w1) (timeAt w1 0) task).
    split.
    + unfold w2. rewrite (tick_get w1 (id task) task); auto.
      * rewrite Hdue. apply Z.leb_le in Hle. now rewrite Hle.
      * now rewrite Hc1.
    + rewrite Hpoll. split; [reflexivity|]. simpl.
      unfold timeZoneOf, w1. now rewrite Ec.
  - intros [Hc | Hn].
    + unfold w2. rewrite tick_eval, Hc1, Hc. exact Hget.
    + unfold w2. apply tick_get_any; auto.
      rewrite Hdue. apply Z.leb_gt. lia.
Qed.

End FirstRun.

Section FirstRunExamples.

#[local] Existing Instance everyMinute.
#[local] Existing Instance decimalDates.
#[local] Existing Instance utcDates.

Lemma createTask_runFirstInOneMinute_witness :
  exists task,
    fst (createTask soonInput dueWorld) = Ok task /\
    nextRun task = Some 360008 /\
    dispatchCount (id task) (snd (createTask soonInput dueWorld))
      (snd (checkAndExecuteTasks (snd (createTask soonInput dueWorld)))) = 0%nat.
Proof.
  assert (Hw : wellKeyed (tasks dueWorld)) by wellKeyed_by_computation.
  assert (Hne : in_enabled soonInput <> Some false) by discriminate.
  assert (Hv : validates (in_cronExpression soonInput) dueWorld = true)
    by (vm_compute; reflexivity).
  destruct (createTask_runFirstInOneMinute dueWorld soonInput
              Hv eq_refl Hne eq_refl Hw)
    as (task & Hr & Hn & _ & H0 & _).
  exists task. split; [exact Hr|]. split; [exact Hn|].
  apply H0. intros (_ & _ & H). vm_compute in H. apply H. reflexivity.
Defined.

End FirstRunExamples.

(** ** Unknown ids *)

Section UnknownId.

Context {cron : CronParser} {codec : DateCodec} {localDate : LocalDate}.

(** X4.  Every method that takes an id does nothing on an id that is not
    in the map: [getTask], [updateTask], [toggleTask] and [duplicateTask]
    answer [undefined], [deleteTask] and [runTaskNow] answer false, none of
    them throws, and the world is left exactly as it was.  [updateTask]
    answers [undefined] even when the expression of its input is malformed:
    the id is looked up before the expression is validated. *)
Theorem unknown_id_changes_nothing (w : World) (tid : string)
    (updates : PartialInput) :
  TaskMap.get tid (tasks w) = None ->
  getTask tid w = (Ok None, w) /\
  updateTask tid updates w = (Ok None, w) /\
  toggleTask tid w = (Ok None, w) /\
  duplicateTask tid w = (Ok None, w) /\
  deleteTask tid w = (Ok false, w) /\
  runTaskNow tid w = (Ok false, w).
Proof.
  intros H.
  split; [unfold getTask, gets; now rewrite H|].
  split; [now apply updateTask_missing|].
  split; [now apply toggleTask_missing|].
  split; [now apply duplicateTask_missing|].
  split; [rewrite deleteTask_eval; now rewrite H|].
  apply runTaskNow_missing. now left.
Qed.

End UnknownId.

Section UnknownIdExamples.

#[local] Existing Instance everyMinute.
#[local] Existing Instance decimalDates.
#[local] Existing Instance utcDates.

Lemma unknown_id_changes_nothing_witness :
  updateTask "zz" (onlyCron "not a cron") dueWorld = (Ok None, dueWorld).
Proof.
  destruct (unknown_id_changes_nothing dueWorld "zz" (onlyCron "not a cron")
              eq_refl) as (_ & H & _).
  exact H.
Defined.

End UnknownIdExamples.

(** ** What [updateTask] writes *)

Section UpdateFields.

Context {cron : CronParser} {codec : DateCodec} {localDate : LocalDate}.

Lemma updatedTask_fields u w now t :
  let t' := updatedTask u w now t in
  id t' = id t /\ createdAt t' = createdAt t /\ lastRun t' = lastRun t /\
  updatedAt t' = now /\
  name t' = match up_name u with Some v => v | None => name t end /\
  prompt t' = match up_prompt u with Some v => v | None => prompt t end /\
  enabled t' = match up_enabled u with Some v => v | None => enabled t end /\
  agent t' = match up_agent u with Some v => Some v | None => agent t end /\
  model t' = match up_model u with Some v => Some v | None => model t end /\
  promptSource t' =
    match up_promptSource u with Some v => v | None => promptSource t end /\
  promptPath t' =
    match up_promptPath u with Some v => Some v | None => promptPath t end /\
  cronExpression t' =
    match up_cronExpression u with Some v => v | None => cronExpression t end /\
  nextRun t' =
    match up_cronExpression u with
    | Some v => nextOccurrence v now (timeZoneOf w)
    | None => nextRun t
    end.
Proof.
  unfold updatedTask.
  destruct (up_name u), (up_cronExpression u), (up_prompt u), (up_enabled u),
    (up_agent u), (up_model u), (up_scope u), (up_promptSource u),
    (up_promptPath u); simpl; repeat split; reflexivity.
Qed.

(** X5.  An [updateTask] that goes through writes the fields its input
    gives and [updatedAt], and nothing else: the id, [createdAt] and
    [lastRun] of the task stay, each of the name, prompt, enabled flag,
    expression, agent, model, scope, prompt source and prompt path takes
    the value the input gives and keeps its own when the input leaves it
    out, and the other tasks and the order of the map are untouched.
    [workspacePath] is written with the scope and only then: it becomes the
    folder of the host for the scope workspace and nothing for the scope
    global.  [nextRun] is recomputed from the time of the call when the
    input gives an expression, and only then: enabling a task through
    [updateTask] leaves its former [nextRun] in place. *)
Theorem updateTask_writes_given_fields (w : World) (tid : string)
    (updates : PartialInput) (t : ScheduledTask) :
  TaskMap.get tid (tasks w) = Some t ->
  (checksCron updates = true -> validates (cronOf updates) w = true) ->
  let r := updateTask tid updates w in
  let now := timeAt w (if checksCron updates then 1 else 0) in
  exists t',
    fst r = Ok (Some t') /\
    TaskMap.get tid (tasks (snd r)) = Some t' /\
    TaskMap.keys (tasks (snd r)) = TaskMap.keys (tasks w) /\
    (forall k, k <> tid ->
       TaskMap.get k (tasks (snd r)) = TaskMap.get k (tasks w)) /\
    inSync (snd r) /\
    id t' = id t /\ createdAt t' = createdAt t /\ lastRun t' = lastRun t /\
    updatedAt t' = now /\
    name t' = match up_name updates with Some v => v | None => name t end /\
    prompt t' = match up_prompt updates with Some v => v | None => prompt t end /\
    enabled t' =
      match up_enabled updates with Some v => v | None => enabled t end /\
    cronExpression t' =
      match up_cronExpression updates with
      | Some v => v | None => cronExpression t end /\
    nextRun t' =
      match up_cronExpression updates with
      | Some v => nextOccurrence v now (timeZoneOf w)
      | None => nextRun t
      end /\
    agent t' =
      match up_agent updates with Some v => Some v | None => agent t end /\
    model t' =
      match up_model updates with Some v => Some v | None => model t end /\
    promptSource t' =
      match up_promptSource updates with
      | Some v => v | None => promptSource t end /\
    promptPath t' =
      match up_promptPath updates with
      | Some v => Some v | None => promptPath t end /\
    scope t' = match up_scope updates with Some v => v | None => scope t end /\
    workspacePath t' =
      match up_scope updates with
      | Some ScopeWorkspace => workspaceFolder w
      | Some ScopeGlobal => None
      | None => workspacePath t
      end.
Proof.
  intros Hget Hv r now. unfold r.
  rewrite (updateTask_eval tid updates t w Hget Hv). simpl. fold now.
  set (t' := updatedTask updates w now t).
  match goal with |- context [persist ?x] =>
    destruct (persist_written x) as [E1 _] end.
  rewrite persist_tasks. simpl.
  destruct (updatedTask_fields updates w now t)
    as (a1 & a2 & a3 & a4 & a5 & a6 & a7 & a8 & a9 & a10 & a11 & a12 & a13).
  destruct (updatedTask_scope updates w now t) as [a14 a15].
  exists t'. split; [reflexivity|].
  split; [apply TaskMapFacts.get_set_same|].
  split; [now apply (TaskMapFacts.set_present tid t' t)|].
  split; [intros k Hk; now apply TaskMapFacts.get_set_other|].
  split; [unfold inSync; now rewrite E1, persist_tasks|].
  repeat split; assumption.
Qed.

End UpdateFields.

Section UpdateFieldsExamples.

#[local] Existing Instance everyMinute.
#[local] Existing Instance decimalDates.
#[local] Existing Instance utcDates.

(** A disabled task with a [nextRun] long past is enabled through
    [updateTask]: the [nextRun] stays. *)
Lemma updateTask_writes_given_fields_witness :
  exists t',
    fst (updateTask "t1" (onlyEnabled true)
           (worldWith 300007 None
              [sampleTask "t1" false ScopeGlobal None (Some 60000)])) =
      Ok (Some t') /\
    enabled t' = true /\ nextRun t' = Some 60000.
Proof.
  destruct (updateTask_writes_given_fields
              (worldWith 300007 None
                 [sampleTask "t1" false ScopeGlobal None (Some 60000)])
              "t1" (onlyEnabled true)
              (sampleTask "t1" false ScopeGlobal None (Some 60000)) eq_refl)
    as (t' & Hr & _ & _ & _ & _ & _ & _ & _ & _ & _ & _ & He & _ & Hn & _).
  - discriminate.
  - exists t'. split; [exact Hr|]. split; [exact He | exact Hn].
Defined.

End UpdateFieldsExamples.

(** ** Listing by scope *)

Section ByScope.

Context {cron : CronParser} {codec : DateCodec} {localDate : LocalDate}.

(** X6.  [getTasksByScope] reads without changing anything and returns, in
    map order, exactly the stored tasks of the scope asked for: every stored
    task is in the list of its own scope and in no other, and the two lists
    together have as many tasks as [getAllTasks]. *)
Theorem getTasksByScope_partitions (w : World) :
  forall s,
    exists l,
      getTasksByScope s w = (Ok l, w) /\
      l = filter (fun t => TaskScope_eqb (scope t) s) (TaskMap.values (tasks w)) /\
      (forall t, In t l <-> In t (TaskMap.values (tasks w)) /\ scope t = s) /\
      (List.length
         (filter (fun t => TaskScope_eqb (scope t) ScopeGlobal)
            (TaskMap.values (tasks w))) +
       List.length
         (filter (fun t => TaskScope_eqb (scope t) ScopeWorkspace)
            (TaskMap.values (tasks w))))%nat =
      List.length (TaskMap.values (tasks w)).
Proof.
  intros s. eexists. split; [reflexivity|]. split; [reflexivity|]. split.
  - intros t. rewrite filter_In. split; intros [H1 H2]; split; auto.
    + destruct (scope t), s; simpl in H2; congruence.
    + rewrite H2. now destruct s.
  - induction (TaskMap.values (tasks w)) as [|t r IH]; simpl; auto.
    destruct (scope t); simpl; lia.
Qed.

End ByScope.

(** ** What a poll step writes *)

Section PollEffects.

Context {cron : CronParser} {codec : DateCodec} {localDate : LocalDate}.

Lemma keys_get {V} k (m : TaskMap.t V) :
  In k (TaskMap.keys m) -> exists v, TaskMap.get k m = Some v.
Proof.
  induction m as [|[k0 v0] r IH]; simpl; [tauto|].
  intros [-> | H].
  - rewrite String.eqb_refl. eauto.
  - destruct (String.eqb k k0); eauto.
Qed.

Lemma tickStep_keys now w e :
  In (fst e) (TaskMap.keys (tasks w)) ->
  TaskMap.keys (tasks (tickStep now w e)) = TaskMap.keys (tasks w).
Proof.
  intros Hin. rewrite tickStep_tasks. destruct (isDue _ _ _); auto.
  destruct (keys_get _ _ Hin) as [v Hv].
  now apply (TaskMapFacts.set_present _ _ v).
Qed.

Lemma fold_keys now es w :
  Forall (fun e => In (fst e) (TaskMap.keys (tasks w))) es ->
  TaskMap.keys (tasks (fold_left (tickStep now) es w)) = TaskMap.keys (tasks w).
Proof.
  revert w. induction es as [|e r IH]; intros w H; simpl; auto.
  inversion H as [|? ? He Hr]; subst.
  rewrite IH; rewrite (tickStep_keys now w e He); auto.
Qed.

Lemma persist_counts w :
  notifications (persist w) =
    (if onTasksChangedCallback w then S (notifications w) else notifications w) /\
  console (persist w) = console w.
Proof. unfold persist. destruct (onTasksChangedCallback w); split; reflexivity. Qed.

Lemma tickStep_counts now w e :
  stateUpdates (tickStep now w e) =
    (if isDue (workspaceFolder w) now (snd e)
     then S (stateUpdates w) else stateUpdates w) /\
  notifications (tickStep now w e) =
    (if (isDue (workspaceFolder w) now (snd e) && onTasksChangedCallback w)%bool
     then S (notifications w) else notifications w).
Proof.
  unfold tickStep. destruct (isDue _ _ _); [|split; reflexivity].
  match goal with |- context [persist ?x] =>
    destruct (persist_written x) as [_ E2];
    destruct (persist_counts x) as [E3 _]; rewrite E2, E3 end.
  simpl. destruct (executed_frame (snd e) w) as ((_ & _ & _ & a4 & _) & _ & _ & b & c).
  rewrite a4, b, c. split; reflexivity.
Qed.

Lemma fold_counts now es w :
  stateUpdates (fold_left (tickStep now) es w) =
    (stateUpdates w +
     List.length (filter (isDue (workspaceFolder w) now) (map snd es)))%nat /\
  notifications (fold_left (tickStep now) es w) =
    (notifications w +
     if onTasksChangedCallback w
     then List.length (filter (isDue (workspaceFolder w) now) (map snd es))
     else 0)%nat.
Proof.
  revert w. induction es as [|e r IH]; intros w; simpl;
    [split; [lia | destruct (onTasksChangedCallback w); lia]|].
  destruct (IH (tickStep now w e)) as [I1 I2]. rewrite I1, I2.
  destruct (tickStep_sameHost now w e) as (_ & Hfo & _ & Hcb & _).
  destruct (tickStep_counts now w e) as [C1 C2].
  rewrite Hfo, Hcb, C1, C2.
  destruct (isDue (workspaceFolder w) now (snd e)),
    (onTasksChangedCallback w); simpl; split; lia.
Qed.

Lemma fold_idle now es w :
  filter (isDue (workspaceFolder w) now) (map snd es) = [] ->
  fold_left (tickStep now) es w = w.
Proof.
  induction es as [|e r IH]; simpl; auto.
  destruct (isDue (workspaceFolder w) now (snd e)) eqn:E; [discriminate|].
  intros H. unfold tickStep at 2. rewrite E. auto.
Qed.

Lemma fired_sameDefinition tz now t : sameDefinition t (fired tz now t).
Proof. repeat split. Qed.

Lemma sameDefinition_refl t : sameDefinition t t.
Proof. repeat split. Qed.

(** X7.  A poll step adds no task, removes none and keeps the order of the
    map.  Of a stored task it writes [lastRun] and [nextRun] only, and only
    when the task is due; every other field of every task, and the run
    times of a task that is not due, are left as they were. *)
Theorem tick_writes_run_times_only (w : World) :
  wellKeyed (tasks w) ->
  let now := timeAt w 0 in
  let w' := snd (checkAndExecuteTasks w) in
  TaskMap.keys (tasks w') = TaskMap.keys (tasks w) /\
  forall k t,
    TaskMap.get k (tasks w) = Some t ->
    exists t',
      TaskMap.get k (tasks w') = Some t' /\
      sameDefinition t t' /\
      ((cfg_enabled (config w) = false \/
        isDue (workspaceFolder w) now t = false) -> t' = t) /\
      (cfg_enabled (config w) = true ->
       isDue (workspaceFolder w) now t = true ->
       lastRun t' = Some now /\
       nextRun t' = nextOccurrence (cronExpression t) now (timeZoneOf w)).
Proof.
  intros Hw now w'. split.
  - unfold w'. rewrite tick_eval. simpl.
    destruct (cfg_enabled (config w)); auto.
    rewrite fold_keys; auto. simpl. rewrite Forall_forall.
    intros e He. unfold TaskMap.keys. now apply in_map.
  - intros k t Hget. destruct (cfg_enabled (config w)) eqn:Hc.
    + unfold w'. rewrite (tick_get w k t) by assumption. fold now.
      destruct (isDue (workspaceFolder w) now t) eqn:Hd.
      * eexists. split; [reflexivity|].
        split; [apply fired_sameDefinition|]. split.
        -- intros [H | H]; discriminate.
        -- intros _ _. split; reflexivity.
      * exists t. split; [reflexivity|]. split; [apply sameDefinition_refl|].
        split; [reflexivity | discriminate].
    + exists t. unfold w'. rewrite tick_eval, Hc. simpl.
      split; [exact Hget|]. split; [apply sameDefinition_refl|].
      split; [reflexivity | discriminate].
Qed.

(** X8.  A poll step that runs with scheduling on reads the clock once and
    treats the due tasks one after the other in the order of the map: with an
    Executor bound each due task is handed to it once, in that order, and
    for each due task the whole collection is persisted once and the change
    callback, if one is registered, runs once. *)
Theorem tick_one_round_per_due_task (w : World) :
  cfg_enabled (config w) = true ->
  let now := timeAt w 0 in
  let w' := snd (checkAndExecuteTasks w) in
  let due := dueTasks w now in
  clockReads w' = S (clockReads w) /\
  stateUpdates w' = (stateUpdates w + List.length due)%nat /\
  notifications w' =
    (notifications w +
     if onTasksChangedCallback w then List.length due else 0)%nat /\
  (forall f, onExecuteCallback w = Some f -> rev (dispatched w w') = due) /\
  (onExecuteCallback w = None -> dispatched w w' = []).
Proof.
  intros Hc now w' due.
  assert (E : w' = fold_left (tickStep now) (tasks w) (clockRead w))
    by (unfold w'; rewrite tick_eval, Hc; reflexivity).
  destruct (fold_counts now (tasks w) (clockRead w)) as [C1 C2].
  split.
  { destruct (tick_sameHost w) as (_ & _ & _ & _ & H). fold w' in H.
    now rewrite Hc in H. }
  split; [rewrite E; exact C1|]. split; [rewrite E; exact C2|]. split.
  - intros f Hf.
    rewrite (dispatched_app w w' (rev due)); [apply rev_involutive|].
    rewrite E. now rewrite (fold_executions _ f).
  - intros Hf. apply dispatched_same. rewrite E.
    now rewrite fold_executions_unbound.
Qed.

(** X9.  A poll step writes nothing when scheduling is switched off, not
    even reading the clock, and nothing but the clock reading when no task
    is due: no task changes, nothing is persisted, no callback runs and no
    error is logged. *)
Theorem tick_idle (w : World) :
  (cfg_enabled (config w) = false -> checkAndExecuteTasks w = (Ok tt, w)) /\
  (cfg_enabled (config w) = true -> dueTasks w (timeAt w 0) = [] ->
   checkAndExecuteTasks w = (Ok tt, clockRead w)).
Proof.
  split; intros Hc.
  - now rewrite tick_eval, Hc.
  - intros Hd. rewrite tick_eval, Hc. f_equal. now apply fold_idle.
Qed.

End PollEffects.

Section PollEffectsExamples.

#[local] Existing Instance everyMinute.
#[local] Existing Instance decimalDates.
#[local] Existing Instance utcDates.

Lemma tick_writes_run_times_only_witness :
  TaskMap.keys (tasks (snd (checkAndExecuteTasks failingWorld))) = ["a"; "b"].
Proof.
  assert (Hw : wellKeyed (tasks failingWorld)) by wellKeyed_by_computation.
  destruct (tick_writes_run_times_only failingWorld Hw) as [H _].
  rewrite H. reflexivity.
Defined.

Lemma tick_one_round_per_due_task_witness :
  rev (dispatched failingWorld (snd (checkAndExecuteTasks failingWorld))) =
    [taskA; taskB] /\
  stateUpdates (snd (checkAndExecuteTasks failingWorld)) = 2%nat.
Proof.
  destruct (tick_one_round_per_due_task failingWorld eq_refl)
    as (_ & H2 & _ & H4 & _).
  split.
  - rewrite (H4 alwaysRejects eq_refl). vm_compute. reflexivity.
  - rewrite H2. vm_compute. reflexivity.
Defined.

Lemma tick_idle_witness :
  checkAndExecuteTasks pausedWorld = (Ok tt, pausedWorld) /\
  checkAndExecuteTasks repoBWorld = (Ok tt, clockRead repoBWorld).
Proof.
  destruct (tick_idle pausedWorld) as [H1 _].
  destruct (tick_idle repoBWorld) as [_ H2].
  split; [apply H1; reflexivity | apply H2; [reflexivity | vm_compute; reflexivity]].
Defined.

End PollEffectsExamples.

(** ** The life of the scheduler *)

Section SchedulerLife.

Context {cron : CronParser} {codec : DateCodec} {localDate : LocalDate}.

Lemma msToNextMinute_bounds now :
  0 < msToNextMinute now <= 60000 /\ (now + msToNextMinute now) mod 60000 = 0.
Proof.
  unfold msToNextMinute, getSeconds, getMilliseconds.
  pose proof (Z.mod_pos_bound now 1000 ltac:(lia)) as Hr.
  pose proof (Z.mod_pos_bound (now / 1000) 60 ltac:(lia)) as Hs.
  pose proof (Z.div_mod now 1000 ltac:(lia)) as Hn.
  pose proof (Z.div_mod (now / 1000) 60 ltac:(lia)) as Hq.
  split; [lia|].
  replace (now + ((60 - (now / 1000) mod 60) * 1000 - now mod 1000))
    with ((now / 1000 / 60 + 1) * 60000) by lia.
  apply Z_mod_mult.
Qed.

(** The timers after the three moves of the scheduler. *)
Lemma startScheduler_timers f w :
  let w' := snd (startScheduler f w) in
  fst (startScheduler f w) = Ok tt /\
  timers w' =
    (nextHandle w, AlignmentTimeout (msToNextMinute (timeAt w 0)))
      :: match schedulerInterval w with
         | Some h0 => removeTimer h0 (timers w)
         | None => timers w
         end /\
  nextHandle w' = S (nextHandle w) /\ schedulerInterval w' = None /\
  onExecuteCallback w' = Some f /\ tasks w' = tasks w /\
  globalState w' = globalState w /\ executions w' = executions w.
Proof. rewrite startScheduler_eval. simpl. repeat split. Qed.

Lemma stopScheduler_timers w :
  let w' := snd (stopScheduler w) in
  fst (stopScheduler w) = Ok tt /\
  timers w' =
    match schedulerInterval w with
    | Some h0 => removeTimer h0 (timers w)
    | None => timers w
    end /\
  nextHandle w' = nextHandle w /\ schedulerInterval w' = None /\
  tasks w' = tasks w /\ executions w' = executions w.
Proof.
  unfold stopScheduler, clearInterval. run.
  destruct (schedulerInterval w) eqn:E; simpl; repeat split; auto.
Qed.

Lemma fireTimer_alignment_eval h ms w :
  findTimer h (timers w) = Some (AlignmentTimeout ms) ->
  let polled :=
    snd (checkAndExecuteTasks
           (with_timers (removeTimer h (timers w)) (nextHandle w) w)) in
  fireTimer h w =
  (Ok tt,
   with_schedulerInterval (Some (nextHandle w))
     (with_timers
        ((nextHandle w, PollInterval (60 * 1000)) :: removeTimer h (timers w))
        (S (nextHandle w)) polled)).
Proof.
  intros Hf polled.
  destruct (tick_timers
              (with_timers (removeTimer h (timers w)) (nextHandle w) w))
    as (a & b & c).
  fold polled in a, b, c. simpl in a, b, c.
  unfold fireTimer. unfold bind at 1. unfold gets. rewrite Hf.
  unfold bind at 1. unfold modify at 1.
  unfold alignmentCallback. unfold bind at 1. rewrite notAwaited_tick.
  fold polled. unfold setInterval. run. rewrite a, b. reflexivity.
Qed.

Lemma fireTimer_alignment h ms w :
  findTimer h (timers w) = Some (AlignmentTimeout ms) ->
  let w' := snd (fireTimer h w) in
  fst (fireTimer h w) = Ok tt /\
  timers w' = (nextHandle w, PollInterval (60 * 1000)) :: removeTimer h (timers w) /\
  nextHandle w' = S (nextHandle w) /\ schedulerInterval w' = Some (nextHandle w) /\
  executions w' =
    executions (snd (checkAndExecuteTasks
                       (with_timers (removeTimer h (timers w)) (nextHandle w) w))).
Proof.
  intros Hf. rewrite (fireTimer_alignment_eval h ms w Hf). simpl. repeat split.
Qed.

Lemma fireTimer_poll h ms w :
  findTimer h (timers w) = Some (PollInterval ms) ->
  fireTimer h w = (Ok tt, snd (checkAndExecuteTasks w)).
Proof.
  intros Hf. unfold fireTimer. unfold bind at 1. unfold gets. rewrite Hf.
  apply notAwaited_tick.
Qed.

Lemma fireTimer_dead h w :
  findTimer h (timers w) = None -> fireTimer h w = (Ok tt, w).
Proof.
  intros Hf. unfold fireTimer. unfold bind at 1. unfold gets. now rewrite Hf.
Qed.

Lemma findTimer_other h h' t l :
  h <> h' -> findTimer h ((h', t) :: l) = findTimer h l.
Proof.
  intros Hne. unfold findTimer. simpl.
  destruct (Nat.eqb h' h) eqn:E; auto.
  apply Nat.eqb_eq in E. congruence.
Qed.

Lemma removeTimer_head h t l :
  removeTimer h ((h, t) :: l) = removeTimer h l.
Proof. unfold removeTimer. simpl. now rewrite Nat.eqb_refl. Qed.

Lemma removeTimer_other h h' t l :
  h <> h' -> removeTimer h ((h', t) :: l) = (h', t) :: removeTimer h l.
Proof.
  intros Hne. unfold removeTimer. simpl.
  destruct (Nat.eqb h' h) eqn:E; auto.
  apply Nat.eqb_eq in E. congruence.
Qed.

(** X10.  [startScheduler] registers one alignment timeout whose delay is
    between one millisecond and one minute and ends exactly on a minute
    boundary of the clock: started on a boundary, the first poll comes a
    full minute later.  It binds the Executor given and touches neither the
    tasks nor the durable store. *)
Theorem startScheduler_aligns_to_minute (w : World) (f : Executor) :
  let w' := snd (startScheduler f w) in
  let now := timeAt w 0 in
  exists ms,
    findTimer (nextHandle w) (timers w') = Some (AlignmentTimeout ms) /\
    0 < ms <= 60000 /\ (now + ms) mod 60000 = 0 /\
    (now mod 60000 = 0 -> ms = 60000) /\
    onExecuteCallback w' = Some f /\
    tasks w' = tasks w /\ globalState w' = globalState w /\
    executions w' = executions w.
Proof.
  intros w' now.
  destruct (startScheduler_timers f w) as (_ & Ht & _ & _ & Hcb & Hta & Hg & He).
  fold w' in Ht, Hcb, Hta, Hg, He.
  exists (msToNextMinute now). rewrite Ht.
  split; [apply findTimer_head|].
  destruct (msToNextMinute_bounds now) as [Hb Hm].
  split; [exact Hb|]. split; [exact Hm|].
  split; [|repeat split; assumption].
  intros Hz. unfold msToNextMinute, getSeconds, getMilliseconds.
  pose proof (Z.div_mod now 60000 ltac:(lia)) as Hn.
  assert (E : now = (now / 60000 * 60) * 1000) by lia.
  assert (Hr : now mod 1000 = 0) by (rewrite E; apply Z_mod_mult).
  assert (Hq : now / 1000 = now / 60000 * 60)
    by (rewrite E at 1; apply Z_div_mult; lia).
  assert (Hs : (now / 1000) mod 60 = 0) by (rewrite Hq; apply Z_mod_mult).
  rewrite Hr, Hs. lia.
Qed.

(** X11.  [startScheduler] on a manager that is polling cancels the
    recurring timer before it aligns again: the former interval is no longer
    live, firing its handle does nothing, and the manager holds no interval
    until the new alignment timeout fires. *)
Theorem startScheduler_cancels_running_interval (w : World) (f : Executor)
    (h0 : nat) :
  schedulerInterval w = Some h0 -> h0 <> nextHandle w ->
  let w' := snd (startScheduler f w) in
  findTimer h0 (timers w') = None /\
  fireTimer h0 w' = (Ok tt, w') /\
  schedulerInterval w' = None /\
  timers w' =
    (nextHandle w, AlignmentTimeout (msToNextMinute (timeAt w 0)))
      :: removeTimer h0 (timers w).
Proof.
  intros Hs Hne w'.
  destruct (startScheduler_timers f w) as (_ & Ht & _ & Hs' & _).
  fold w' in Ht, Hs'. rewrite Hs in Ht.
  assert (Hf : findTimer h0 (timers w') = None).
  { rewrite Ht, findTimer_other by assumption. apply findTimer_removed. }
  split; [exact Hf|]. split; [now apply fireTimer_dead|].
  split; [exact Hs' | exact Ht].
Qed.

(** X12.  The usual life of the scheduler ends cleanly.  On a manager
    without timers, [startScheduler], then the firing of the alignment
    timeout, then [stopScheduler] leave no live timer and no interval in the
    manager: the firing ran one poll step and registered the interval, the
    stop cancelled it, and no handle fires a poll step any more. *)
Theorem scheduler_stops_after_alignment (w : World) (f : Executor) :
  timers w = [] -> schedulerInterval w = None ->
  let h := nextHandle w in
  let w1 := snd (startScheduler f w) in
  let w2 := snd (fireTimer h w1) in
  let w3 := snd (stopScheduler w2) in
  timers w1 = [(h, AlignmentTimeout (msToNextMinute (timeAt w 0)))] /\
  timers w2 = [(S h, PollInterval (60 * 1000))] /\
  schedulerInterval w2 = Some (S h) /\
  timers w3 = [] /\ schedulerInterval w3 = None /\
  forall k, fireTimer k w3 = (Ok tt, w3).
Proof.
  intros Ht Hs h w1 w2 w3.
  destruct (startScheduler_timers f w) as (_ & Ht1 & Hn1 & Hs1 & _).
  fold w1 in Ht1, Hn1, Hs1. rewrite Hs, Ht in Ht1. fold h in Ht1, Hn1.
  assert (Hf1 : findTimer h (timers w1) =
                Some (AlignmentTimeout (msToNextMinute (timeAt w 0))))
    by (rewrite Ht1; apply findTimer_head).
  destruct (fireTimer_alignment h _ w1 Hf1) as (_ & Ht2 & Hn2 & Hs2 & _).
  fold w2 in Ht2, Hn2, Hs2.
  rewrite Ht1, removeTimer_head, Hn1 in Ht2. rewrite Hn1 in Hs2.
  change (removeTimer h []) with (@nil (nat * Timer)) in Ht2.
  destruct (stopScheduler_timers w2) as (_ & Ht3 & _ & Hs3 & _).
  fold w3 in Ht3, Hs3. rewrite Hs2, Ht2, removeTimer_head in Ht3.
  change (removeTimer (S h) []) with (@nil (nat * Timer)) in Ht3.
  split; [exact Ht1|]. split; [exact Ht2|]. split; [exact Hs2|].
  split; [exact Ht3|]. split; [exact Hs3|].
  intros k. apply fireTimer_dead. now rewrite Ht3.
Qed.

(** X13.  [startScheduler] called again while the first call is still
    aligning leaves two alignment timeouts live, because the first one is
    not recorded anywhere.  When both have fired, two recurring timers poll
    and the manager knows the second only: [stopScheduler] cancels that one,
    and the other goes on running poll steps. *)
Theorem startScheduler_twice_while_aligning (w : World) (f g : Executor) :
  timers w = [] -> schedulerInterval w = None ->
  let h := nextHandle w in
  let w1 := snd (startScheduler g (snd (startScheduler f w))) in
  let w2 := snd (fireTimer (S h) (snd (fireTimer h w1))) in
  let w3 := snd (stopScheduler w2) in
  List.length (timers w1) = 2%nat /\
  (exists ms, findTimer h (timers w1) = Some (AlignmentTimeout ms)) /\
  (exists ms, findTimer (S h) (timers w1) = Some (AlignmentTimeout ms)) /\
  timers w2 = [ (S (S (S h)), PollInterval (60 * 1000));
                (S (S h), PollInterval (60 * 1000)) ] /\
  schedulerInterval w2 = Some (S (S (S h))) /\
  timers w3 = [(S (S h), PollInterval (60 * 1000))] /\
  schedulerInterval w3 = None /\
  fireTimer (S (S h)) w3 = (Ok tt, snd (checkAndExecuteTasks w3)).
Proof.
  intros Ht Hs h w1 w2 w3.
  destruct (startScheduler_timers f w) as (_ & Ht0 & Hn0 & Hs0 & _).
  rewrite Hs, Ht in Ht0. fold h in Ht0, Hn0.
  set (w0 := snd (startScheduler f w)) in *.
  destruct (startScheduler_timers g w0) as (_ & Ht1 & Hn1 & Hs1 & _).
  fold w1 in Ht1, Hn1, Hs1. rewrite Hs0, Ht0, Hn0 in Ht1. rewrite Hn0 in Hn1.
  assert (Hne : h <> S h) by lia.
  assert (Hfa : findTimer h (timers w1) =
                Some (AlignmentTimeout (msToNextMinute (timeAt w 0)))).
  { rewrite Ht1, findTimer_other by assumption. apply findTimer_head. }
  destruct (fireTimer_alignment h _ w1 Hfa) as (_ & Hta & Hna & Hsa & _).
  set (wa := snd (fireTimer h w1)) in *.
  rewrite Ht1, removeTimer_other, removeTimer_head, Hn1 in Hta by lia.
  change (removeTimer h []) with (@nil (nat * Timer)) in Hta.
  rewrite Hn1 in Hna.
  assert (Hfb : findTimer (S h) (timers wa) =
                Some (AlignmentTimeout (msToNextMinute (timeAt w0 0)))).
  { rewrite Hta, findTimer_other by lia. apply findTimer_head. }
  destruct (fireTimer_alignment (S h) _ wa Hfb) as (_ & Ht2 & _ & Hs2 & _).
  fold w2 in Ht2, Hs2.
  rewrite Hta, removeTimer_other, removeTimer_head, Hna in Ht2 by lia.
  change (removeTimer (S h) []) with (@nil (nat * Timer)) in Ht2.
  rewrite Hna in Hs2.
  destruct (stopScheduler_timers w2) as (_ & Ht3 & _ & Hs3 & _).
  fold w3 in Ht3, Hs3.
  rewrite Hs2, Ht2, removeTimer_head, removeTimer_other in Ht3 by lia.
  change (removeTimer (S (S (S h))) []) with (@nil (nat * Timer)) in Ht3.
  split; [now rewrite Ht1|]. split; [eauto|].
  split; [rewrite Ht1; eexists; apply findTimer_head|].
  split; [exact Ht2|]. split; [exact Hs2|]. split; [exact Ht3|].
  split; [exact Hs3|].
  apply (fireTimer_poll _ (60 * 1000)). rewrite Ht3. apply findTimer_head.
Qed.

End SchedulerLife.

Section SchedulerLifeExamples.

#[local] Existing Instance everyMinute.
#[local] Existing Instance decimalDates.
#[local] Existing Instance utcDates.

Lemma startScheduler_aligns_to_minute_witness :
  findTimer 0 (timers (snd (startScheduler alwaysResolves
                              (emptyWorld 360000 None)))) =
  Some (AlignmentTimeout 60000).
Proof.
  destruct (startScheduler_aligns_to_minute (emptyWorld 360000 None)
              alwaysResolves) as (ms & Hf & _ & _ & Hz & _).
  assert (Hm : ms = 60000) by (apply Hz; reflexivity).
  rewrite Hm in Hf. exact Hf.
Defined.

Lemma scheduler_stops_after_alignment_witness :
  timers (snd (stopScheduler
                 (snd (fireTimer 0 (snd (startScheduler alwaysResolves dueWorld))))))
  = [].
Proof.
  destruct (scheduler_stops_after_alignment dueWorld alwaysResolves
              eq_refl eq_refl) as (_ & _ & _ & H & _).
  exact H.
Defined.

Lemma startScheduler_cancels_running_interval_witness :
  findTimer 1
    (timers (snd (startScheduler alwaysRejects
       (snd (fireTimer 0 (snd (startScheduler alwaysResolves dueWorld)))))))
  = None.
Proof.
  assert (Hs : schedulerInterval
                 (snd (fireTimer 0 (snd (startScheduler alwaysResolves dueWorld))))
               = Some 1%nat) by (vm_compute; reflexivity).
  assert (Hn : 1%nat <>
               nextHandle
                 (snd (fireTimer 0 (snd (startScheduler alwaysResolves dueWorld)))))
    by (vm_compute; lia).
  destruct (startScheduler_cancels_running_interval _ alwaysRejects 1%nat Hs Hn)
    as (H & _).
  exact H.
Defined.

Lemma startScheduler_twice_while_aligning_witness :
  timers (snd (stopScheduler
     (snd (fireTimer 1
        (snd (fireTimer 0
           (snd (startScheduler alwaysResolves
              (snd (startScheduler alwaysResolves dueWorld))))))))))
  = [(2%nat, PollInterval 60000)].
Proof.
  destruct (startScheduler_twice_while_aligning dueWorld alwaysResolves
              alwaysResolves eq_refl eq_refl) as (_ & _ & _ & _ & _ & H & _).
  exact H.
Defined.

End SchedulerLifeExamples.

(** ** Invariants of every reachable state *)

Section Reachable.

Context {cron : CronParser} {codec : DateCodec} {localDate : LocalDate}.

Lemma runTaskNow_tasks tid w :
  tasks (snd (runTaskNow tid w)) = tasks w /\
  globalState (snd (runTaskNow tid w)) = globalState w \/
  exists t, TaskMap.get tid (tasks w) = Some t /\
            tasks (snd (runTaskNow tid w)) =
              TaskMap.set tid (set_lastRun (Some (timeAt w 0)) t) (tasks w) /\
            inSync (snd (runTaskNow tid w)).
Proof.
  destruct (TaskMap.get tid (tasks w)) as [t|] eqn:Hget.
  - destruct (onExecuteCallback w) as [f|] eqn:Hf.
    + destruct (f t) as [|e] eqn:Hr.
      * right. exists t. split; [reflexivity|].
        rewrite (runTaskNow_resolved tid t f w Hget Hf Hr). simpl.
        match goal with |- context [persist ?x] =>
          destruct (persist_written x) as [E1 _] end.
        rewrite persist_tasks. simpl. split; [reflexivity|].
        unfold inSync. now rewrite E1, persist_tasks.
      * left. rewrite (runTaskNow_rejected tid t f e w Hget Hf Hr). split; reflexivity.
    + left. rewrite runTaskNow_missing by now right. split; reflexivity.
  - left. rewrite runTaskNow_missing by now left. split; reflexivity.
Qed.

Lemma fireTimer_tasks h w :
  exists w0,
    tasks w0 = tasks w /\ globalState w0 = globalState w /\
    ((tasks (snd (fireTimer h w)) = tasks w0 /\
      globalState (snd (fireTimer h w)) = globalState w0) \/
     (tasks (snd (fireTimer h w)) = tasks (snd (checkAndExecuteTasks w0)) /\
      globalState (snd (fireTimer h w)) =
        globalState (snd (checkAndExecuteTasks w0)))).
Proof.
  destruct (findTimer h (timers w)) as [[ms|ms]|] eqn:Hf.
  - exists (with_timers (removeTimer h (timers w)) (nextHandle w) w).
    split; [reflexivity|]. split; [reflexivity|]. right.
    rewrite (fireTimer_alignment_eval h ms w Hf). split; reflexivity.
  - exists w. split; [reflexivity|]. split; [reflexivity|]. right.
    rewrite (fireTimer_poll h ms w Hf). split; reflexivity.
  - exists w. split; [reflexivity|]. split; [reflexivity|]. left.
    rewrite (fireTimer_dead h w Hf). split; reflexivity.
Qed.

Lemma runAction_wellKeyed a w :
  wellKeyed (tasks w) -> wellKeyed (tasks (snd (runAction a w))).
Proof.
  intros Hw. destruct a as [op | tid | | tid | | f | | h]; simpl.
  - now apply runOp_wellKeyed.
  - rewrite (snd_bind_pure (deleteTask tid) (fun _ => tt)).
    rewrite deleteTask_eval. destruct (TaskMap.get tid (tasks w)); auto.
    simpl. rewrite persist_tasks. simpl. now apply delete_wellKeyed.
  - now apply tick_wellKeyed.
  - rewrite (snd_bind_pure (runTaskNow tid) (fun _ => tt)).
    destruct (runTaskNow_tasks tid w) as [[E _] | (t & Hget & E & _)]; rewrite E; auto.
    apply set_wellKeyed; auto. simpl. now apply wellKeyed_get with (m := tasks w).
  - exact Hw.
  - destruct (startScheduler_timers f w) as (_ & _ & _ & _ & _ & E & _). now rewrite E.
  - destruct (stopScheduler_timers w) as (_ & _ & _ & _ & E & _). now rewrite E.
  - destruct (fireTimer_tasks h w) as (w0 & E0 & _ & [[E _] | [E _]]); rewrite E.
    + now rewrite E0.
    + apply tick_wellKeyed. now rewrite E0.
Qed.

(** X14.  In every state a manager can reach, from its construction on any
    durable store and through any sequence of calls, poll steps, timer
    firings and changes of the host, the keys of the task map are distinct
    and each task is stored under its own id. *)
Theorem manager_stays_wellKeyed (w : World) (acts : list Action) :
  wellKeyed (tasks (runActions acts (snd (construct w)))).
Proof.
  destruct (construct_wellKeyed w) as [_ H]. revert H.
  generalize (snd (construct w)). clear w.
  induction acts as [|a r IH]; intros w Hw; simpl; auto.
  apply IH. now apply runAction_wellKeyed.
Qed.

Lemma inSync_ext w w' :
  tasks w' = tasks w -> globalState w' = globalState w -> inSync w -> inSync w'.
Proof. unfold inSync. intros -> ->. auto. Qed.

Lemma persist_inSync w : inSync (persist w).
Proof.
  unfold inSync. destruct (persist_written w) as [E _].
  now rewrite E, persist_tasks.
Qed.

Lemma tick_inSync w : inSync w -> inSync (snd (checkAndExecuteTasks w)).
Proof.
  intros H. rewrite tick_eval. simpl. destruct (cfg_enabled (config w)); auto.
  apply fold_inSync. exact H.
Qed.

Lemma runOp_inSync op w : inSync w -> inSync (snd (runOp op w)).
Proof.
  intros H. destruct op as [input | tid updates | tid | tid | c folder]; simpl.
  - rewrite (snd_bind_pure (createTask input) (fun _ => tt)).
    destruct (validates (in_cronExpression input) w) eqn:Hv.
    + rewrite (createTask_eval input w Hv). apply persist_inSync.
    + destruct (createTask_invalid input w Hv) as (_ & (E1 & E2 & _) & _).
      now apply (inSync_ext w).
  - rewrite (snd_bind_pure (updateTask tid updates) (fun _ => tt)).
    destruct (TaskMap.get tid (tasks w)) as [t|] eqn:Hget.
    + destruct (checksCron updates) eqn:Hc;
        [destruct (validates (cronOf updates) w) eqn:Hv|].
      * rewrite (updateTask_eval tid updates t w Hget) by (intros _; exact Hv).
        apply persist_inSync.
      * destruct (updateTask_invalid tid updates t w Hget Hc Hv)
          as (_ & (E1 & E2 & _) & _).
        now apply (inSync_ext w).
      * rewrite (updateTask_eval tid updates t w Hget)
          by (rewrite Hc; discriminate).
        apply persist_inSync.
    + now rewrite (updateTask_missing tid updates w Hget).
  - rewrite (snd_bind_pure (toggleTask tid) (fun _ => tt)).
    destruct (TaskMap.get tid (tasks w)) as [t|] eqn:Hget.
    + rewrite (toggleTask_eval tid t w Hget). apply persist_inSync.
    + now rewrite (toggleTask_missing tid w Hget).
  - rewrite (snd_bind_pure (duplicateTask tid) (fun _ => tt)).
    destruct (TaskMap.get tid (tasks w)) as [t|] eqn:Hget.
    + rewrite (duplicateTask_eval tid t w Hget).
      rewrite (snd_bind_pure (createTask (duplicateInput t)) Some).
      destruct (validates (in_cronExpression (duplicateInput t)) w) eqn:Hv.
      * rewrite (createTask_eval _ w Hv). apply persist_inSync.
      * destruct (createTask_invalid _ w Hv) as (_ & (E1 & E2 & _) & _).
        now apply (inSync_ext w).
    + now rewrite (duplicateTask_missing tid w Hget).
  - exact H.
Qed.

Lemma runAction_inSync a w : inSync w -> inSync (snd (runAction a w)).
Proof.
  intros H. destruct a as [op | tid | | tid | | f | | h]; simpl.
  - now apply runOp_inSync.
  - rewrite (snd_bind_pure (deleteTask tid) (fun _ => tt)).
    rewrite deleteTask_eval. destruct (TaskMap.get tid (tasks w)); auto.
    apply persist_inSync.
  - now apply tick_inSync.
  - rewrite (snd_bind_pure (runTaskNow tid) (fun _ => tt)).
    destruct (runTaskNow_tasks tid w) as [[E1 E2] | (t & _ & _ & E)]; auto.
    now apply (inSync_ext w).
  - exact H.
  - destruct (startScheduler_timers f w) as (_ & _ & _ & _ & _ & E1 & E2 & _).
    now apply (inSync_ext w).
  - unfold stopScheduler, clearInterval. run.
    destruct (schedulerInterval w); exact H.
  - destruct (fireTimer_tasks h w) as (w0 & E0 & G0 & [[E G] | [E G]]).
    + apply (inSync_ext w); congruence.
    + apply (inSync_ext (snd (checkAndExecuteTasks w0))); auto.
      apply tick_inSync. now apply (inSync_ext w).
Qed.

(** X15.  Once the durable store holds the collection in memory, it holds
    it after every call: each method that changes a task persists the whole
    collection before it returns, and a method that throws or finds no task
    has changed nothing.  This holds through any sequence of calls, poll
    steps, timer firings and changes of the host. *)
Theorem durable_store_mirrors_memory (w : World) (acts : list Action) :
  inSync w -> inSync (runActions acts w).
Proof.
  revert w. induction acts as [|a r IH]; intros w H; simpl; auto.
  apply IH. now apply runAction_inSync.
Qed.

End Reachable.

Section ReachableExamples.

#[local] Existing Instance everyMinute.
#[local] Existing Instance decimalDates.
#[local] Existing Instance utcDates.

Lemma durable_store_mirrors_memory_witness :
  inSync (runActions
            [ActStore (OpCreate workspaceInput); ActPoll;
             ActDelete "task_300009_abc123"; ActRunNow "zz"]
            (emptyWorld 300007 None)).
Proof.
  apply durable_store_mirrors_memory. reflexivity.
Defined.

End ReachableExamples.

(** ** One save and one notification for each change *)

Section SaveAndNotify.

Context {cron : CronParser} {codec : DateCodec} {localDate : LocalDate}.

Lemma persist_bumps w :
  stateUpdates (persist w) = S (stateUpdates w) /\
  notifications (persist w) =
    if onTasksChangedCallback w then S (notifications w) else notifications w.
Proof.
  destruct (persist_written w) as [_ E]. destruct (persist_counts w) as [N _].
  split; assumption.
Qed.

(** X16.  A method of the store that changes a task writes the collection
    to the durable store once and then runs the change callback once, if
    one is registered; a method that throws on a malformed expression does
    neither.  This is so for [createTask], [updateTask], [toggleTask] and
    [deleteTask]. *)
Theorem change_saves_and_notifies_once (w : World) :
  let saved w' :=
    stateUpdates w' = S (stateUpdates w) /\
    notifications w' =
      (if onTasksChangedCallback w then S (notifications w)
       else notifications w) in
  let untouched w' :=
    stateUpdates w' = stateUpdates w /\ notifications w' = notifications w in
  (forall input,
      if validates (in_cronExpression input) w
      then saved (snd (createTask input w))
      else untouched (snd (createTask input w))) /\
  (forall tid t updates,
      TaskMap.get tid (tasks w) = Some t ->
      if (negb (checksCron updates) || validates (cronOf updates) w)%bool
      then saved (snd (updateTask tid updates w))
      else untouched (snd (updateTask tid updates w))) /\
  (forall tid t,
      TaskMap.get tid (tasks w) = Some t ->
      saved (snd (toggleTask tid w)) /\ saved (snd (deleteTask tid w))).
Proof.
  intros saved untouched. unfold saved, untouched. split; [|split].
  - intros input. destruct (validates (in_cronExpression input) w) eqn:Hv.
    + rewrite (createTask_eval input w Hv). simpl.
      match goal with |- context [persist ?x] =>
        destruct (persist_bumps x) as [E1 E2] end.
      rewrite E1, E2. split; reflexivity.
    + destruct (createTask_invalid input w Hv) as (_ & (_ & _ & E1 & E2) & _).
      split; assumption.
  - intros tid t updates Hget.
    destruct (checksCron updates) eqn:Hc; simpl;
      [destruct (validates (cronOf updates) w) eqn:Hv|].
    + rewrite (updateTask_eval tid updates t w Hget) by (intros _; exact Hv).
      simpl. match goal with |- context [persist ?x] =>
        destruct (persist_bumps x) as [E1 E2] end.
      rewrite E1, E2. split; reflexivity.
    + destruct (updateTask_invalid tid updates t w Hget Hc Hv)
        as (_ & (_ & _ & E1 & E2) & _).
      split; assumption.
    + rewrite (updateTask_eval tid updates t w Hget)
        by (rewrite Hc; discriminate).
      simpl. match goal with |- context [persist ?x] =>
        destruct (persist_bumps x) as [E1 E2] end.
      rewrite E1, E2. split; reflexivity.
  - intros tid t Hget. split.
    + rewrite (toggleTask_eval tid t w Hget). simpl.
      match goal with |- context [persist ?x] =>
        destruct (persist_bumps x) as [E1 E2] end.
      rewrite E1, E2. split; reflexivity.
    + rewrite deleteTask_eval, Hget. simpl.
      match goal with |- context [persist ?x] =>
        destruct (persist_bumps x) as [E1 E2] end.
      rewrite E1, E2. split; reflexivity.
Qed.

End SaveAndNotify.

Section SaveAndNotifyExamples.

#[local] Existing Instance everyMinute.
#[local] Existing Instance decimalDates.
#[local] Existing Instance utcDates.

Lemma change_saves_and_notifies_once_witness :
  notifications
    (snd (toggleTask "t1" (snd (setOnTasksChangedCallback dueWorld)))) = 1%nat /\
  stateUpdates
    (snd (deleteTask "t1" (snd (setOnTasksChangedCallback dueWorld)))) = 1%nat.
Proof.
  pose proof (change_saves_and_notifies_once
                (snd (setOnTasksChangedCallback dueWorld))) as H.
  cbv beta zeta in H. destruct H as (_ & _ & H).
  destruct (H "t1" (sampleTask "t1" true ScopeGlobal None (Some 300000)) eq_refl)
    as [[_ H1] [H2 _]].
  split; [exact H1 | exact H2].
Defined.

End SaveAndNotifyExamples.

(** ** Loading any durable store *)

Section LoadAny.

Context {cron : CronParser} {codec : DateCodec} {localDate : LocalDate}.

Lemma get_set_keys {V} k k' (v : V) m :
  In k (TaskMap.keys (TaskMap.set k' v m)) <-> k = k' \/ In k (TaskMap.keys m).
Proof.
  induction m as [|[k0 v0] r IH]; simpl.
  - intuition.
  - destruct (String.eqb k' k0) eqn:E; simpl.
    + apply String.eqb_eq in E. subst k0. intuition.
    + rewrite IH. intuition.
Qed.

(** What loading a list of records does to a world. *)
Lemma forEach_loadTask_any raws w :
  exists w',
    forEach raws loadTask w = (Ok tt, w') /\
    globalState w' = globalState w /\ stateUpdates w' = stateUpdates w /\
    notifications w' = notifications w /\
    schedulerInterval w' = schedulerInterval w /\
    onExecuteCallback w' = onExecuteCallback w /\
    config w' = config w /\ clock w' = clock w /\
    clockReads w' = (List.length raws + clockReads w)%nat /\
    (forall k, In k (TaskMap.keys (tasks w')) <->
               In k (TaskMap.keys (tasks w)) \/ In k (map raw_id raws)) /\
    (forall k, ~ In k (map raw_id raws) ->
               TaskMap.get k (tasks w') = TaskMap.get k (tasks w)) /\
    (forall i raw,
        nth_error raws i = Some raw ->
        (forall j raw', (i < j)%nat -> nth_error raws j = Some raw' ->
                        raw_id raw' <> raw_id raw) ->
        TaskMap.get (raw_id raw) (tasks w') =
          Some (loadedTask raw (clock w (i + clockReads w)%nat) (timeZoneOf w))).
Proof.
  revert w. induction raws as [|r0 rest IH]; intros w.
  - exists w. simpl. split; [reflexivity|]. do 8 (split; [reflexivity|]).
    split; [intros k; tauto|]. split; [reflexivity|].
    intros i raw H. destruct i; discriminate.
  - simpl. unfold bind. rewrite loadTask_eval.
    match goal with |- context [forEach _ _ ?x] => set (w1 := x) end.
    destruct (IH w1)
      as (w' & E & a1 & a2 & a3 & a4 & a5 & a6 & a7 & a8 & a9 & a10 & a11).
    exists w'. split; [exact E|].
    split; [exact a1|]. split; [exact a2|]. split; [exact a3|].
    split; [exact a4|]. split; [exact a5|]. split; [exact a6|].
    split; [exact a7|].
    split; [rewrite a8; unfold w1; simpl; lia|].
    split; [|split].
    + intros k. rewrite a9. unfold w1. simpl. rewrite get_set_keys.
      intuition.
    + intros k Hk. rewrite a10 by (intros H; apply Hk; now right).
      unfold w1. simpl. apply TaskMapFacts.get_set_other.
      intros ->. apply Hk. now left.
    + intros i raw Hi Hlast. destruct i as [|i]; simpl in Hi.
      * injection Hi as <-. rewrite a10.
        -- unfold w1. simpl. apply TaskMapFacts.get_set_same.
        -- intros Hin. apply in_map_iff in Hin as (raw' & Hid & Hin).
           apply In_nth_error in Hin as [j Hj].
           apply (Hlast (S j) raw'); [lia | exact Hj | exact Hid].
      * rewrite (a11 i raw Hi).
        -- unfold w1, timeZoneOf. simpl.
           replace (i + S (clockReads w))%nat with (S (i + clockReads w))%nat by lia.
           reflexivity.
        -- intros j raw' Hj Hn. apply (Hlast (S j) raw'); [lia | exact Hn].
Qed.

(** X17.  The construction of a manager never throws and writes nothing,
    whatever the durable store holds.  It starts without interval and
    without Executor, reads the clock once for each record, and stores under
    each id of the store exactly one task: the record with that id that
    comes last, with the defaults for a missing [scope] and [promptSource]
    and the [nextRun] the cron library gives at the reading of that record,
    which is none when the library refuses the expression. *)
Theorem construct_loads_last_record_of_each_id (w : World) :
  let w' := snd (construct w) in
  fst (construct w) = Ok tt /\
  globalState w' = globalState w /\ stateUpdates w' = stateUpdates w /\
  notifications w' = notifications w /\
  schedulerInterval w' = None /\ onExecuteCallback w' = None /\
  clockReads w' = (List.length (globalState w) + clockReads w)%nat /\
  NoDup (TaskMap.keys (tasks w')) /\
  (forall k, In k (TaskMap.keys (tasks w')) <-> In k (map raw_id (globalState w))) /\
  (forall i raw,
      nth_error (globalState w) i = Some raw ->
      (forall j raw', (i < j)%nat -> nth_error (globalState w) j = Some raw' ->
                      raw_id raw' <> raw_id raw) ->
      exists t,
        TaskMap.get (raw_id raw) (tasks w') = Some t /\
        t = loadedTask raw (clock w (i + clockReads w)%nat) (timeZoneOf w) /\
        nextRun t =
          nextOccurrence (raw_cronExpression raw)
            (clock w (i + clockReads w)%nat) (timeZoneOf w) /\
        scope t = match raw_scope raw with Some s => s | None => ScopeGlobal end /\
        promptSource t =
          match raw_promptSource raw with Some s => s | None => SourceInline end).
Proof.
  intros w'.
  destruct (construct_wellKeyed w) as [_ [Hnd _]]. fold w' in Hnd.
  unfold w', construct, loadTasks. run.
  match goal with |- context [forEach _ _ ?x] => set (w0 := x) end.
  destruct (forEach_loadTask_any (globalState w) w0)
    as (w1 & E & a1 & a2 & a3 & a4 & a5 & a6 & a7 & a8 & a9 & a10 & a11).
  assert (Ew : w' = w1).
  { unfold w', construct, loadTasks. run. fold w0. now rewrite E. }
  rewrite E. simpl. rewrite <- Ew in *.
  split; [reflexivity|]. split; [exact a1|]. split; [exact a2|].
  split; [exact a3|]. split; [exact a4|]. split; [exact a5|].
  split; [exact a8|]. split; [exact Hnd|]. split.
  - intros k. rewrite a9. simpl. tauto.
  - intros i raw Hi Hlast. eexists. split; [apply (a11 i raw Hi Hlast)|].
    split; [reflexivity|]. repeat split.
Qed.

End LoadAny.

Section LoadAnyExamples.

#[local] Existing Instance everyMinute.
#[local] Existing Instance decimalDates.
#[local] Existing Instance utcDates.

Lemma construct_loads_last_record_of_each_id_witness :
  exists t,
    TaskMap.get "t2" (tasks (snd (construct restartWorld))) = Some t /\
    nextRun t = Some 360000.
Proof.
  destruct (construct_loads_last_record_of_each_id restartWorld)
    as (_ & _ & _ & _ & _ & _ & _ & _ & _ & H).
  destruct (H 1%nat (legacy false false
                       (toJSON (sampleTask "t2" false ScopeWorkspace
                                  (Some "/repoA") None))) eq_refl)
    as (t & Hg & _ & Hn & _).
  - intros j raw' Hj Hn. destruct j as [|[|[|j]]]; try lia; discriminate.
  - exists t. split; [exact Hg|]. rewrite Hn. vm_compute. reflexivity.
Defined.

End LoadAnyExamples.

(* ================================================================== *)
(** ** The Executor of the extension *)

Section ExtensionProperties.

Context {cronParser : CronParser} {dateCodec : DateCodec}
  {localDate : LocalDate} {nodePath : NodePath}.

Variable host : ExtensionHost.

Lemma executeTask_eval task ui :
  executeTask host task ui =
  (Ok tt,
   let started :=
     if showNotifications host
     then taskExecuting host (name task) :: infoMessages ui
     else infoMessages ui in
   match executePrompt host (resolvePromptText host task) (agent task) (model task) with
   | Resolved =>
       mkUi (if showNotifications host
             then taskExecuted host (name task) :: started else started)
            (errorMessages ui)
   | Rejected e =>
       mkUi started
            (taskExecutionFailed host (name task) (errorMessageOf e)
               :: errorMessages ui)
   end).
Proof.
  unfold executeTask, ubind, utryCatch, uwhen, awaitExecutePrompt,
    showInformationMessage, showErrorMessage, uret.
  destruct ui as [i e]; simpl.
  destruct (showNotifications host); simpl;
    destruct (executePrompt host _ _ _); reflexivity.
Qed.

Lemma activationExecutor_resolves task :
  activationExecutor host task = Resolved.
Proof. unfold activationExecutor. now rewrite executeTask_eval. Qed.

Lemma executed_quiet (f : Executor) t w :
  onExecuteCallback w = Some f -> f t = Resolved ->
  console (executed t w) = console w.
Proof. intros Hf Hr. unfold executed. now rewrite Hf, Hr. Qed.

Lemma tickStep_quiet (f : Executor) now w e :
  onExecuteCallback w = Some f -> (forall t, f t = Resolved) ->
  console (tickStep now w e) = console w.
Proof.
  intros Hf Hr. unfold tickStep. destruct (isDue _ _ _); [|reflexivity].
  match goal with |- context [persist ?x] =>
    destruct (persist_counts x) as [_ E]; rewrite E end.
  simpl. now apply (executed_quiet f).
Qed.

Lemma fold_quiet (f : Executor) now es w :
  onExecuteCallback w = Some f -> (forall t, f t = Resolved) ->
  console (fold_left (tickStep now) es w) = console w.
Proof.
  intros Hf Hr. revert w Hf. induction es as [|e r IH]; intros w Hf; simpl; auto.
  destruct (tickStep_sameHost now w e) as (_ & _ & Hcb & _).
  rewrite IH by (now rewrite Hcb). now apply (tickStep_quiet f).
Qed.

(** X18.  [executeTask] never rejects, whatever the Copilot executor does.
    When the prompt goes through it shows no error message, and the two
    notices only with notifications switched on; when the prompt fails it
    shows exactly one error message, made of the task name and the message
    of the error, also with notifications switched off, and never the notice
    that the task has run. *)
Theorem executeTask_never_rejects (task : ScheduledTask) (ui : Ui) :
  let ui' := snd (executeTask host task ui) in
  let notice m := if showNotifications host then [m] else [] in
  fst (executeTask host task ui) = Ok tt /\
  match executePrompt host (resolvePromptText host task)
          (agent task) (model task) with
  | Resolved =>
      errorMessages ui' = errorMessages ui /\
      infoMessages ui' =
        (notice (taskExecuted host (name task))
           ++ notice (taskExecuting host (name task)) ++ infoMessages ui)%list
  | Rejected e =>
      errorMessages ui' =
        taskExecutionFailed host (name task) (errorMessageOf e)
          :: errorMessages ui /\
      infoMessages ui' =
        (notice (taskExecuting host (name task)) ++ infoMessages ui)%list
  end.
Proof.
  intros ui' notice. subst ui' notice. rewrite executeTask_eval. cbv zeta.
  split; [reflexivity|].
  destruct (executePrompt host _ _ _) as [|e0]; simpl;
    destruct (showNotifications host); split; reflexivity.
Qed.

(** X19.  With the callback that [activate] gives to [startScheduler], the
    manager never sees a failed prompt.  [runTaskNow] on a stored task
    answers true and stamps [lastRun] with the time of the call, whether
    the Copilot executor resolved or rejected, and a poll step writes
    nothing to the console. *)
Theorem activation_hides_failures (w : World) (tid : string)
    (t : ScheduledTask) :
  onExecuteCallback w = Some (activationExecutor host) ->
  TaskMap.get tid (tasks w) = Some t ->
  let w' := snd (runTaskNow tid w) in
  fst (runTaskNow tid w) = Ok true /\
  TaskMap.get tid (tasks w') = Some (set_lastRun (Some (timeAt w 0)) t) /\
  executions w' = t :: executions w /\
  console (snd (checkAndExecuteTasks w)) = console w.
Proof.
  intros Hcb Hget w'. subst w'.
  rewrite (runTaskNow_resolved tid t _ w Hget Hcb (activationExecutor_resolves t)).
  simpl. split; [reflexivity|].
  rewrite persist_tasks. simpl. split; [apply TaskMapFacts.get_set_same|].
  split.
  - match goal with |- context [persist ?x] =>
      destruct (persist_written x) as [E _] end.
    unfold persist. destruct (onTasksChangedCallback _); reflexivity.
  - rewrite tick_eval. simpl. destruct (cfg_enabled (config w)); [|reflexivity].
    change (console w) with (console (clockRead w)).
    apply (fold_quiet (activationExecutor host)); [exact Hcb|].
    apply activationExecutor_resolves.
Qed.

(** X20.  [resolvePromptText] returns the inline prompt of an inline task,
    and for a task that names a file either that same inline prompt or the
    content of a file.  Any text other than the inline prompt was read from
    a file that exists and whose resolved path is the normalised root or
    lies under it, the root of a local task being the workspace folder. *)
Theorem resolvePromptText_reads_under_root (task : ScheduledTask) :
  resolvePromptText host task <> prompt task ->
  exists root p,
    promptSource task <> SourceInline /\
    promptPath task = Some p /\ p <> "" /\
    (promptSource task = SourceLocal -> workspaceRoot host = Some root) /\
    let file := path_resolve root p in
    (file = path_normalize root \/
     String.prefix (path_normalize root ++ path_sep) file = true) /\
    existsSync host file = true /\
    readFileSync host file = Some (resolvePromptText host task).
Proof.
  unfold resolvePromptText.
  destruct (promptSource task) eqn:Es; [tauto| |];
    destruct (promptPath task) as [p|] eqn:Ep; simpl; try tauto;
    (destruct (truthy p) eqn:Etp; simpl; [|tauto]).
  - (* local *)
    unfold resolveLocalPromptPath.
    destruct (workspaceRoot host) as [root|] eqn:Er; [|tauto].
    destruct (truthy root); [|tauto].
    unfold resolveAllowedPromptPath.
    destruct (String.prefix _ _ || String.eqb _ _)%bool eqn:Eg; [|tauto].
    destruct (truthy (path_resolve root p) && existsSync host _)%bool eqn:Ee;
      [|tauto].
    destruct (readFileSync host _) as [c|] eqn:Ec; [|tauto].
    intros _. exists root, p. apply andb_prop in Ee as [_ Ee].
    split; [discriminate|]. split; [reflexivity|].
    split; [intros ->; discriminate|]. split; [reflexivity|]. cbv zeta.
    split; [|split; assumption].
    apply orb_prop in Eg as [Eg|Eg]; [now right|left; now apply String.eqb_eq].
  - (* global *)
    unfold resolveGlobalPromptPath.
    match goal with |- context [match ?g with Some root => _ | None => None end] =>
      destruct g as [root|] eqn:Er; [|tauto] end.
    destruct (truthy root); [|tauto].
    unfold resolveAllowedPromptPath.
    destruct (String.prefix _ _ || String.eqb _ _)%bool eqn:Eg; [|tauto].
    destruct (truthy (path_resolve root p) && existsSync host _)%bool eqn:Ee;
      [|tauto].
    destruct (readFileSync host _) as [c|] eqn:Ec; [|tauto].
    intros _. exists root, p. apply andb_prop in Ee as [_ Ee].
    split; [discriminate|]. split; [reflexivity|].
    split; [intros ->; discriminate|]. split; [discriminate|]. cbv zeta.
    split; [|split; assumption].
    apply orb_prop in Eg as [Eg|Eg]; [now right|left; now apply String.eqb_eq].
Qed.

End ExtensionProperties.

Section ExtensionExamples.

#[local] Existing Instance everyMinute.
#[local] Existing Instance decimalDates.
#[local] Existing Instance utcDates.
#[local] Existing Instance posixPath.

Lemma activation_hides_failures_witness :
  fst (runTaskNow "t1" activatedWorld) = Ok true /\
  console (snd (checkAndExecuteTasks activatedWorld)) = [].
Proof.
  destruct (activation_hides_failures
              (sampleHost (Rejected (MkError "no chat"))) activatedWorld "t1"
              (sampleTask "t1" true ScopeGlobal None (Some 300000))
              eq_refl eq_refl) as (H1 & _ & _ & H2).
  split; [exact H1 | exact H2].
Defined.

Lemma resolvePromptText_reads_under_root_witness :
  exists root p,
    promptSource localPromptTask <> SourceInline /\
    promptPath localPromptTask = Some p /\ p <> "" /\
    (promptSource localPromptTask = SourceLocal ->
     workspaceRoot (sampleHost Resolved) = Some root) /\
    let file := path_resolve root p in
    (file = path_normalize root \/
     String.prefix (path_normalize root ++ path_sep) file = true) /\
    existsSync (sampleHost Resolved) file = true /\
    readFileSync (sampleHost Resolved) file =
      Some (resolvePromptText (sampleHost Resolved) localPromptTask).
Proof.
  apply (resolvePromptText_reads_under_root (sampleHost Resolved) localPromptTask).
  vm_compute. discriminate.
Defined.

End ExtensionExamples.
